(** * run_asc.py: the multi-layer pooling head, the schedule and the loops

    A shallow embedding of [src/run_asc.py] (BERT for aspect sentiment
    classification) and the properties of its specification.

    Conventions of the embedding.
    - Python floats are idealised as exact rationals ([Q]); equalities on
      them are stated with [==] ([Qeq]).
    - A raised Python exception is the [Raise] case of [result]; code that
      also touches the file system runs in the monad [IO].
    - The modules imported from [modeling], [optimization],
      [absa_data_utils] and [torch] are not part of this file: they enter
      as the fields of the classes [Modeling] and [Env]. *)

From Stdlib Require Import QArith Qabs Lqa Lia ZArith Ascii String List.
From stdpp Require Import gmap strings list pretty.

(** * Part I: definitions *)

(** ** Exceptions *)

Inductive exn : Set :=
| IndexError
| RuntimeError
| ZeroDivisionError
| TypeError
| ValueError
| UnboundLocalError
| FileExistsError
| FileNotFoundError
| IsADirectoryError
| NotADirectoryError
| KeyError.

Inductive result (A : Type) : Type :=
| Ok (a : A)
| Raise (e : exn).

Arguments Ok {A} a.
Arguments Raise {A} e.

Definition bindR {A B : Type} (m : result A) (f : A -> result B) : result B :=
  match m with
  | Ok a => f a
  | Raise e => Raise e
  end.

Declare Scope result_scope.
Delimit Scope result_scope with res.
Notation "'let*' x ':=' m 'in' k" := (bindR m (fun x => k))
  (at level 10, x name, m at level 100, k at level 200, only parsing)
  : result_scope.
Notation "'let*' ' pat ':=' m 'in' k" :=
  (bindR m (fun x => match x with pat => k end))
  (at level 10, pat pattern, m at level 100, k at level 200, only parsing)
  : result_scope.

(** A Python [for] loop whose body may raise: the loop state is threaded
    through the elements in order. *)
Fixpoint foldR {A S : Type} (body : S -> A -> result S) (l : list A) (s : S)
  : result S :=
  match l with
  | [] => Ok s
  | x :: l' => bindR (body s x) (foldR body l')
  end.

(** ** Schedule function: [warmup_linear] *)

Module Schedule.

(** [def warmup_linear(x, warmup=0.002)] *)
Definition warmup_linear (x warmup : Q) : Q :=
  if Qlt_le_dec x warmup then (x / warmup)%Q else (1 - x)%Q.

Definition default_warmup : Q := 2 # 1000.

(** The two arms of the conditional, as functions of [x] on their own. *)
Definition warmup_branch (x warmup : Q) : Q := (x / warmup)%Q.
Definition decay_branch (x : Q) : Q := (1 - x)%Q.

(** Continuity of a rational function at a point, epsilon-delta. *)
Definition continuous_at (f : Q -> Q) (a : Q) : Prop :=
  forall eps : Q, (0 < eps)%Q ->
    exists delta : Q, (0 < delta)%Q /\
      forall x : Q, (Qabs (x - a) < delta)%Q -> (Qabs (f x - f a) < eps)%Q.

End Schedule.

(** ** Tensors *)

Module Tensor.

Abbreviation Vector := (list Q).
Abbreviation Matrix := (list (list Q)).
Abbreviation Hidden := (list (list (list Q))).

(** A loss is a tensor of dimension 0 or 1. *)
Inductive Tensor01 : Type :=
| Scalar (x : Q)
| Vec (v : Vector).

(** [torch.Tensor(0)]: the legacy constructor applied to an int allocates a
    1-D tensor with that many elements; with 0 it holds no element. *)
Definition torch_Tensor_0 : Tensor01 := Vec [].

Definition numel (t : Tensor01) : nat :=
  match t with
  | Scalar _ => 1
  | Vec v => length v
  end.

(** [t.item()] *)
Definition item (t : Tensor01) : result Q :=
  match t with
  | Scalar x => Ok x
  | Vec [x] => Ok x
  | Vec _ => Raise ValueError
  end.

(** Python [sum(l)]: starts from 0 and adds from the left. *)
Definition py_sum (l : list Q) : Q := fold_left Qplus l 0%Q.

(** [torch.sum(torch.stack(losses), dim=0)] on 0-dim tensors. *)
Definition stack_scalars (l : list Q) : result Vector :=
  match l with
  | [] => Raise RuntimeError
  | _ => Ok l
  end.

Definition sum_vec (v : Vector) : Tensor01 := Scalar (py_sum v).

Definition shape (m : Matrix) : list nat := map (@length Q) m.

Definition same_shape (m1 m2 : Matrix) : bool :=
  bool_decide (shape m1 = shape m2).

(** [torch.stack(ms)]: a non-empty list of tensors of one shape. *)
Definition stack (ms : list Matrix) : result (list Matrix) :=
  match ms with
  | [] => Raise RuntimeError
  | m :: ms' =>
      if forallb (same_shape m) ms' then Ok ms else Raise RuntimeError
  end.

Fixpoint vadd (u v : Vector) : Vector :=
  match u, v with
  | x :: u', y :: v' => (x + y)%Q :: vadd u' v'
  | _, _ => []
  end.

Fixpoint madd (a b : Matrix) : Matrix :=
  match a, b with
  | u :: a', v :: b' => vadd u v :: madd a' b'
  | _, _ => []
  end.

(** [torch.sum(stacked, dim=0)] *)
Definition sum_dim0 (ms : list Matrix) : Matrix :=
  match ms with
  | [] => []
  | m :: ms' => fold_left madd ms' m
  end.

(** [t / k] for a Python int [k]. *)
Definition mdiv (m : Matrix) (k : nat) : Matrix :=
  map (map (fun x => (x / inject_Z (Z.of_nat k))%Q)) m.

(** [torch.nn.Linear(in_features, out_features)] *)
Record Linear : Type := mkLinear {
  in_features : nat;
  out_features : nat;
  weight : Matrix;
  bias : Vector
}.

Definition Linear_wf (L : Linear) : Prop :=
  length (weight L) = out_features L /\ length (bias L) = out_features L.

Fixpoint dot (u v : Vector) : Q :=
  match u, v with
  | x :: u', y :: v' => (x * y + dot u' v')%Q
  | _, _ => 0%Q
  end.

Fixpoint affine (w : Matrix) (b : Vector) (x : Vector) : Vector :=
  match w, b with
  | wi :: w', bi :: b' => (dot wi x + bi)%Q :: affine w' b' x
  | _, _ => []
  end.

(** [L(x)] on a batch of rows: [x @ W.T + b]; a row of the wrong width is a
    shape error. *)
Fixpoint linear (L : Linear) (x : Matrix) : result Matrix :=
  match x with
  | [] => Ok []
  | r :: x' =>
      if Nat.eqb (length r) (in_features L)
      then bindR (linear L x') (fun ys => Ok (affine (weight L) (bias L) r :: ys))
      else Raise RuntimeError
  end.

End Tensor.

(** ** Python indexing and grouping *)

Module Py.

(** [l[i]] for [i >= 0]. *)
Definition index {A : Type} (l : list A) (i : nat) : result A :=
  match nth_error l i with
  | Some x => Ok x
  | None => Raise IndexError
  end.

(** [l[-k]] for [k >= 1]: the [k]-th element from the end. *)
Definition neg_index {A : Type} (l : list A) (k : nat) : result A :=
  if (1 <=? k) && (k <=? length l)
  then index l (length l - k)
  else Raise IndexError.

(** Consecutive groups of [n] elements, the last one possibly shorter;
    [cur] is the group being filled. *)
Fixpoint group {A : Type} (n : nat) (cur : list A) (l : list A)
  : list (list A) :=
  match l with
  | [] => match cur with [] => [] | _ => [cur] end
  | x :: l' =>
      let cur' := cur ++ [x] in
      if length cur' =? n then cur' :: group n [] l' else group n cur' l'
  end.

(** ['sub' in s] on strings. *)
Fixpoint str_in (sub s : string) : bool :=
  String.prefix sub s ||
  match s with
  | EmptyString => false
  | String _ s' => str_in sub s'
  end.

(** [any(nd in n for nd in l)] *)
Definition any_in (l : list string) (n : string) : bool :=
  existsb (fun nd => str_in nd n) l.

End Py.

(** ** The interface of [modeling.py] and of the loss of [torch.nn] *)

Module Modeling.
Import Tensor.

Record Config : Type := mkConfig {
  hidden_size : nat;
  num_hidden_layers : nat
}.

(** The value of a parameter: a vector or a matrix. *)
Inductive PTensor : Type :=
| P1 (v : Vector)
| P2 (m : Matrix).

(** Token ids, segment ids and masks of a batch: one row per example. *)
Abbreviation Ids := (list (list Z)).

(** Remove the prefix [p] from the name [n]. *)
Fixpoint strip (p n : string) : option string :=
  match p with
  | EmptyString => Some n
  | String a p' =>
      match n with
      | EmptyString => None
      | String b n' => if Ascii.eqb a b then strip p' n' else None
      end
  end.

(** The state dict of the sub-module held in attribute [attr]: the entries
    named [attr.<name>], under [<name>]. *)
Definition sub (attr : string) (sd : gmap string PTensor) : gmap string PTensor :=
  map_fold (fun n v acc =>
              match strip (attr +:+ ".") n with
              | Some s => <[s := v]> acc
              | None => acc
              end) ∅ sd.

Definition zeros (rows cols : nat) : Matrix :=
  repeat (repeat 0%Q cols) rows.

Definition has_shape (rows cols : nat) (m : Matrix) : bool :=
  (length m =? rows) && forallb (fun r => length r =? cols) m.

(** [torch.nn.Linear(n_in, n_out)] with its parameters [weight] and [bias]
    read from the state dict; the shapes are those of the constructor. *)
Definition nn_Linear (n_in n_out : nat) (sd : gmap string PTensor) : Linear :=
  {| in_features := n_in;
     out_features := n_out;
     weight := match sd !! "weight" with
               | Some (P2 m) => if has_shape n_out n_in m then m else zeros n_out n_in
               | _ => zeros n_out n_in
               end;
     bias := match sd !! "bias" with
             | Some (P1 v) => if length v =? n_out then v else repeat 0%Q n_out
             | _ => repeat 0%Q n_out
             end |}.

(** What [run_asc.py] imports from [modeling] and [torch.nn]. [Mask] is the
    extended attention mask the encoder returns; the [bool] is the module's
    training flag ([model.train()] / [model.eval()]). *)
Class Modeling : Type := {
  Mask : Type;
  BertLayer : Config -> gmap string PTensor -> bool -> Hidden -> Mask -> Hidden;
  BertPooler : Config -> gmap string PTensor -> Hidden -> Matrix;
  BertModel : Config -> gmap string PTensor -> bool ->
              Ids -> option Ids -> option Ids -> list Hidden * Matrix * Mask;
  CrossEntropyLoss : Z -> Matrix -> list Z -> result Q
}.

(** The shapes these modules are declared with: the encoder returns one
    hidden state per layer, each with one entry per example; a layer keeps
    the batch dimension; the pooler returns one row of [hidden_size]
    numbers per example. *)
Class ModelingShapes (M : Modeling) : Prop := {
  BertModel_layers : forall c sd tr ids seg msk,
    length (BertModel c sd tr ids seg msk).1.1 = num_hidden_layers c;
  BertModel_batch : forall c sd tr ids seg msk,
    Forall (fun h : Hidden => length h = length ids) (BertModel c sd tr ids seg msk).1.1;
  BertLayer_batch : forall c sd tr h m,
    length (BertLayer c sd tr h m) = length h;
  BertPooler_batch : forall c sd h,
    length (BertPooler c sd h) = length h;
  BertPooler_width : forall c sd h,
    Forall (fun r : Vector => length r = hidden_size c) (BertPooler c sd h)
}.

End Modeling.

(** ** [class GRoIE(nn.Module)] *)

Module GRoIE.
Import Tensor Modeling.

Section GRoIE.
Context {M : Modeling}.

Record t : Type := mk {
  count : nat;
  num_labels : nat;
  pooler : Hidden -> Matrix;
  pre_layers : list (Hidden -> Mask -> Hidden);
  loss_fct : list (Matrix -> list Z -> result Q);
  classifier : Linear
}.

(** [__init__(self, count, config, num_labels)]; the parameters of the
    sub-modules are those of the state dict [sd]. *)
Definition init (count : nat) (config : Config) (num_labels : nat)
    (sd : gmap string PTensor) (training : bool) : t :=
  let lists :=
    fold_left
      (fun (acc : list (Hidden -> Mask -> Hidden) *
                  list (Matrix -> list Z -> result Q)) (i : nat) =>
         (acc.1 ++ [BertLayer config (sub (pretty i) (sub "pre_layers" sd)) training],
          acc.2 ++ [CrossEntropyLoss (-1)]))
      (seq 0 count) ([], []) in
  {| count := count;
     num_labels := num_labels;
     pooler := BertPooler config (sub "pooler" sd);
     pre_layers := lists.1;
     loss_fct := lists.2;
     classifier := nn_Linear (hidden_size config) num_labels (sub "classifier" sd) |}.

(** [t.view(-1, n)] on a 2-D tensor. *)
Definition view2 (m : Matrix) (n : nat) : result Matrix :=
  let flat := concat m in
  if n =? 0 then Raise RuntimeError
  else if length flat mod n =? 0 then Ok (Py.group n [] flat)
  else Raise RuntimeError.

(** Lines 64-66: the logits of branch [i]. *)
Definition branch_logits (self : t) (layers : list Hidden) (attention_mask : Mask)
    (i : nat) : result Matrix :=
  (let* h := Py.neg_index layers (i + 1) in
   let* pre := Py.index (pre_layers self) i in
   let layer := pre h attention_mask in
   let layer := pooler self layer in
   linear (classifier self) layer)%res.

(** Line 68: the loss of branch [i] on its logits. *)
Definition branch_loss (self : t) (i : nat) (logits : Matrix) (labels : list Z)
  : result Q :=
  (let* lf := Py.index (loss_fct self) i in
   let* v := view2 logits (num_labels self) in
   lf v labels)%res.

(** The body of the loop of [forward], on the state [(losses, logitses)]. *)
Definition forward_body (self : t) (layers : list Hidden) (attention_mask : Mask)
    (labels : option (list Z)) (st : list Q * list Matrix) (i : nat)
  : result (list Q * list Matrix) :=
  (let* logits := branch_logits self layers attention_mask i in
   let* losses :=
     match labels with
     | Some lab =>
         let* loss := branch_loss self i logits lab in
         Ok (st.1 ++ [loss])
     | None => Ok st.1
     end in
   Ok (losses, st.2 ++ [logits]))%res.

(** [forward(self, layers, attention_mask, labels)] *)
Definition forward (self : t) (layers : list Hidden) (attention_mask : Mask)
    (labels : option (list Z)) : result (Tensor01 * Matrix) :=
  (let* st := foldR (forward_body self layers attention_mask labels)
                    (seq 0 (count self)) ([], []) in
   let* total_loss :=
     match labels with
     | Some _ => let* v := stack_scalars st.1 in Ok (sum_vec v)
     | None => Ok torch_Tensor_0
     end in
   let* stacked := stack st.2 in
   let avg_logits := mdiv (sum_dim0 stacked) (count self) in
   Ok (total_loss, avg_logits))%res.

End GRoIE.
End GRoIE.

(** ** [class BertForABSA(BertPreTrainedModel)] *)

Module BertForABSA.
Import Tensor Modeling.

Section BertForABSA.
Context {M : Modeling}.

Record t : Type := mk {
  num_labels : nat;
  bert : Ids -> option Ids -> option Ids -> list Hidden * Matrix * Mask;
  groie : GRoIE.t
}.

(** [__init__(self, config, num_labels=3)]; the parameters are those of
    the state dict [sd], which stands for what [init_bert_weights],
    [from_pretrained] and the optimizer steps have left in them. *)
Definition init (config : Config) (num_labels : nat)
    (sd : gmap string PTensor) (training : bool) : t :=
  {| num_labels := num_labels;
     bert := BertModel config (sub "bert" sd) training;
     groie := GRoIE.init 4 config num_labels (sub "groie" sd) training |}.

Definition default_num_labels : nat := 3.

(** What [forward] returns: the loss or the logits, never both. *)
Inductive output : Type :=
| Loss (loss : Tensor01)
| Logits (logits : Matrix).

(** [forward(self, input_ids, token_type_ids=None, attention_mask=None,
    labels=None)] *)
Definition forward (self : t) (input_ids : Ids) (token_type_ids : option Ids)
    (attention_mask : option Ids) (labels : option (list Z)) : result output :=
  let '(layers, _, mask) := bert self input_ids token_type_ids attention_mask in
  (let* r := GRoIE.forward (groie self) layers mask labels in
   let '(loss, logits) := r in
   match labels with
   | Some _ => Ok (Loss loss)
   | None => Ok (Logits logits)
   end)%res.

End BertForABSA.
End BertForABSA.

(** ** Files and the [IO] monad *)

Module OS.
Import Tensor Modeling.

(** [nn.Parameter]: a value and its [requires_grad] flag. *)
Record TorchParam : Type := mkTorchParam {
  data : PTensor;
  requires_grad : bool
}.

(** The [nn.Module] object [model]: its configuration, its named
    parameters and its training flag. *)
Record Model : Type := mkModel {
  m_config : Config;
  m_num_labels : nat;
  m_params : gmap string TorchParam;
  m_training : bool
}.

Inductive Json : Type :=
| Predictions (logits : Matrix) (label_ids : list Z)
| ValidLosses (valid_losses : list Q).

Inductive File : Type :=
| Directory
| ModelFile (m : Model)
| JsonFile (j : Json).

Abbreviation FS := (gmap string File).

(** A computation that may raise and that reads and writes the files; what
    was written before an exception stays written. *)
Definition IO (A : Type) : Type := FS -> result A * FS.

Definition retIO {A : Type} (a : A) : IO A := fun fs => (Ok a, fs).

Definition bindIO {A B : Type} (m : IO A) (f : A -> IO B) : IO B :=
  fun fs =>
    match m fs with
    | (Ok a, fs') => f a fs'
    | (Raise e, fs') => (Raise e, fs')
    end.

Definition lift {A : Type} (r : result A) : IO A := fun fs => (r, fs).

Fixpoint foldIO {A S : Type} (body : S -> A -> IO S) (l : list A) (s : S)
  : IO S :=
  match l with
  | [] => retIO s
  | x :: l' => bindIO (body s x) (foldIO body l')
  end.

(** The value [f a] when the computation ended with [a], [d] when it
    raised. *)
Definition on_success {A B : Type} (f : A -> B) (d : B) (r : result A * FS) : B :=
  match r with
  | (Ok a, _) => f a
  | (Raise _, _) => d
  end.

Definition succeeded {A : Type} (r : result A * FS) : bool :=
  on_success (fun _ => true) false r.

Definition ends_with_slash (s : string) : bool :=
  match String.rev s with
  | String c _ => Ascii.eqb c "/"%char
  | EmptyString => false
  end.

(** [os.path.join(a, b)] for two components; [a] may be [None]. *)
Definition path_join (a : option string) (b : string) : result string :=
  match a with
  | None => Raise TypeError
  | Some a =>
      if String.prefix "/" b then Ok b
      else if String.eqb a "" || ends_with_slash a then Ok (a +:+ b)
      else Ok (a +:+ "/" +:+ b)
  end.

(** The files are kept under their path as the program writes it, without
    trailing slashes; two spellings of one path that differ otherwise
    ('.', '..', a doubled slash inside) are not identified. A relative path
    is relative to the working directory, which exists. *)
Fixpoint strip_slashes (p : string) : string :=
  match p with
  | EmptyString => EmptyString
  | String c r =>
      match strip_slashes r with
      | EmptyString => if Ascii.eqb c "/" then EmptyString else String c EmptyString
      | r' => String c r'
      end
  end.

(** A path without its trailing slashes; slashes alone are the root. *)
Definition norm (p : string) : string :=
  let s := strip_slashes p in
  if String.eqb s "" then (if String.eqb p "" then "" else "/") else s.

(** The directories above [p], from the top: the part of [p] before each of
    its slashes ([pre] is what was read so far); the root is left out. *)
Fixpoint ancestors_from (pre p : string) : list string :=
  match p with
  | EmptyString => []
  | String c r =>
      (if Ascii.eqb c "/"
       then match strip_slashes pre with
            | EmptyString => []
            | d => [d]
            end
       else [])
      ++ ancestors_from (pre +:+ String c EmptyString) r
  end.

Definition ancestors (p : string) : list string :=
  ancestors_from "" (norm p).

(** Walking down the directories [ds]: a regular file on the way is
    [ENOTDIR], a missing directory [ENOENT]. *)
Fixpoint check_dirs (fs : FS) (ds : list string) : result unit :=
  match ds with
  | [] => Ok tt
  | d :: ds' =>
      match fs !! d with
      | Some Directory => check_dirs fs ds'
      | Some _ => Raise NotADirectoryError
      | None => Raise FileNotFoundError
      end
  end.

(** [os.mkdir(path)]: the directories above [path] have to exist and
    [path] itself must not. *)
Definition mkdir (path : string) : IO unit :=
  fun fs =>
    let p := norm path in
    if String.eqb p "" then (Raise FileNotFoundError, fs)
    else if String.eqb p "/" then (Raise FileExistsError, fs)
    else
      match check_dirs fs (ancestors path) with
      | Raise e => (Raise e, fs)
      | Ok _ =>
          match fs !! p with
          | Some _ => (Raise FileExistsError, fs)
          | None => (Ok tt, <[p := Directory]> fs)
          end
      end.

(** One step of [os.makedirs]: the directory [d] is created unless it
    exists; a regular file in its place raises [e]. *)
Definition ensure_dir (e : exn) (d : string) : IO unit :=
  fun fs =>
    match fs !! d with
    | Some Directory => (Ok tt, fs)
    | Some _ => (Raise e, fs)
    | None => (Ok tt, <[d := Directory]> fs)
    end.

(** [os.makedirs(path, exist_ok=True)]: the missing directories above
    [path] are created from the top, then [path]; a regular file above
    [path] raises [NotADirectoryError], one at [path]
    [FileExistsError], the empty path [FileNotFoundError]. *)
Definition makedirs (path : string) : IO unit :=
  fun fs =>
    if String.eqb (norm path) "" then (Raise FileNotFoundError, fs)
    else
      bindIO
        (foldIO (fun _ d => ensure_dir NotADirectoryError d) (ancestors path) tt)
        (fun _ => ensure_dir FileExistsError (norm path)) fs.

(** Writing a regular file at [path]. The program writes into a directory
    it has just created, or read a checkpoint from, or into the output
    directory [main] has made: the check of the directories above [path]
    is left to those steps. *)
Definition write_file (path : string) (f : File) : IO unit :=
  fun fs =>
    match fs !! path with
    | Some Directory => (Raise IsADirectoryError, fs)
    | _ => (Ok tt, <[path := f]> fs)
    end.

(** [torch.save(model, path)] *)
Definition torch_save (m : Model) (path : string) : IO unit :=
  write_file path (ModelFile m).

(** [torch.load(path)] *)
Definition torch_load (path : string) : IO Model :=
  fun fs =>
    match fs !! path with
    | Some (ModelFile m) => (Ok m, fs)
    | Some Directory => (Raise IsADirectoryError, fs)
    | Some (JsonFile _) => (Raise RuntimeError, fs)
    | None => (Raise FileNotFoundError, fs)
    end.

(** [os.remove(path)] *)
Definition remove (path : string) : IO unit :=
  fun fs =>
    match fs !! path with
    | Some Directory => (Raise IsADirectoryError, fs)
    | Some _ => (Ok tt, delete path fs)
    | None => (Raise FileNotFoundError, fs)
    end.

(** [with open(path, "w") as fw: json.dump(j, fw)] *)
Definition json_dump (j : Json) (path : string) : IO unit :=
  write_file path (JsonFile j).

End OS.

Declare Scope io_scope.
Delimit Scope io_scope with io.
Notation "'let*' x ':=' m 'in' k" := (OS.bindIO m (fun x => k))
  (at level 10, x name, m at level 100, k at level 200, only parsing)
  : io_scope.
Notation "'let*' ' pat ':=' m 'in' k" :=
  (OS.bindIO m (fun x => match x with pat => k end))
  (at level 10, pat pattern, m at level 100, k at level 200, only parsing)
  : io_scope.

(** ** Data sets and loaders *)

Module Data.
Import Tensor Modeling.

(** [InputFeatures] of [absa_data_utils]. *)
Record InputFeatures : Type := mkFeatures {
  input_ids : list Z;
  segment_ids : list Z;
  input_mask : list Z;
  label_id : Z
}.

(** [DataLoader(data, sampler=sampler, batch_size=batch_size)]: the sampler
    gives the order, consecutive examples are grouped and the last partial
    batch is kept ([drop_last=False]). *)
Definition DataLoader {A : Type} (batch_size : nat) (order : list A)
  : list (list A) :=
  Py.group batch_size [] order.

(** The constructor rejects a batch size that is not positive. *)
Definition DataLoader_init (batch_size : nat) : result unit :=
  if batch_size =? 0 then Raise ValueError else Ok tt.

(** [SequentialSampler(data)] *)
Definition SequentialSampler {A : Type} (data : list A) : list A := data.

(** [RandomSampler(data)]: the constructor rejects a data set without
    elements ([num_samples] has to be positive). *)
Definition RandomSampler_init {A : Type} (data : list A) : result unit :=
  match data with
  | [] => Raise ValueError
  | _ :: _ => Ok tt
  end.

(** The four tensors of a batch. *)
Definition batch_input_ids (b : list InputFeatures) : Ids := map input_ids b.
Definition batch_segment_ids (b : list InputFeatures) : Ids := map segment_ids b.
Definition batch_input_mask (b : list InputFeatures) : Ids := map input_mask b.
Definition batch_label_ids (b : list InputFeatures) : list Z := map label_id b.

End Data.

(** ** The collaborators of the loops *)

Module Env.
Import Tensor Modeling OS Data.

(** What [run_asc.py] uses of [absa_data_utils], [tokenization],
    [modelconfig], [optimization] and of [torch]'s sampler and autograd. *)
Class Env : Type := {
  Example : Type;
  Tokenizer : Type;
  OptState : Type;
  (** [AscProcessor] *)
  get_labels : list string;
  get_train_examples : string -> result (list Example);
  get_dev_examples : string -> result (list Example);
  get_test_examples : string -> result (list Example);
  (** [ABSATokenizer.from_pretrained(MODEL_ARCHIVE_MAP[name])] and the same
      for [BertTokenizer] *)
  ABSATokenizer_from_pretrained : string -> result Tokenizer;
  BertTokenizer_from_pretrained : string -> result Tokenizer;
  (** [convert_examples_to_features(examples, label_list, max_seq_length,
      tokenizer, "asc")] *)
  convert_examples_to_features :
    list Example -> list string -> nat -> Tokenizer -> list InputFeatures;
  (** [BertForABSA.from_pretrained(MODEL_ARCHIVE_MAP[name], num_labels)] *)
  from_pretrained : string -> nat -> result Model;
  (** the order [RandomSampler] draws in the given epoch (its constructor
      is [Data.RandomSampler_init]) *)
  RandomSampler : nat -> list InputFeatures -> list InputFeatures;
  (** the gradients [loss.backward()] leaves on the parameters *)
  backward : Model -> list InputFeatures -> gmap string PTensor;
  (** [BertAdam]: the check of its arguments, the state of a parameter
      before its first update, and the update of one parameter from the
      group's [lr] and [weight_decay], the optimizer's [warmup] and
      [t_total], the parameter's state, its value and its gradient *)
  BertAdam_init : Q -> Q -> nat -> result unit;
  opt_init : OptState;
  bertadam_update :
    Q -> Q -> Q -> nat -> OptState -> PTensor -> PTensor -> OptState * PTensor
}.

(** [convert_examples_to_features] gives one feature per example and
    [RandomSampler] a reordering of the data. *)
Class EnvOk (E : Env) : Prop := {
  convert_length : forall exs labels n tok,
    length (convert_examples_to_features exs labels n tok) = length exs;
  RandomSampler_perm : forall epoch l, Permutation (RandomSampler epoch l) l
}.

End Env.

(** ** The command line *)

Module Args.

Record t : Type := mk {
  bert_model : string;
  data_dir : string;
  output_dir : string;
  max_seq_length : nat;
  do_train : bool;
  do_valid : bool;
  do_eval : bool;
  train_batch_size : nat;
  eval_batch_size : nat;
  learning_rate : Q;
  num_train_epochs : nat;
  warmup_proportion : Q;
  seed : nat
}.

End Args.

(** ** [def test(args, new_dirs=None, dev_as_test=None)] *)

Module Eval.
Import Tensor Modeling OS Data Env.

Section Eval.
Context {M : Modeling} {E : Env}.

(** The module [model] as the function its parameters define. *)
Definition callable (m : Model) : BertForABSA.t :=
  BertForABSA.init (m_config m) (m_num_labels m) (data <$> m_params m)
    (m_training m).

(** [model.eval()] / [model.train()] *)
Definition set_training (m : Model) (b : bool) : Model :=
  {| m_config := m_config m; m_num_labels := m_num_labels m;
     m_params := m_params m; m_training := b |}.

(** The truth value of [dev_as_test]: [None] is false. *)
Definition truthy (b : option bool) : bool :=
  match b with
  | Some true => true
  | _ => false
  end.

(** Lines 240-251: one batch of the evaluation loop, on the state
    [(full_logits, full_label_ids)]. *)
Definition test_body (model : Model) (st : Matrix * list Z)
    (batch : list InputFeatures) : result (Matrix * list Z) :=
  (let* out := BertForABSA.forward (callable model) (batch_input_ids batch)
                 (Some (batch_segment_ids batch))
                 (Some (batch_input_mask batch)) None in
   match out with
   | BertForABSA.Logits logits =>
       Ok (st.1 ++ logits, st.2 ++ batch_label_ids batch)
   | BertForABSA.Loss _ => Raise TypeError
   end)%res.

(** Lines 238-251: the loop over the loader. *)
Definition test_loop (model : Model) (batches : list (list InputFeatures))
  : result (Matrix * list Z) :=
  foldR (test_body model) batches ([], []).


(** Lines 212-220: the features of the split to evaluate. *)
Definition test_features (args : Args.t) (dev_as_test : option bool)
  : result (list InputFeatures) :=
  (let label_list := get_labels in
   let* tokenizer := BertTokenizer_from_pretrained (Args.bert_model args) in
   let* data_dir :=
     if truthy dev_as_test
     then path_join (Some (Args.data_dir args)) "dev_as_test"
     else Ok (Args.data_dir args) in
   let* eval_examples := get_test_examples data_dir in
   Ok (convert_examples_to_features eval_examples label_list
         (Args.max_seq_length args) tokenizer))%res.

Definition test (args : Args.t) (new_dirs : option string)
    (dev_as_test : option bool) : IO unit :=
  (let* eval_features := lift (test_features args dev_as_test) in
   let eval_sampler := SequentialSampler eval_features in
   let* _ := lift (DataLoader_init (Args.eval_batch_size args)) in
   let eval_dataloader := DataLoader (Args.eval_batch_size args) eval_sampler in
   let* path := lift (path_join new_dirs "model.pt") in
   let* model := torch_load path in
   let model := set_training model false in
   let* full := lift (test_loop model eval_dataloader) in
   let* output_eval_json := lift (path_join new_dirs "predictions.json") in
   json_dump (Predictions full.1 full.2) output_eval_json)%io.

End Eval.
End Eval.

(** ** [def train(args)] *)

Module Train.
Import Tensor Modeling OS Data Env Eval.

Section Train.
Context {M : Modeling} {E : Env}.

(** One entry of [optimizer.param_groups]; the parameters are referred to
    by name, the optimizer updates them in the model. *)
Record ParamGroup : Type := mkGroup {
  params : list string;
  weight_decay : Q;
  lr : Q
}.

Record Optimizer : Type := mkOptimizer {
  param_groups : list ParamGroup;
  warmup : Q;
  t_total : nat;
  state : gmap string OptState
}.

(** [model.named_parameters()]; the order of the names plays no part in
    what follows. *)
Definition named_parameters (m : Model) : list (string * TorchParam) :=
  map_to_list (m_params m).

Definition no_decay : list string :=
  ["bias"; "LayerNorm.bias"; "LayerNorm.weight"].

(** Lines 148-149. *)
Definition param_optimizer (m : Model) : list (string * TorchParam) :=
  let param_optimizer :=
    List.filter (fun kv => requires_grad kv.2) (named_parameters m) in
  List.filter (fun n => negb (Py.str_in "pooler" n.1)) param_optimizer.

(** Lines 151-159: the two groups and [BertAdam(groups, lr, warmup,
    t_total)], which gives each group the learning rate [lr]. *)
Definition make_optimizer (m : Model) (learning_rate warmup : Q) (t_total : nat)
  : Optimizer :=
  let po := param_optimizer m in
  {| param_groups :=
       [ {| params := map fst (List.filter
                                 (fun np => negb (Py.any_in no_decay np.1)) po);
            weight_decay := 1 # 100;
            lr := learning_rate |};
         {| params := map fst (List.filter
                                 (fun np => Py.any_in no_decay np.1) po);
            weight_decay := 0;
            lr := learning_rate |} ];
     warmup := warmup;
     t_total := t_total;
     state := ∅ |}.

(** Lines 173-174: [param_group['lr'] = lr_this_step] for every group. *)
Definition set_lr (o : Optimizer) (lr_this_step : Q) : Optimizer :=
  {| param_groups :=
       map (fun g => {| params := params g; weight_decay := weight_decay g;
                        lr := lr_this_step |}) (param_groups o);
     warmup := warmup o; t_total := t_total o; state := state o |}.

(** [optimizer.step()] on one parameter of a group: a parameter without
    gradient is skipped. *)
Definition step_param (o : Optimizer) (grads : gmap string PTensor)
    (g : ParamGroup)
    (acc : gmap string OptState * gmap string TorchParam) (n : string)
  : gmap string OptState * gmap string TorchParam :=
  match acc.2 !! n, grads !! n with
  | Some p, Some grad =>
      let s := default opt_init (acc.1 !! n) in
      let r := bertadam_update (lr g) (weight_decay g) (warmup o) (t_total o)
                 s (data p) grad in
      (<[n := r.1]> acc.1,
       <[n := {| data := r.2; requires_grad := requires_grad p |}]> acc.2)
  | _, _ => acc
  end.

Definition step_group (o : Optimizer) (grads : gmap string PTensor)
    (acc : gmap string OptState * gmap string TorchParam) (g : ParamGroup)
  : gmap string OptState * gmap string TorchParam :=
  fold_left (step_param o grads g) (params g) acc.

(** [optimizer.step()]: the new optimizer state and the new parameters. *)
Definition optimizer_step (o : Optimizer) (grads : gmap string PTensor)
    (ps : gmap string TorchParam) : Optimizer * gmap string TorchParam :=
  let r := fold_left (step_group o grads) (param_groups o) (state o, ps) in
  ({| param_groups := param_groups o; warmup := warmup o;
      t_total := t_total o; state := r.1 |}, r.2).

(** No parameter of the groups has 'pooler' in its name. *)
Definition excludes_pooler (o : Optimizer) : Prop :=
  forall g, In g (param_groups o) ->
  forall n, In n (params g) -> Py.str_in "pooler" n = false.

(** The model [m] has the configuration of [m0] and, under every name with
    'pooler' in it, the parameter [m0] has. *)
Definition pooler_frozen (m m0 : Model) : Prop :=
  m_config m = m_config m0 /\ m_num_labels m = m_num_labels m0 /\
  forall n, Py.str_in "pooler" n = true -> m_params m !! n = m_params m0 !! n.

(** The local variables of [train] that the loops change; [steps] is a
    ghost log of the optimizer steps taken: for each, the value of
    [global_step], the progress passed to [warmup_linear] and the learning
    rate written to the groups. *)
Record TrainState : Type := mkState {
  model : Model;
  optimizer : Optimizer;
  global_step : nat;
  loss : option Tensor01;
  valid_losses : list Q;
  best_valid_loss : option Q;
  steps : list (nat * Q * Q)
}.

(** [a / b] on Python ints (true division). *)
Definition true_div (a b : nat) : result Q :=
  if b =? 0 then Raise ZeroDivisionError
  else Ok (inject_Z (Z.of_nat a) / inject_Z (Z.of_nat b))%Q.

(** The entry the optimizer step at [global_step = g] leaves in the log. *)
Definition log_entry (args : Args.t) (t_total g : nat) : nat * Q * Q :=
  let progress := (inject_Z (Z.of_nat g) / inject_Z (Z.of_nat t_total))%Q in
  (g, progress,
   (Args.learning_rate args *
    Schedule.warmup_linear progress (Args.warmup_proportion args))%Q).

(** [x / n] for a float [x] and an int [n]. *)
Definition float_div (x : Q) (n : nat) : result Q :=
  if n =? 0 then Raise ZeroDivisionError
  else Ok (x / inject_Z (Z.of_nat n))%Q.

(** [model(input_ids, segment_ids, input_mask, label_ids)] *)
Definition model_loss (m : Model) (batch : list InputFeatures) : result Tensor01 :=
  (let* out := BertForABSA.forward (callable m) (batch_input_ids batch)
                 (Some (batch_segment_ids batch))
                 (Some (batch_input_mask batch))
                 (Some (batch_label_ids batch)) in
   match out with
   | BertForABSA.Loss loss => Ok loss
   | BertForABSA.Logits _ => Raise TypeError
   end)%res.

(** Lines 166-176: one batch of the training loop. [zero_grad()] clears the
    gradients of the optimizer's parameters before [backward()], so the
    gradients the step uses are those of this batch. *)
Definition train_batch (args : Args.t) (st : TrainState)
    (batch : list InputFeatures) : result TrainState :=
  (let* loss := model_loss (model st) batch in
   let* _ := if numel loss =? 1 then Ok tt else Raise RuntimeError in
   let grads := backward (model st) batch in
   let* progress := true_div (global_step st) (t_total (optimizer st)) in
   let lr_this_step :=
     (Args.learning_rate args *
      Schedule.warmup_linear progress (Args.warmup_proportion args))%Q in
   let opt := set_lr (optimizer st) lr_this_step in
   let r := optimizer_step opt grads (m_params (model st)) in
   Ok {| model := {| m_config := m_config (model st);
                     m_num_labels := m_num_labels (model st);
                     m_params := r.2;
                     m_training := m_training (model st) |};
         optimizer := r.1;
         global_step := global_step st + 1;
         loss := Some loss;
         valid_losses := valid_losses st;
         best_valid_loss := best_valid_loss st;
         steps := steps st ++ [(global_step st, progress, lr_this_step)] |})%res.

(** Lines 186-191: one batch of the validation loop, on the state
    [(losses, valid_size, loss)]. *)
Definition valid_body (m : Model) (st : list Q * nat * option Tensor01)
    (batch : list InputFeatures) : result (list Q * nat * option Tensor01) :=
  (let* loss := model_loss m batch in
   let* x := item loss in
   let size := length (batch_input_ids batch) in
   Ok (st.1.1 ++ [(x * inject_Z (Z.of_nat size))%Q], st.1.2 + size, Some loss))%res.

(** Lines 184-192: the validation loss and the last batch loss. *)
Definition validate (m : Model) (batches : list (list InputFeatures))
    (loss : option Tensor01) : result (Q * option Tensor01) :=
  (let* st := foldR (valid_body m) batches ([], 0, loss) in
   let* valid_loss := float_div (py_sum st.1.1) st.1.2 in
   Ok (valid_loss, st.2))%res.

(** [x < best_valid_loss], where [None] is the initial [float('inf')]:
    the losses of the model are numbers, each of them below it. (A loss
    that is not a number would compare false; the rationals have none.) *)
Definition below (x : Q) (best : option Q) : bool :=
  match best with
  | None => true
  | Some b => if Qlt_le_dec x b then true else false
  end.

Definition with_model (st : TrainState) (m : Model) : TrainState :=
  {| model := m; optimizer := optimizer st; global_step := global_step st;
     loss := loss st; valid_losses := valid_losses st;
     best_valid_loss := best_valid_loss st; steps := steps st |}.

(** Lines 181-203: the validation block at the end of an epoch. *)
Definition valid_block (args : Args.t) (valid : list InputFeatures)
    (new_dirs : string) (epoch : nat) (st : TrainState) : IO TrainState :=
  (let st := with_model st (set_training (model st) false) in
   let valid_dataloader :=
     DataLoader (Args.train_batch_size args) (SequentialSampler valid) in
   let* r := lift (validate (model st) valid_dataloader (loss st)) in
   let valid_loss := r.1 in
   let valid_losses := valid_losses st ++ [valid_loss] in
   let* p := lift (path_join (Some new_dirs) "model.pt") in
   let* _ := torch_save (model st) p in
   let* _ := test args (Some new_dirs) (Some true) in
   let* _ :=
     if epoch =? Args.num_train_epochs args - 1
     then
       let* p := lift (path_join (Some (Args.output_dir args)) "model.pt") in
       let* _ := torch_save (model st) p in
       test args (Some (Args.output_dir args)) (Some false)
     else retIO tt in
   let* p := lift (path_join (Some new_dirs) "model.pt") in
   let* _ := remove p in
   let best :=
     if below valid_loss (best_valid_loss st)
     then Some valid_loss else best_valid_loss st in
   retIO {| model := set_training (model st) true;
            optimizer := optimizer st;
            global_step := global_step st;
            loss := r.2;
            valid_losses := valid_losses;
            best_valid_loss := best;
            steps := steps st |})%io.

(** Lines 165-203: one epoch. *)
Definition train_epoch (args : Args.t) (train_features : list InputFeatures)
    (valid : option (list InputFeatures)) (st : TrainState) (epoch : nat)
  : IO TrainState :=
  (let train_dataloader :=
     DataLoader (Args.train_batch_size args) (RandomSampler epoch train_features) in
   let* st := lift (foldR (train_batch args) train_dataloader st) in
   let* _ := lift (match loss st with
                   | Some l => item l
                   | None => Raise UnboundLocalError
                   end) in
   let* new_dirs :=
     lift (path_join (Some (Args.output_dir args)) (pretty (epoch + 1))) in
   let* _ := mkdir new_dirs in
   match valid with
   | Some v => valid_block args v new_dirs epoch st
   | None => retIO st
   end)%io.

(** [int(len(train_examples) / args.train_batch_size) * args.num_train_epochs] *)
Definition num_train_steps (n_examples batch_size epochs : nat) : result nat :=
  if batch_size =? 0 then Raise ZeroDivisionError
  else Ok (n_examples / batch_size * epochs).

(** [train(args)]; the final value of the local variables is returned for
    the statements about them (the Python function returns [None]). *)
Definition train (args : Args.t) : IO TrainState :=
  (let label_list := get_labels in
   let* tokenizer := lift (ABSATokenizer_from_pretrained (Args.bert_model args)) in
   let* train_examples := lift (get_train_examples (Args.data_dir args)) in
   let* n_steps :=
     lift (num_train_steps (length train_examples) (Args.train_batch_size args)
             (Args.num_train_epochs args)) in
   let train_features :=
     convert_examples_to_features train_examples label_list
       (Args.max_seq_length args) tokenizer in
   let* _ := lift (RandomSampler_init train_features) in
   let* _ := lift (DataLoader_init (Args.train_batch_size args)) in
   let* valid :=
     if Args.do_valid args
     then
       let* valid_examples := lift (get_dev_examples (Args.data_dir args)) in
       retIO (Some (convert_examples_to_features valid_examples label_list
                      (Args.max_seq_length args) tokenizer))
     else retIO None in
   let* model0 := lift (from_pretrained (Args.bert_model args) (length label_list)) in
   let t_total := n_steps in
   let* _ := lift (BertAdam_init (Args.learning_rate args)
                     (Args.warmup_proportion args) t_total) in
   let optimizer0 :=
     make_optimizer model0 (Args.learning_rate args)
       (Args.warmup_proportion args) t_total in
   let st0 := {| model := set_training model0 true;
                 optimizer := optimizer0;
                 global_step := 0;
                 loss := None;
                 valid_losses := [];
                 best_valid_loss := None;
                 steps := [] |} in
   let* st := foldIO (train_epoch args train_features valid)
                (seq 0 (Args.num_train_epochs args)) st0 in
   let* _ :=
     if Args.do_valid args
     then
       let* p := lift (path_join (Some (Args.output_dir args)) "valid.json") in
       json_dump (ValidLosses (valid_losses st)) p
     else
       let* p := lift (path_join (Some (Args.output_dir args)) "model.pt") in
       torch_save (model st) p in
   retIO st)%io.

End Train.
End Train.

(** ** [def main()] *)

Module Main.
Import OS Env Eval Train.

Section Main.
Context {M : Modeling.Modeling} {E : Env}.

(** [main()] after the arguments are parsed. *)
Definition main (args : Args.t) : IO unit :=
  (let* _ := makedirs (Args.output_dir args) in
   let* _ := if Args.do_train args
             then let* _ := train args in retIO tt
             else retIO tt in
   if Args.do_eval args then test args None None else retIO tt)%io.

End Main.
End Main.

(** ** The words of the specification *)

Module Spec.
Import Tensor.

(** The sum of [f 0], ..., [f (n - 1)]. *)
Fixpoint sum_upto (f : nat -> Q) (n : nat) : Q :=
  match n with
  | 0 => 0%Q
  | S n' => (sum_upto f n' + f n')%Q
  end.

(** The entry of a matrix in row [b] and column [c]. *)
Definition entry (m : Matrix) (b c : nat) : Q := nth c (nth b m []) 0%Q.

(** Size-weighted average: each batch's loss times its size, summed, over
    the total number of examples; a batch is given as [(loss, size)]. *)
Definition weighted_sum (l : list (Q * nat)) : Q :=
  fold_right (fun b acc => (b.1 * inject_Z (Z.of_nat b.2) + acc)%Q) 0%Q l.

Definition total_size (l : list (Q * nat)) : nat :=
  fold_right (fun b acc => b.2 + acc) 0 l.

Definition weighted_average (l : list (Q * nat)) : Q :=
  (weighted_sum l / inject_Z (Z.of_nat (total_size l)))%Q.

(** The batches of a validation pass as this average sees them: the loss
    [f b] of a batch and its size. *)
Definition sized {A : Type} (f : list A -> Q) (batches : list (list A))
  : list (Q * nat) :=
  map (fun b => (f b, length b)) batches.

(** The plain average of the batch losses. *)
Definition naive_average (l : list (Q * nat)) : Q :=
  (fold_right (fun b acc => (b.1 + acc)%Q) 0%Q l
   / inject_Z (Z.of_nat (length l)))%Q.


(** The number of batches a loader that keeps the last partial batch draws
    from [n] examples. *)
Definition n_batches (n bs : nat) : nat := (n + bs - 1) / bs.

End Spec.

(** ** The branches of the head, in the words of the specification *)

Module HeadSpec.
Import Tensor Modeling.

Section HeadSpec.
Context {M : Modeling}.
Variables (config : Config) (num_labels : nat) (sd : gmap string PTensor)
  (training : bool) (layers : list Hidden) (attention_mask : Mask).

(** The hidden state at depth [-i-1] from the end of the layer stack. *)
Definition selected (i : nat) : Hidden :=
  nth (length layers - (i + 1)) layers [].

(** ... refined by the sub-layer of branch [i] alone, *)
Definition refined (i : nat) : Hidden :=
  BertLayer config (sub (pretty i) (sub "pre_layers" sd)) training
    (selected i) attention_mask.

(** ... then pooled and classified by the shared pooler and classifier. *)
Definition shared_pooler : Hidden -> Matrix :=
  BertPooler config (sub "pooler" sd).

Definition shared_classifier : Linear :=
  nn_Linear (hidden_size config) num_labels (sub "classifier" sd).

Definition logits_of_branch (i : nat) : Matrix :=
  map (affine (weight shared_classifier) (bias shared_classifier))
    (shared_pooler (refined i)).

(** The cross-entropy loss of branch [i], ignoring the label id -1. *)
Definition loss_of_branch (labels : list Z) (i : nat) : result Q :=
  CrossEntropyLoss (-1) (logits_of_branch i) labels.

End HeadSpec.
End HeadSpec.

(** ** A small concrete instance *)

Module Toy.
Import Tensor Modeling OS Data Env Eval Train.

(** Each token id becomes a constant vector; a layer is the identity; the
    pooler takes the first token of each example. *)
Definition embed (c : Config) (ids : Ids) : Hidden :=
  map (map (fun tok => repeat (inject_Z tok) (hidden_size c))) ids.

Definition resize (n : nat) (v : Vector) : Vector :=
  firstn n (v ++ repeat 0%Q n).

Definition modeling : Modeling :=
  {| Mask := unit;
     BertLayer := fun _ _ _ h _ => h;
     BertPooler := fun c _ h => map (fun m => resize (hidden_size c) (hd [] m)) h;
     BertModel := fun c _ _ ids _ _ =>
                    (repeat (embed c ids) (num_hidden_layers c), [], tt);
     CrossEntropyLoss := fun _ logits labels =>
                           Ok (Qred (py_sum (map (fun r => (hd 0 r * hd 0 r)%Q) logits))) |}.

Definition feature (tok label : Z) : InputFeatures :=
  {| input_ids := [tok; 0%Z]; segment_ids := [0%Z; 0%Z];
     input_mask := [1%Z; 0%Z]; label_id := label |}.

Definition config : Config := {| hidden_size := 2; num_hidden_layers := 4 |}.

Definition par (t : PTensor) : TorchParam :=
  {| data := t; requires_grad := true |}.

Definition pretrained : Model :=
  {| m_config := config;
     m_num_labels := 3;
     m_params :=
       list_to_map
         [ ("bert.pooler.dense.bias", par (P1 [1; 1]%Q));
           ("groie.pooler.dense.bias", par (P1 [2; 2]%Q));
           ("groie.classifier.weight", par (P2 [[1; 0]; [0; 1]; [1; 1]]%Q));
           ("groie.classifier.bias", par (P1 [0; 1; 2]%Q)) ];
     m_training := false |}.

Definition tmap (f : Q -> Q -> Q) (p g : PTensor) : PTensor :=
  match p, g with
  | P1 u, P1 v => P1 (map (fun xy => f xy.1 xy.2) (combine u v))
  | P2 a, P2 b =>
      P2 (map (fun uv => map (fun xy => f xy.1 xy.2) (combine uv.1 uv.2))
            (combine a b))
  | _, _ => p
  end.

(** Plain gradient descent stands for the update of [BertAdam]; the
    gradient of a parameter is taken to be its value. *)
Definition env (train dev test : list InputFeatures) : Env :=
  {| Example := InputFeatures;
     Tokenizer := unit;
     OptState := unit;
     get_labels := ["positive"; "negative"; "neutral"];
     get_train_examples := fun _ => Ok train;
     get_dev_examples := fun _ => Ok dev;
     get_test_examples := fun _ => Ok test;
     ABSATokenizer_from_pretrained := fun _ => Ok tt;
     BertTokenizer_from_pretrained := fun _ => Ok tt;
     convert_examples_to_features := fun exs _ _ _ => exs;
     from_pretrained := fun _ _ => Ok pretrained;
     RandomSampler := fun _ l => rev l;
     backward := fun m _ => data <$> m_params m;
     BertAdam_init := fun _ _ _ => Ok tt;
     opt_init := tt;
     bertadam_update := fun lr _ _ _ s p g =>
                          (s, tmap (fun x y => Qred (x - lr * y)) p g) |}.

Definition args (n_epochs batch_size : nat) (valid eval : bool) : Args.t :=
  {| Args.bert_model := "bert-base";
     Args.data_dir := "data";
     Args.output_dir := "out";
     Args.max_seq_length := 2;
     Args.do_train := true;
     Args.do_valid := valid;
     Args.do_eval := eval;
     Args.train_batch_size := batch_size;
     Args.eval_batch_size := 8;
     Args.learning_rate := 3 # 100000;
     Args.num_train_epochs := n_epochs;
     Args.warmup_proportion := 1 # 10;
     Args.seed := 0 |}.

Definition five : list InputFeatures :=
  [feature 1 0; feature 2 1; feature 3 2; feature 4 0; feature 5 1].

(** An entry of the log of optimizer steps: the value of [global_step],
    the progress and the learning rate. *)
Definition logged (g : nat) (progress x : Q) : nat * Q * Q := (g, progress, x).

(** Evaluation alone, in batches of two, and a checkpoint to evaluate. *)
Definition eval_args : Args.t :=
  {| Args.bert_model := "bert-base";
     Args.data_dir := "data";
     Args.output_dir := "out";
     Args.max_seq_length := 2;
     Args.do_train := false;
     Args.do_valid := false;
     Args.do_eval := true;
     Args.train_batch_size := 2;
     Args.eval_batch_size := 2;
     Args.learning_rate := 3 # 100000;
     Args.num_train_epochs := 1;
     Args.warmup_proportion := 1 # 10;
     Args.seed := 0 |}.

(** The files when [main] calls [train]: the output directory is there. *)
Definition fs_out : FS := {[ "out" := Directory ]}.


(** The same modules with a loss that is a quarter of the first label, so
    that the loss of the model, the sum over its four branches, is the
    first label of the batch. *)
Definition modeling_first_label : Modeling :=
  {| Mask := unit;
     BertLayer := fun _ _ _ h _ => h;
     BertPooler := fun c _ h => map (fun m => resize (hidden_size c) (hd [] m)) h;
     BertModel := fun c _ _ ids _ _ =>
                    (repeat (embed c ids) (num_hidden_layers c), [], tt);
     CrossEntropyLoss := fun _ _ labels => Ok (inject_Z (hd 0%Z labels) / 4)%Q |}.

Definition batch_three : list InputFeatures :=
  [feature 1 2; feature 2 0; feature 3 1].

Definition batch_one : list InputFeatures := [feature 4 5].

(** The loss the validation loop reads off the model on a batch, 0 where
    the model raises. *)
Definition loss_on (M : Modeling) (m : Model) (b : list InputFeatures) : Q :=
  match bindR (model_loss (M := M) m b) item with
  | Ok q => q
  | Raise _ => 0%Q
  end.

(** A batch of two examples and its layer stack; the state dict of the
    head. *)
Definition two_ids : Ids := [[1%Z; 0%Z]; [2%Z; 0%Z]].

Definition two_layers : list Hidden := repeat (embed config two_ids) 4.

Definition head_sd : gmap string PTensor :=
  sub "groie" (data <$> m_params pretrained).

Definition two_labels : list Z := [0%Z; 2%Z].

(** The loss of branch [i] on the batch, 0 where it is not defined. *)
Definition two_losses (i : nat) : Q :=
  match HeadSpec.loss_of_branch (M := modeling) config 3 head_sd false
          two_layers tt two_labels i with
  | Ok q => q
  | Raise _ => 0%Q
  end.

(** Four examples: two full batches of two. *)
Definition four : list InputFeatures :=
  [feature 1 0; feature 2 1; feature 3 2; feature 4 0].


(** An encoder of three layers, one fewer than the head reads. *)
Definition shallow : Config :=
  {| hidden_size := hidden_size config; num_hidden_layers := 3 |}.
End Toy.

(** ** Notions used by the further properties *)

Module TrainSpec.
Import Tensor Modeling OS Data Env Eval Train.

(** The parameter [n] of [m] is one the optimizer gets: it requires a
    gradient and its name has no 'pooler' in it. *)
Definition trainable (m : Model) (n : string) : Prop :=
  exists p : TorchParam,
    m_params m !! n = Some p /\ requires_grad p = true /\
    Py.str_in "pooler" n = false.

(** [b] is one of the losses [l] and none of them is smaller. *)
Definition least (b : Q) (l : list Q) : Prop :=
  In b l /\ forall v, In v l -> ~ (v < b)%Q.

(** Every directory of [fs] is a directory of [fs']. *)
Definition directories_kept (fs fs' : FS) : Prop :=
  forall p : string, fs !! p = Some Directory -> fs' !! p = Some Directory.

(** The computation [m], whether it returns or raises, removes or replaces
    no directory. *)
Definition keeps_directories {A : Type} (m : IO A) : Prop :=
  forall (fs : FS) (r : result A) (fs' : FS),
    m fs = (r, fs') -> directories_kept fs fs'.

End TrainSpec.

(** * Part II: properties *)

(** ** Loops in the [result] monad *)

Section FoldFacts.
Context {A S : Type}.

Lemma bindR_Ok_inv {B C : Type} (m : result B) (f : B -> result C) (c : C) :
  bindR m f = Ok c -> exists b, m = Ok b /\ f b = Ok c.
Proof.
  destruct m as [b | e]; simpl; intros H; [eauto | discriminate].
Qed.

Lemma foldR_app (body : S -> A -> result S) (l1 l2 : list A) (s : S) :
  foldR body (l1 ++ l2) s = bindR (foldR body l1 s) (foldR body l2).
Proof.
  revert s. induction l1 as [| x l1 IH]; intros s; simpl; [reflexivity |].
  destruct (body s x) as [s' | e]; simpl; [apply IH | reflexivity].
Qed.

(** An invariant of the loop body holds after the loop. *)
Lemma foldR_invariant (P : S -> Prop) (body : S -> A -> result S)
    (l : list A) (s s' : S) :
  (forall s x s', P s -> body s x = Ok s' -> P s') ->
  P s -> foldR body l s = Ok s' -> P s'.
Proof.
  intros Hbody. revert s. induction l as [| x l IH]; intros s Hs; simpl.
  - intros [= <-]. exact Hs.
  - intros H. apply bindR_Ok_inv in H as (s1 & H1 & H2). eauto.
Qed.

End FoldFacts.

(** ** Grouping *)

Module PyFacts.
Import Py.

Section Group.
Context {A : Type}.
Implicit Types (l cur : list A) (n k i : nat).

Lemma group_acc n cur l :
  length cur < n ->
  group n cur l =
    match cur ++ l with
    | [] => []
    | _ => take n (cur ++ l) :: group n [] (drop n (cur ++ l))
    end.
Proof.
  revert cur. induction l as [| x l IH]; intros cur Hlen; simpl.
  - rewrite app_nil_r. destruct cur as [| y cur]; [reflexivity |].
    rewrite take_ge, drop_ge by lia. reflexivity.
  - destruct (length (cur ++ [x]) =? n) eqn:Heq.
    + apply Nat.eqb_eq in Heq.
      replace (cur ++ x :: l) with ((cur ++ [x]) ++ l)
        by (rewrite <- app_assoc; reflexivity).
      rewrite take_app_length', drop_app_length' by (symmetry; exact Heq).
      destruct ((cur ++ [x]) ++ l) eqn:Hnil; [| reflexivity].
      destruct cur; discriminate.
    + apply Nat.eqb_neq in Heq. rewrite length_app in Heq. simpl in Heq.
      rewrite IH by (rewrite length_app; simpl; lia).
      rewrite <- app_assoc. reflexivity.
Qed.

Lemma group_unfold n l :
  0 < n -> l <> [] -> group n [] l = take n l :: group n [] (drop n l).
Proof.
  intros Hn Hl. rewrite group_acc by (simpl; lia). simpl.
  destruct l; [congruence | reflexivity].
Qed.

Lemma group_nil n : group n [] (@nil A) = [].
Proof. reflexivity. Qed.


Lemma group_length n l :
  0 < n -> length (group n [] l) = (length l + n - 1) / n.
Proof.
  intros Hn. remember (length l) as m eqn:Hm. revert l Hm.
  induction m as [m IH] using lt_wf_ind. intros l Hm.
  destruct l as [| x l].
  - simpl in *. subst m. rewrite Nat.div_small by lia. reflexivity.
  - rewrite group_unfold by (congruence || lia). simpl length at 1.
    rewrite (IH (length (drop n (x :: l)))); [| rewrite length_drop; simpl in *; lia | reflexivity].
    rewrite length_drop. destruct (le_lt_dec n m) as [Hle | Hlt].
    + replace (m + n - 1) with ((m - n + n - 1) + 1 * n) by lia.
      rewrite Nat.div_add by lia. subst m. lia.
    + subst m. replace (length (x :: l) - n) with 0 by lia.
      rewrite (Nat.div_small (0 + n - 1)) by lia.
      replace (length (x :: l) + n - 1) with ((length (x :: l) - 1) + 1 * n)
        by (simpl; lia).
      rewrite Nat.div_add by lia. rewrite Nat.div_small by lia. reflexivity.
Qed.

(** The [k]-th group holds the elements [k * n], ..., [k * n + n - 1]. *)
Lemma group_lookup n l k :
  0 < n -> k * n < length l ->
  group n [] l !! k = Some (take n (drop (k * n) l)).
Proof.
  intros Hn. revert l. induction k as [| k IH]; intros l Hk.
  - rewrite group_unfold by (lia || (destruct l; simpl in *; [lia | congruence])).
    reflexivity.
  - rewrite group_unfold by (lia || (destruct l; simpl in *; [lia | congruence])).
    simpl. rewrite IH by (rewrite length_drop; simpl in Hk; lia).
    rewrite drop_drop. first [reflexivity | do 3 f_equal; lia].
Qed.

(** No group is empty and none has more than [n] elements. *)
Lemma group_sizes n l :
  0 < n -> Forall (fun b => 0 < length b <= n) (group n [] l).
Proof.
  intros Hn. remember (length l) as m eqn:Hm. revert l Hm.
  induction m as [m IH] using lt_wf_ind. intros l Hm.
  destruct l as [| x l]; [constructor |].
  rewrite group_unfold by (congruence || lia). constructor.
  - rewrite length_take. simpl. lia.
  - apply (IH (length (drop n (x :: l)))); [| reflexivity].
    rewrite length_drop. simpl in *. lia.
Qed.

End Group.



End PyFacts.

(** ** The schedule *)

Module ScheduleFacts.
Import Schedule.
Local Open Scope Q_scope.

Lemma warmup_linear_decay (x w : Q) : w <= x -> warmup_linear x w == 1 - x.
Proof.
  intros Hx. unfold warmup_linear.
  destruct (Qlt_le_dec x w) as [Hlt | Hle]; [lra | reflexivity].
Qed.

Lemma warmup_linear_ramp (x w : Q) : x < w -> warmup_linear x w == x / w.
Proof.
  intros Hx. unfold warmup_linear.
  destruct (Qlt_le_dec x w) as [Hlt | Hle]; [reflexivity | lra].
Qed.

Lemma Qabs_lt_inv (a b : Q) : Qabs a < b -> - b < a /\ a < b.
Proof.
  intros H. split.
  - destruct (Qlt_le_dec (- b) a) as [|Hle]; [assumption|].
    exfalso. pose proof (Qabs_opp a) as Ho. pose proof (Qle_Qabs (- a)) as Hl.
    rewrite Ho in Hl. lra.
  - pose proof (Qle_Qabs a). lra.
Qed.

(** Just below the end of the warmup the multiplier is close to 1, at the
    end it is [1 - w]: a jump of height [w]. *)
Lemma warmup_linear_jump (w : Q) :
  0 < w -> w < 1 -> ~ continuous_at (fun x => warmup_linear x w) w.
Proof.
  intros H0 H1 Hc.
  destruct (Hc ((1 # 2) * w)) as (delta & Hd & Hclose); [lra|].
  assert (Hww : 0 < w * w) by (apply Qmult_lt_0_compat; assumption).
  set (m := if Qlt_le_dec ((1 # 2) * delta) ((1 # 2) * (w * w))
            then (1 # 2) * delta else (1 # 2) * (w * w)).
  assert (Hm : 0 < m /\ m < delta /\ m <= (1 # 2) * (w * w)).
  { unfold m. destruct (Qlt_le_dec _ _); repeat split; lra. }
  destruct Hm as (Hm0 & Hmd & Hmw).
  specialize (Hclose (w - m)).
  assert (Hin : Qabs (w - m - w) < delta).
  { assert (E : w - m - w == - m) by ring.
    rewrite E, Qabs_opp, Qabs_pos; lra. }
  apply Hclose in Hin. apply Qabs_lt_inv in Hin. destruct Hin as [_ Hup].
  rewrite (warmup_linear_ramp (w - m) w) in Hup by lra.
  rewrite (warmup_linear_decay w w) in Hup by lra.
  assert (Hdiv : (w - m) / w == 1 - m / w) by (field; lra).
  rewrite Hdiv in Hup.
  assert (Hq : m / w <= (1 # 2) * w).
  { apply Qle_shift_div_r; [assumption|]. lra. }
  lra.
Qed.

Lemma warmup_linear_decreasing (w x y : Q) :
  w <= x -> x < y -> warmup_linear y w < warmup_linear x w.
Proof.
  intros Hx Hxy.
  rewrite (warmup_linear_decay x w), (warmup_linear_decay y w) by lra. lra.
Qed.

(** C1, as the code has it: on the decay phase [w <= x <= 1] the multiplier
    is [1 - x], strictly decreasing, and 0 at 1. At [x = w] the expression
    of the warmup branch is worth 1, but the function takes the decay
    branch there, whose value is [1 - w < 1]: the multiplier is not
    continuous at [w]. *)
Theorem warmup_linear_decay_phase (w x : Q) :
  0 < w -> w < 1 -> w <= x -> x <= 1 ->
  warmup_linear x w == 1 - x /\
  (forall y : Q, x < y -> y <= 1 -> warmup_linear y w < warmup_linear x w) /\
  warmup_linear 1 w == 0 /\
  warmup_branch w w == 1 /\
  warmup_linear w w == decay_branch w /\
  decay_branch w == 1 - w /\
  decay_branch w < 1 /\
  ~ continuous_at (fun p => warmup_linear p w) w.
Proof.
  intros H0 H1 Hwx Hx1. split_and!.
  - apply warmup_linear_decay, Hwx.
  - intros y Hxy _. apply warmup_linear_decreasing; assumption.
  - rewrite warmup_linear_decay by lra. ring.
  - unfold warmup_branch. field. lra.
  - unfold decay_branch. apply warmup_linear_decay. lra.
  - unfold decay_branch. reflexivity.
  - unfold decay_branch. lra.
  - apply warmup_linear_jump; assumption.
Qed.

Lemma warmup_linear_decay_phase_witness :
  warmup_linear (1 # 2) (1 # 10) == 1 - (1 # 2) /\
  ~ continuous_at (fun p => warmup_linear p (1 # 10)) (1 # 10).
Proof.
  pose proof (warmup_linear_decay_phase (1 # 10) (1 # 2)) as H.
  destruct H as (Hv & _ & _ & _ & _ & _ & _ & Hc); [lra | lra | lra | lra |].
  split; [exact Hv | exact Hc].
Defined.

(** C1 as stated fails: with a warmup fraction of 1/2 the decay branch is
    worth 1/2 at the end of the warmup, not 1, and the multiplier is not
    continuous there. *)
Lemma warmup_linear_not_continuous_at_half :
  0 < (1 # 2) /\ (1 # 2) < 1 /\
  ~ decay_branch (1 # 2) == 1 /\
  ~ warmup_linear (1 # 2) (1 # 2) == 1 /\
  ~ continuous_at (fun p => warmup_linear p (1 # 2)) (1 # 2).
Proof.
  split_and!; try reflexivity.
  - intros H. vm_compute in H. discriminate.
  - intros H. vm_compute in H. discriminate.
  - apply warmup_linear_jump; lra.
Qed.

End ScheduleFacts.

(** ** Tensors *)

Module TensorFacts.
Import Tensor Modeling Spec.

Lemma py_sum_snoc (l : list Q) (x : Q) : py_sum (l ++ [x]) = (py_sum l + x)%Q.
Proof. unfold py_sum. rewrite fold_left_app. reflexivity. Qed.

(** Python's [sum] of [f 0, ..., f (n - 1)]. *)
Lemma py_sum_seq (f : nat -> Q) (n : nat) :
  (py_sum (map f (seq 0 n)) == sum_upto f n)%Q.
Proof.
  induction n as [| n IH]; [reflexivity |].
  rewrite seq_S, map_app. change (map f [0 + n]) with [f n].
  rewrite py_sum_snoc. simpl. rewrite IH. reflexivity.
Qed.

Lemma affine_length (w : Matrix) (b x : Vector) :
  length (affine w b x) = Nat.min (length w) (length b).
Proof.
  revert b. induction w as [| wi w IH]; intros [| bi b]; simpl; auto.
Qed.

Lemma linear_ok (L : Linear) (x : Matrix) :
  Forall (fun r : Vector => length r = in_features L) x ->
  linear L x = Ok (map (affine (weight L) (bias L)) x).
Proof.
  induction 1 as [| r x Hr _ IH]; simpl; [reflexivity |].
  rewrite Hr, Nat.eqb_refl, IH. reflexivity.
Qed.

Lemma linear_Ok_inv (L : Linear) (x y : Matrix) :
  linear L x = Ok y -> y = map (affine (weight L) (bias L)) x.
Proof.
  revert y. induction x as [| r x IH]; simpl; intros y H.
  - congruence.
  - destruct (length r =? in_features L); [| discriminate].
    apply bindR_Ok_inv in H as (ys & Hys & [= <-]).
    rewrite (IH ys Hys). reflexivity.
Qed.

Lemma zeros_shape (rows cols : nat) : shape (zeros rows cols) = repeat cols rows.
Proof.
  unfold shape, zeros. induction rows as [| rows IH]; simpl; [reflexivity |].
  rewrite repeat_length, IH. reflexivity.
Qed.

Lemma nn_Linear_wf (n_in n_out : nat) (sd : gmap string PTensor) :
  Linear_wf (nn_Linear n_in n_out sd).
Proof.
  unfold Linear_wf, nn_Linear. simpl. split.
  - destruct (sd !! "weight") as [[v | m] |];
      try (unfold zeros; apply repeat_length).
    destruct (has_shape n_out n_in m) eqn:Hs;
      [| unfold zeros; apply repeat_length].
    unfold has_shape in Hs. apply andb_prop in Hs as [Hs _].
    apply Nat.eqb_eq, Hs.
  - destruct (sd !! "bias") as [[v | m] |]; try apply repeat_length.
    destruct (length v =? n_out) eqn:Hs; [| apply repeat_length].
    apply Nat.eqb_eq, Hs.
Qed.

(** The output of a linear layer has one row per input row, each with
    [out_features] entries. *)
Lemma shape_affine (L : Linear) (x : Matrix) :
  Linear_wf L ->
  shape (map (affine (weight L) (bias L)) x) = repeat (out_features L) (length x).
Proof.
  intros [Hw Hb]. unfold shape. induction x as [| r x IH]; simpl; [reflexivity |].
  rewrite affine_length, Hw, Hb, Nat.min_id, IH. reflexivity.
Qed.

Lemma shape_rows (m : Matrix) (B C : nat) :
  shape m = repeat C B ->
  length m = B /\ Forall (fun r : Vector => length r = C) m.
Proof.
  unfold shape. revert B. induction m as [| r m IH]; intros [| B]; simpl;
    try discriminate.
  - auto.
  - intros [= Hr Hm]. destruct (IH B Hm) as [-> HF]. auto.
Qed.

Lemma nth_row_length (m : Matrix) (B C b : nat) :
  shape m = repeat C B -> b < B -> length (nth b m []) = C.
Proof.
  intros Hs Hb. apply shape_rows in Hs as [Hlen HF].
  rewrite List.Forall_forall in HF. apply HF, nth_In. lia.
Qed.

Lemma vadd_length (u v : Vector) :
  length (vadd u v) = Nat.min (length u) (length v).
Proof.
  revert v. induction u as [| x u IH]; intros [| y v]; simpl; auto.
Qed.

Lemma nth_vadd (u v : Vector) (c : nat) :
  c < length u -> c < length v ->
  nth c (vadd u v) 0%Q = (nth c u 0 + nth c v 0)%Q.
Proof.
  revert u v. induction c as [| c IH]; intros [| x u] [| y v]; simpl;
    try lia; auto with arith.
Qed.

Lemma nth_madd (a b : Matrix) (r : nat) :
  r < length a -> r < length b ->
  nth r (madd a b) [] = vadd (nth r a []) (nth r b []).
Proof.
  revert a b. induction r as [| r IH]; intros [| u a] [| v b]; simpl;
    try lia; auto with arith.
Qed.

Lemma shape_madd (a b : Matrix) : shape a = shape b -> shape (madd a b) = shape a.
Proof.
  unfold shape. revert b. induction a as [| u a IH]; intros [| v b]; simpl;
    try discriminate; [reflexivity |].
  intros [= Hu Hab]. rewrite vadd_length, <- Hu, Nat.min_id, (IH b Hab).
  reflexivity.
Qed.

Lemma entry_madd (a b : Matrix) (B C r c : nat) :
  shape a = repeat C B -> shape b = repeat C B -> r < B -> c < C ->
  entry (madd a b) r c = (entry a r c + entry b r c)%Q.
Proof.
  intros Ha Hb Hr Hc. unfold entry.
  pose proof (nth_row_length a B C r Ha Hr).
  pose proof (nth_row_length b B C r Hb Hr).
  apply shape_rows in Ha as [Hla _]. apply shape_rows in Hb as [Hlb _].
  rewrite nth_madd by lia. apply nth_vadd; lia.
Qed.

Lemma sum_dim0_snoc (ms : list Matrix) (m : Matrix) :
  ms <> [] -> sum_dim0 (ms ++ [m]) = madd (sum_dim0 ms) m.
Proof.
  destruct ms as [| m0 ms]; [congruence |]. intros _. simpl.
  rewrite fold_left_app. reflexivity.
Qed.

(** The sum over the stacking dimension of [K >= 1] matrices of one shape
    has that shape, and its entries are the sums of the entries. *)
Lemma sum_dim0_seq (lg : nat -> Matrix) (B C K : nat) :
  (forall i, i < S K -> shape (lg i) = repeat C B) ->
  shape (sum_dim0 (map lg (seq 0 (S K)))) = repeat C B /\
  forall r c, r < B -> c < C ->
    (entry (sum_dim0 (map lg (seq 0 (S K)))) r c
     == sum_upto (fun i => entry (lg i) r c) (S K))%Q.
Proof.
  induction K as [| K IH]; intros Hs.
  - simpl. split; [apply Hs; lia |]. intros r c _ _. ring.
  - destruct IH as [IHs IHe]; [intros i Hi; apply Hs; lia |].
    rewrite seq_S, map_app. change (map lg [0 + S K]) with [lg (S K)].
    rewrite sum_dim0_snoc by discriminate.
    split.
    + rewrite shape_madd; [exact IHs |]. rewrite IHs, Hs by lia. reflexivity.
    + intros r c Hr Hc.
      rewrite (entry_madd _ _ B C) by (auto; apply Hs; lia).
      rewrite IHe by assumption. reflexivity.
Qed.

Lemma shape_mdiv (m : Matrix) (k : nat) : shape (mdiv m k) = shape m.
Proof.
  unfold shape, mdiv. rewrite map_map. apply map_ext. intros r.
  apply length_map.
Qed.

Lemma nth_map_lt {X Y : Type} (f : X -> Y) (l : list X) (i : nat) (d : X) (d' : Y) :
  i < length l -> nth i (map f l) d' = f (nth i l d).
Proof.
  revert i. induction l as [| x l IH]; intros [| i]; simpl; try lia; auto with arith.
Qed.

Lemma entry_mdiv (m : Matrix) (k B C r c : nat) :
  shape m = repeat C B -> r < B -> c < C ->
  entry (mdiv m k) r c = (entry m r c / inject_Z (Z.of_nat k))%Q.
Proof.
  intros Hs Hr Hc. unfold entry, mdiv.
  pose proof (nth_row_length m B C r Hs Hr) as Hrow.
  apply shape_rows in Hs as [Hl _].
  rewrite (nth_map_lt _ m r []) by lia.
  apply (nth_map_lt (fun x => (x / inject_Z (Z.of_nat k))%Q)). lia.
Qed.

(** Stacking succeeds on a non-empty list of matrices of one shape. *)
Lemma stack_seq (lg : nat -> Matrix) (s : list nat) (K : nat) :
  (forall i, i < S K -> shape (lg i) = s) ->
  stack (map lg (seq 0 (S K))) = Ok (map lg (seq 0 (S K))).
Proof.
  intros Hs.
  assert (H : forallb (same_shape (lg 0)) (map lg (seq 1 K)) = true).
  { apply forallb_forall. intros m Hm.
    apply in_map_iff in Hm as (i & <- & Hi). apply in_seq in Hi.
    unfold same_shape. apply bool_decide_eq_true.
    rewrite !Hs by lia. reflexivity. }
  unfold stack. simpl map. cbv beta iota. rewrite H. reflexivity.
Qed.

Lemma stack_Ok_inv (ms ms' : list Matrix) :
  stack ms = Ok ms' -> ms' = ms /\ ms <> [].
Proof.
  unfold stack. destruct ms as [| m ms]; [discriminate |].
  destruct (forallb _ _); [| discriminate]. intros [= <-]. split; congruence.
Qed.

End TensorFacts.

(** ** The head: [GRoIE.forward] *)

Module GRoIEFacts.
Import Tensor Modeling Spec TensorFacts.

Lemma index_Ok_inv {A : Type} (l : list A) (i : nat) (x : A) :
  Py.index l i = Ok x -> nth_error l i = Some x.
Proof. unfold Py.index. destruct (nth_error l i); congruence. Qed.

Lemma neg_index_Ok_inv {A : Type} (l : list A) (k : nat) (x d : A) :
  Py.neg_index l k = Ok x -> 1 <= k <= length l /\ x = nth (length l - k) l d.
Proof.
  unfold Py.neg_index.
  destruct (1 <=? k) eqn:H1; destruct (k <=? length l) eqn:H2; simpl;
    try discriminate.
  apply Nat.leb_le in H1, H2. intros H. apply index_Ok_inv in H.
  split; [lia |]. symmetry. apply nth_error_nth, H.
Qed.

Lemma neg_index_ok {A : Type} (l : list A) (k : nat) (d : A) :
  1 <= k <= length l -> Py.neg_index l k = Ok (nth (length l - k) l d).
Proof.
  intros [H1 H2]. unfold Py.neg_index.
  rewrite (proj2 (Nat.leb_le 1 k) H1), (proj2 (Nat.leb_le k _) H2). simpl.
  unfold Py.index.
  rewrite (nth_error_nth' l d) by lia. reflexivity.
Qed.

Lemma concat_rows_length (n : nat) (m : Matrix) :
  Forall (fun r : Vector => length r = n) m ->
  length (concat m) = length m * n.
Proof.
  induction 1 as [| r m Hr _ IH]; simpl; [reflexivity |].
  rewrite length_app, IH, Hr. reflexivity.
Qed.

Lemma group_concat_rows (n : nat) (m : Matrix) :
  0 < n -> Forall (fun r : Vector => length r = n) m ->
  Py.group n [] (concat m) = m.
Proof.
  intros Hn. induction 1 as [| r m Hr _ IH]; simpl; [reflexivity |].
  rewrite PyFacts.group_unfold; [| exact Hn | destruct r; simpl in *; [lia | discriminate]].
  rewrite take_app_length', drop_app_length' by (symmetry; exact Hr).
  rewrite IH. reflexivity.
Qed.

(** [view(-1, n)] leaves a tensor with rows of [n] entries as it is. *)
Lemma view2_id (n : nat) (m : Matrix) :
  0 < n -> Forall (fun r : Vector => length r = n) m -> GRoIE.view2 m n = Ok m.
Proof.
  intros Hn Hm. unfold GRoIE.view2.
  destruct (n =? 0) eqn:H0; [apply Nat.eqb_eq in H0; lia |].
  rewrite (concat_rows_length n m Hm), Nat.Div0.mod_mul, Nat.eqb_refl.
  rewrite group_concat_rows by assumption. reflexivity.
Qed.

Lemma view2_Ok_pos (n : nat) (m v : Matrix) : GRoIE.view2 m n = Ok v -> 0 < n.
Proof.
  unfold GRoIE.view2. destruct (n =? 0) eqn:H0; [discriminate |].
  apply Nat.eqb_neq in H0. lia.
Qed.

Section Generic.
Context {M : Modeling}.
Variables (self : GRoIE.t) (layers : list Hidden) (mask : Mask).

Lemma forward_body_Some_inv (lab : list Z) (st st' : list Q * list Matrix) (i : nat) :
  GRoIE.forward_body self layers mask (Some lab) st i = Ok st' ->
  exists lg ls,
    GRoIE.branch_logits self layers mask i = Ok lg /\
    GRoIE.branch_loss self i lg lab = Ok ls /\
    st' = (st.1 ++ [ls], st.2 ++ [lg]).
Proof.
  unfold GRoIE.forward_body. intros H.
  apply bindR_Ok_inv in H as (lg & Hlg & H).
  apply bindR_Ok_inv in H as (losses & Hl & [= <-]).
  apply bindR_Ok_inv in Hl as (ls & Hls & [= <-]).
  eauto.
Qed.

Lemma forward_body_None_inv (st st' : list Q * list Matrix) (i : nat) :
  GRoIE.forward_body self layers mask None st i = Ok st' ->
  exists lg,
    GRoIE.branch_logits self layers mask i = Ok lg /\
    st' = (st.1, st.2 ++ [lg]).
Proof.
  unfold GRoIE.forward_body. intros H.
  apply bindR_Ok_inv in H as (lg & Hlg & H). simpl in H.
  injection H as <-. eauto.
Qed.

(** The loop of [forward] when every branch succeeds. *)
Lemma forward_loop_ok (labels : option (list Z)) (lg : nat -> Matrix)
    (ls : nat -> Q) (n a : nat) (st : list Q * list Matrix) :
  (forall i, a <= i < a + n ->
     GRoIE.branch_logits self layers mask i = Ok (lg i)) ->
  (forall lab i, labels = Some lab -> a <= i < a + n ->
     GRoIE.branch_loss self i (lg i) lab = Ok (ls i)) ->
  foldR (GRoIE.forward_body self layers mask labels) (seq a n) st =
    Ok (match labels with
        | Some _ => st.1 ++ map ls (seq a n)
        | None => st.1
        end, st.2 ++ map lg (seq a n)).
Proof.
  revert a st. induction n as [| n IH]; intros a [L1 L2] Hlg Hls; simpl.
  - rewrite !app_nil_r. destruct labels; reflexivity.
  - unfold GRoIE.forward_body at 1. rewrite Hlg by lia. simpl.
    destruct labels as [lab |]; simpl.
    + rewrite (Hls lab) by (reflexivity || lia). simpl.
      rewrite IH; [| intros; apply Hlg; lia | intros; apply Hls; auto; lia].
      simpl. rewrite <- !app_assoc. reflexivity.
    + rewrite IH; [| intros; apply Hlg; lia | intros; discriminate].
      simpl. rewrite <- !app_assoc. reflexivity.
Qed.

(** Conversely, if the loop ends without an exception every branch
    succeeded. *)
Lemma forward_loop_inv (labels : option (list Z)) (n a : nat)
    (st st' : list Q * list Matrix) :
  foldR (GRoIE.forward_body self layers mask labels) (seq a n) st = Ok st' ->
  exists (lg : nat -> Matrix) (ls : nat -> Q),
    (forall i, a <= i < a + n ->
       GRoIE.branch_logits self layers mask i = Ok (lg i)) /\
    (forall lab i, labels = Some lab -> a <= i < a + n ->
       GRoIE.branch_loss self i (lg i) lab = Ok (ls i)) /\
    st' = (match labels with
           | Some _ => st.1 ++ map ls (seq a n)
           | None => st.1
           end, st.2 ++ map lg (seq a n)).
Proof.
  revert a st. induction n as [| n IH]; intros a [L1 L2]; simpl.
  - intros [= <-]. exists (fun _ => []), (fun _ => 0%Q).
    split_and!; try (intros; lia).
    rewrite !app_nil_r. destruct labels; reflexivity.
  - intros H. apply bindR_Ok_inv in H as (st1 & Hbody & Hrest).
    apply IH in Hrest as (lg' & ls' & Hlg' & Hls' & ->).
    destruct labels as [lab |].
    + apply forward_body_Some_inv in Hbody as (x & y & Hx & Hy & ->).
      exists (fun i => if i =? a then x else lg' i),
             (fun i => if i =? a then y else ls' i).
      split_and!.
      * intros i Hi. destruct (i =? a) eqn:E.
        -- apply Nat.eqb_eq in E as ->. exact Hx.
        -- apply Nat.eqb_neq in E. apply Hlg'. lia.
      * intros lab' i [= <-] Hi. destruct (i =? a) eqn:E.
        -- apply Nat.eqb_eq in E as ->. exact Hy.
        -- apply Nat.eqb_neq in E. apply (Hls' lab); [reflexivity | lia].
      * simpl. rewrite Nat.eqb_refl, <- !app_assoc. simpl.
        f_equal; do 2 f_equal; apply map_ext_in; intros i Hi;
          apply in_seq in Hi;
          (destruct (i =? a) eqn:E; [apply Nat.eqb_eq in E; lia | reflexivity]).
    + apply forward_body_None_inv in Hbody as (x & Hx & ->).
      exists (fun i => if i =? a then x else lg' i), ls'.
      split_and!.
      * intros i Hi. destruct (i =? a) eqn:E.
        -- apply Nat.eqb_eq in E as ->. exact Hx.
        -- apply Nat.eqb_neq in E. apply Hlg'. lia.
      * intros; discriminate.
      * simpl. rewrite Nat.eqb_refl, <- !app_assoc. simpl.
        do 3 f_equal; apply map_ext_in; intros i Hi;
          apply in_seq in Hi;
          (destruct (i =? a) eqn:E; [apply Nat.eqb_eq in E; lia | reflexivity]).
Qed.

(** [forward] when every branch succeeds and the logits have one shape. *)
Lemma forward_ok (labels : option (list Z)) (lg : nat -> Matrix)
    (ls : nat -> Q) (s : list nat) :
  1 <= GRoIE.count self ->
  (forall i, i < GRoIE.count self ->
     GRoIE.branch_logits self layers mask i = Ok (lg i)) ->
  (forall lab i, labels = Some lab -> i < GRoIE.count self ->
     GRoIE.branch_loss self i (lg i) lab = Ok (ls i)) ->
  (forall i, i < GRoIE.count self -> shape (lg i) = s) ->
  GRoIE.forward self layers mask labels =
    Ok (match labels with
        | Some _ => Scalar (py_sum (map ls (seq 0 (GRoIE.count self))))
        | None => torch_Tensor_0
        end,
        mdiv (sum_dim0 (map lg (seq 0 (GRoIE.count self)))) (GRoIE.count self)).
Proof.
  intros HK Hlg Hls Hs. unfold GRoIE.forward.
  rewrite (forward_loop_ok labels lg ls);
    [| intros; apply Hlg; lia | intros; eapply Hls; eauto; lia].
  destruct (GRoIE.count self) as [| K] eqn:EK; [lia |].
  pose proof (stack_seq lg s K Hs) as Hst. simpl in Hst.
  destruct labels as [lab |]; simpl; rewrite Hst; reflexivity.
Qed.

(** What [forward] returns when it returns. *)
Lemma forward_inv (labels : option (list Z)) (t : Tensor01) (avg : Matrix) :
  GRoIE.forward self layers mask labels = Ok (t, avg) ->
  exists (lg : nat -> Matrix) (ls : nat -> Q),
    1 <= GRoIE.count self /\
    (forall i, i < GRoIE.count self ->
       GRoIE.branch_logits self layers mask i = Ok (lg i)) /\
    (forall lab i, labels = Some lab -> i < GRoIE.count self ->
       GRoIE.branch_loss self i (lg i) lab = Ok (ls i)) /\
    t = match labels with
        | Some _ => Scalar (py_sum (map ls (seq 0 (GRoIE.count self))))
        | None => torch_Tensor_0
        end /\
    avg = mdiv (sum_dim0 (map lg (seq 0 (GRoIE.count self)))) (GRoIE.count self).
Proof.
  unfold GRoIE.forward. intros H.
  apply bindR_Ok_inv in H as (st & Hloop & H).
  apply forward_loop_inv in Hloop as (lg & ls & Hlg & Hls & ->).
  apply bindR_Ok_inv in H as (total & Htotal & H).
  apply bindR_Ok_inv in H as (stacked & Hst & [= <- <-]).
  simpl in Hst. apply stack_Ok_inv in Hst as [-> Hne].
  exists lg, ls. split_and!.
  - destruct (GRoIE.count self); [simpl in Hne; congruence | lia].
  - intros i Hi. apply Hlg. lia.
  - intros lab i Hlab Hi. apply (Hls lab); [exact Hlab | lia].
  - destruct labels as [lab |]; simpl in Htotal.
    + apply bindR_Ok_inv in Htotal as (v & Hv & [= <-]).
      unfold stack_scalars in Hv.
      destruct (map ls (seq 0 (GRoIE.count self))) eqn:E; [discriminate |].
      injection Hv as <-. reflexivity.
    + congruence.
  - reflexivity.
Qed.

End Generic.

Section Init.
Context {M : Modeling}.
Variables (K : nat) (config : Config) (nl : nat) (sd : gmap string PTensor)
  (training : bool) (layers : list Hidden) (mask : Mask).

Let self : GRoIE.t := GRoIE.init K config nl sd training.

Lemma init_loop {X Y : Type} (g : nat -> X) (h : nat -> Y) (n a : nat)
    (acc : list X * list Y) :
  fold_left (fun (acc : list X * list Y) (i : nat) =>
               (acc.1 ++ [g i], acc.2 ++ [h i])) (seq a n) acc =
  (acc.1 ++ map g (seq a n), acc.2 ++ map h (seq a n)).
Proof.
  revert a acc. induction n as [| n IH]; intros a [P L]; simpl.
  - rewrite !app_nil_r. reflexivity.
  - rewrite IH. simpl. rewrite <- !app_assoc. reflexivity.
Qed.

Lemma init_pre_layers :
  GRoIE.pre_layers self =
    map (fun i => BertLayer config (sub (pretty i) (sub "pre_layers" sd)) training)
      (seq 0 K).
Proof. unfold self, GRoIE.init. simpl. rewrite init_loop. reflexivity. Qed.

Lemma init_loss_fct :
  GRoIE.loss_fct self = map (fun _ => CrossEntropyLoss (-1)) (seq 0 K).
Proof. unfold self, GRoIE.init. simpl. rewrite init_loop. reflexivity. Qed.

Lemma nth_error_map_seq {X : Type} (g : nat -> X) (n i : nat) (x : X) :
  nth_error (map g (seq 0 n)) i = Some x -> i < n /\ x = g i.
Proof.
  intros H. assert (Hi : i < length (map g (seq 0 n))).
  { apply nth_error_Some. congruence. }
  rewrite length_map, length_seq in Hi.
  split; [exact Hi |].
  rewrite (nth_error_nth' _ (g 0)) in H by (rewrite length_map, length_seq; lia).
  injection H as <-.
  rewrite (nth_map_lt g (seq 0 n) i 0) by (rewrite length_seq; lia).
  rewrite seq_nth by lia. reflexivity.
Qed.

Lemma index_map_seq {X : Type} (g : nat -> X) (n i : nat) :
  i < n -> Py.index (map g (seq 0 n)) i = Ok (g i).
Proof.
  intros Hi. unfold Py.index.
  rewrite (nth_error_nth' _ (g 0)) by (rewrite length_map, length_seq; lia).
  rewrite (nth_map_lt g (seq 0 n) i 0) by (rewrite length_seq; lia).
  rewrite seq_nth by lia. reflexivity.
Qed.

(** The logits of branch [i] are those of the specification. *)
Lemma branch_logits_init_inv (i : nat) (lg : Matrix) :
  GRoIE.branch_logits self layers mask i = Ok lg ->
  i < K /\ i < length layers /\
  lg = HeadSpec.logits_of_branch config nl sd training layers mask i.
Proof.
  unfold GRoIE.branch_logits. intros H.
  apply bindR_Ok_inv in H as (h & Hh & H).
  apply bindR_Ok_inv in H as (pre & Hpre & H).
  apply (neg_index_Ok_inv _ _ _ []) in Hh as [Hi ->].
  rewrite init_pre_layers in Hpre. apply index_Ok_inv in Hpre.
  apply nth_error_map_seq in Hpre as [HiK ->].
  apply linear_Ok_inv in H. split_and!; [exact HiK | lia | exact H].
Qed.

Lemma logits_of_branch_rows (i : nat) :
  Forall (fun r : Vector => length r = nl)
    (HeadSpec.logits_of_branch config nl sd training layers mask i).
Proof.
  apply (shape_rows _
           (length (HeadSpec.shared_pooler config sd
                      (HeadSpec.refined config sd training layers mask i))) nl).
  unfold HeadSpec.logits_of_branch.
  rewrite shape_affine by apply nn_Linear_wf. reflexivity.
Qed.

Lemma branch_loss_init_inv (i : nat) (lab : list Z) (q : Q) :
  GRoIE.branch_loss self i
    (HeadSpec.logits_of_branch config nl sd training layers mask i) lab = Ok q ->
  HeadSpec.loss_of_branch config nl sd training layers mask lab i = Ok q.
Proof.
  unfold GRoIE.branch_loss. intros H.
  apply bindR_Ok_inv in H as (lf & Hlf & H).
  apply bindR_Ok_inv in H as (v & Hv & H).
  rewrite init_loss_fct in Hlf. apply index_Ok_inv in Hlf.
  apply nth_error_map_seq in Hlf as [_ ->].
  pose proof (view2_Ok_pos _ _ _ Hv) as Hnl.
  rewrite view2_id in Hv;
    [injection Hv as <-; exact H | exact Hnl | apply logits_of_branch_rows].
Qed.

Lemma branch_loss_init (i : nat) (lab : list Z) :
  i < K -> 0 < nl ->
  GRoIE.branch_loss self i
    (HeadSpec.logits_of_branch config nl sd training layers mask i) lab =
  HeadSpec.loss_of_branch config nl sd training layers mask lab i.
Proof.
  intros Hi Hnl. unfold GRoIE.branch_loss.
  rewrite init_loss_fct, index_map_seq by exact Hi. simpl.
  rewrite view2_id; [reflexivity | exact Hnl | apply logits_of_branch_rows].
Qed.

Context {MS : ModelingShapes M}.

Lemma branch_logits_init_ok (i : nat) :
  i < K -> i < length layers ->
  GRoIE.branch_logits self layers mask i =
    Ok (HeadSpec.logits_of_branch config nl sd training layers mask i).
Proof.
  intros HiK Hi. unfold GRoIE.branch_logits.
  rewrite (neg_index_ok _ _ []) by lia.
  rewrite init_pre_layers, index_map_seq by exact HiK. simpl.
  rewrite linear_ok; [reflexivity |]. simpl. apply BertPooler_width.
Qed.

(** The logits of every branch have one row per example and [nl] columns. *)
Lemma logits_of_branch_shape (B i : nat) :
  Forall (fun h : Hidden => length h = B) layers -> i < length layers ->
  shape (HeadSpec.logits_of_branch config nl sd training layers mask i) =
    repeat nl B.
Proof.
  intros HB Hi. unfold HeadSpec.logits_of_branch.
  rewrite shape_affine by apply nn_Linear_wf. simpl. f_equal.
  unfold HeadSpec.shared_pooler, HeadSpec.refined.
  rewrite BertPooler_batch, BertLayer_batch.
  rewrite List.Forall_forall in HB. apply HB. unfold HeadSpec.selected.
  apply nth_In. lia.
Qed.

(** [forward] of a head with [K] branches on a stack of at least [K] layers
    of one batch size. *)
Lemma forward_init_ok (labels : option (list Z)) (ls : nat -> Q) (B : nat) :
  1 <= K -> K <= length layers ->
  Forall (fun h : Hidden => length h = B) layers ->
  (forall lab i, labels = Some lab -> i < K ->
     0 < nl /\
     HeadSpec.loss_of_branch config nl sd training layers mask lab i = Ok (ls i)) ->
  GRoIE.forward self layers mask labels =
    Ok (match labels with
        | Some _ => Scalar (py_sum (map ls (seq 0 K)))
        | None => torch_Tensor_0
        end,
        mdiv (sum_dim0 (map (HeadSpec.logits_of_branch config nl sd training
                               layers mask) (seq 0 K))) K).
Proof.
  intros HK1 HK2 HB Hls.
  apply (forward_ok self layers mask labels
           (HeadSpec.logits_of_branch config nl sd training layers mask) ls
           (repeat nl B)).
  - exact HK1.
  - intros i Hi. change (i < K) in Hi. apply branch_logits_init_ok; lia.
  - intros lab i Hlab Hi. change (i < K) in Hi.
    destruct (Hls lab i Hlab Hi) as [Hnl Hl].
    rewrite branch_loss_init by lia. exact Hl.
  - intros i Hi. change (i < K) in Hi.
    apply logits_of_branch_shape; [exact HB | lia].
Qed.

End Init.

End GRoIEFacts.

(** ** The total loss and the placeholder: C2 and C5 *)

Module HeadTheorems.
Import Tensor Modeling Spec TensorFacts GRoIEFacts.

Lemma toy_shapes : ModelingShapes Toy.modeling.
Proof.
  constructor; simpl.
  - intros c _ _ ids _ _. apply repeat_length.
  - intros c _ _ ids _ _. apply Forall_forall. intros h Hh.
    apply list_elem_of_In, repeat_spec in Hh as ->.
    unfold Toy.embed. apply length_map.
  - reflexivity.
  - intros c _ h. apply length_map.
  - intros c _ h. apply Forall_forall. intros r Hr.
    apply list_elem_of_In, in_map_iff in Hr as (m & <- & _).
    unfold Toy.resize. rewrite length_take, length_app, repeat_length. lia.
Qed.

Section Head.
Context {M : Modeling} {MS : ModelingShapes M}.
Variables (K : nat) (config : Config) (nl : nat) (sd : gmap string PTensor)
  (training : bool) (layers : list Hidden) (mask : Mask).

(** C2: with labels, the total loss [forward] returns is a scalar, the sum
    of the [K] losses of the branches, where branch [i] is computed from
    the hidden state at depth [-i-1], refined by its own sub-layer, pooled
    and classified by the shared pooler and classifier; and [forward] does
    return when the head has between 1 and [length layers] branches, the
    layers have one batch size, there is at least one label and the loss
    of every branch is defined. *)
Theorem forward_total_loss_is_sum (labels : list Z) :
  (forall t avg,
     GRoIE.forward (GRoIE.init K config nl sd training) layers mask (Some labels)
       = Ok (t, avg) ->
     exists (ls : nat -> Q) (q : Q),
       (forall i, i < K ->
          HeadSpec.loss_of_branch config nl sd training layers mask labels i
            = Ok (ls i)) /\
       t = Scalar q /\ (q == sum_upto ls K)%Q) /\
  (forall (B : nat) (ls : nat -> Q),
     1 <= K -> K <= length layers -> 1 <= nl ->
     Forall (fun h : Hidden => length h = B) layers ->
     (forall i, i < K ->
        HeadSpec.loss_of_branch config nl sd training layers mask labels i
          = Ok (ls i)) ->
     exists (q : Q) (avg : Matrix),
       GRoIE.forward (GRoIE.init K config nl sd training) layers mask (Some labels)
         = Ok (Scalar q, avg) /\
       (q == sum_upto ls K)%Q).
Proof.
  split.
  - intros t avg H.
    apply forward_inv in H as (lg & ls & HK & Hlg & Hls & -> & _).
    change (GRoIE.count (GRoIE.init K config nl sd training)) with K in *.
    exists ls, (py_sum (map ls (seq 0 K))). split_and!.
    + intros i Hi. pose proof (Hls labels i eq_refl Hi) as Hl.
      pose proof (Hlg i Hi) as Hg.
      apply branch_logits_init_inv in Hg as (_ & _ & E).
      rewrite E in Hl. eapply branch_loss_init_inv. exact Hl.
    + reflexivity.
    + apply py_sum_seq.
  - intros B ls HK1 HK2 Hnl HB Hls.
    exists (py_sum (map ls (seq 0 K))),
      (mdiv (sum_dim0 (map (HeadSpec.logits_of_branch config nl sd training
                              layers mask) (seq 0 K))) K).
    split; [| apply py_sum_seq].
    apply (forward_init_ok K config nl sd training layers mask (Some labels) ls B);
      try assumption.
    intros lab i [= <-] Hi. split; [lia | apply Hls, Hi].
Qed.

(** C5, as the code has it: without labels the first component of the pair
    is [torch.Tensor(0)], a tensor with no element (it holds no value, and
    [item()] raises on it); the second is the aggregated logits. *)
Theorem forward_placeholder_is_empty :
  (forall t avg,
     GRoIE.forward (GRoIE.init K config nl sd training) layers mask None
       = Ok (t, avg) ->
     t = torch_Tensor_0 /\ numel t = 0 /\ item t = Raise ValueError /\
     avg = mdiv (sum_dim0 (map (HeadSpec.logits_of_branch config nl sd training
                                  layers mask) (seq 0 K))) K) /\
  (forall B : nat,
     1 <= K -> K <= length layers ->
     Forall (fun h : Hidden => length h = B) layers ->
     exists avg : Matrix,
       GRoIE.forward (GRoIE.init K config nl sd training) layers mask None
         = Ok (torch_Tensor_0, avg)).
Proof.
  split.
  - intros t avg H.
    apply forward_inv in H as (lg & ls & HK & Hlg & _ & -> & ->).
    change (GRoIE.count (GRoIE.init K config nl sd training)) with K in *.
    split_and!; try reflexivity.
    do 2 f_equal. apply map_ext_in. intros i Hi. apply in_seq in Hi.
    assert (HiK : i < K) by lia.
    apply Hlg, branch_logits_init_inv in HiK as (_ & _ & E). exact E.
  - intros B HK1 HK2 HB. eexists.
    apply (forward_init_ok K config nl sd training layers mask None
             (fun _ => 0%Q) B); try assumption.
    intros; discriminate.
Qed.

End Head.

Lemma forward_total_loss_is_sum_witness :
  exists (q : Q) (avg : Matrix),
    GRoIE.forward (M := Toy.modeling) (GRoIE.init 4 Toy.config 3 Toy.head_sd false)
      Toy.two_layers tt (Some Toy.two_labels) = Ok (Scalar q, avg) /\
    (q == sum_upto Toy.two_losses 4)%Q.
Proof.
  refine (proj2 (forward_total_loss_is_sum (M := Toy.modeling) (MS := toy_shapes)
                   4 Toy.config 3 Toy.head_sd false Toy.two_layers tt
                   Toy.two_labels) 2 Toy.two_losses _ _ _ _ _).
  - lia.
  - simpl. lia.
  - lia.
  - repeat constructor.
  - intros i Hi.
    destruct i as [| [| [| [| i]]]]; [reflexivity .. | lia].
Defined.

Lemma forward_placeholder_is_empty_witness :
  exists avg : Matrix,
    GRoIE.forward (M := Toy.modeling) (GRoIE.init 4 Toy.config 3 Toy.head_sd false)
      Toy.two_layers tt None = Ok (torch_Tensor_0, avg).
Proof.
  refine (proj2 (forward_placeholder_is_empty (M := Toy.modeling)
                   (MS := toy_shapes) 4 Toy.config 3 Toy.head_sd false
                   Toy.two_layers tt) 2 _ _ _).
  - lia.
  - simpl. lia.
  - repeat constructor.
Defined.

(** C5 as stated fails: on a batch of two unlabeled examples the first
    component is a tensor without elements, not a value equal to zero. *)
Lemma forward_placeholder_not_zero :
  exists (t : Tensor01) (avg : Matrix),
    GRoIE.forward (M := Toy.modeling) (GRoIE.init 4 Toy.config 3 Toy.head_sd false)
      Toy.two_layers tt None = Ok (t, avg) /\
    numel t = 0 /\
    item t = Raise ValueError /\
    (forall q : Q, t <> Scalar q).
Proof.
  eexists _, _. split; [vm_compute; reflexivity |].
  split_and!; [reflexivity | reflexivity | intros q; discriminate].
Qed.

End HeadTheorems.

(** ** The classification model *)

Module ModelFacts.
Import Tensor Modeling Spec TensorFacts GRoIEFacts.

Section Model.
Context {M : Modeling} {MS : ModelingShapes M}.
Variables (config : Config) (nl : nat) (sd : gmap string PTensor)
  (training : bool) (ids : Ids) (seg msk : option Ids).

Let self : BertForABSA.t := BertForABSA.init config nl sd training.
Let enc : list Hidden * Matrix * Mask :=
  BertModel config (sub "bert" sd) training ids seg msk.
Let branch : nat -> Matrix :=
  HeadSpec.logits_of_branch config nl (sub "groie" sd) training enc.1.1 enc.2.

(** [forward] runs the encoder once and hands its layers to the head. *)
Lemma forward_unfold (labels : option (list Z)) :
  BertForABSA.forward self ids seg msk labels =
    bindR (GRoIE.forward (GRoIE.init 4 config nl (sub "groie" sd) training)
             enc.1.1 enc.2 labels)
      (fun r => match labels with
                | Some _ => Ok (BertForABSA.Loss r.1)
                | None => Ok (BertForABSA.Logits r.2)
                end).
Proof.
  unfold BertForABSA.forward, self. simpl. fold enc.
  destruct enc as [[layers pooled] mask]. simpl.
  destruct (GRoIE.forward _ _ _ _) as [[loss logits] |]; reflexivity.
Qed.





End Model.
End ModelFacts.

(** ** The classification model: C4 *)

Module ModelTheorems.
Import Tensor Modeling Spec TensorFacts GRoIEFacts.

Section Model.
Context {M : Modeling} {MS : ModelingShapes M}.
Variables (config : Config) (nl : nat) (sd : gmap string PTensor)
  (training : bool) (ids : Ids) (seg msk : option Ids).

(** C4: with labels [forward] returns only the loss, a scalar, the sum of
    the losses of the 4 branches of the head on the layers of the encoder,
    and it does return, with that sum, when the loss of each of the 4
    branches is defined; without
    labels it returns only the aggregated logits, one row per example and
    one column per label, each entry the arithmetic mean of the entries of
    the logits of the 4 branches; so one unlabeled example and 3 labels
    give one vector of length 3. The encoder has at least 4 layers. *)
Theorem forward_loss_xor_logits :
  4 <= num_hidden_layers config ->
  let self := BertForABSA.init config nl sd training in
  let enc := BertModel config (sub "bert" sd) training ids seg msk in
  let branch := HeadSpec.logits_of_branch config nl (sub "groie" sd) training
                  enc.1.1 enc.2 in
  (forall labels out,
     BertForABSA.forward self ids seg msk (Some labels) = Ok out ->
     exists (ls : nat -> Q) (q : Q),
       (forall i, i < 4 ->
          HeadSpec.loss_of_branch config nl (sub "groie" sd) training
            enc.1.1 enc.2 labels i = Ok (ls i)) /\
       out = BertForABSA.Loss (Scalar q) /\ (q == sum_upto ls 4)%Q) /\
  (forall labels (ls : nat -> Q),
     1 <= nl ->
     (forall i, i < 4 ->
        HeadSpec.loss_of_branch config nl (sub "groie" sd) training
          enc.1.1 enc.2 labels i = Ok (ls i)) ->
     exists q : Q,
       BertForABSA.forward self ids seg msk (Some labels)
         = Ok (BertForABSA.Loss (Scalar q)) /\
       (q == sum_upto ls 4)%Q) /\
  exists logits : Matrix,
    BertForABSA.forward self ids seg msk None = Ok (BertForABSA.Logits logits) /\
    length logits = length ids /\
    Forall (fun r : Vector => length r = nl) logits /\
    (forall b c, b < length ids -> c < nl ->
       (entry logits b c ==
        sum_upto (fun i => entry (branch i) b c) 4 / inject_Z 4)%Q) /\
    (length ids = 1 -> nl = 3 -> exists v : Vector, logits = [v] /\ length v = 3).
Proof.
  intros Hlayers self enc branch.
  pose proof (BertModel_layers config (sub "bert" sd) training ids seg msk) as HL.
  pose proof (BertModel_batch config (sub "bert" sd) training ids seg msk) as HB.
  fold enc in HL, HB.
  assert (Hfwd : forall labels,
            BertForABSA.forward self ids seg msk labels =
            bindR (GRoIE.forward (GRoIE.init 4 config nl (sub "groie" sd) training)
                     enc.1.1 enc.2 labels)
              (fun r => match labels with
                        | Some _ => Ok (BertForABSA.Loss r.1)
                        | None => Ok (BertForABSA.Logits r.2)
                        end)).
  { intros labels. unfold BertForABSA.forward, self. simpl.
    fold enc. destruct enc as [[layers pooled] mask]. simpl.
    destruct (GRoIE.forward _ _ _ _) as [[loss logits] |]; reflexivity. }
  split_and!.
  - intros labels out H. rewrite Hfwd in H.
    apply bindR_Ok_inv in H as ([t avg] & H & [= <-]).
    apply forward_inv in H as (lg & ls & _ & Hlg & Hls & -> & _).
    change (GRoIE.count (GRoIE.init 4 config nl (sub "groie" sd) training))
      with 4 in *.
    exists ls, (py_sum (map ls (seq 0 4))). split_and!.
    + intros i Hi. pose proof (Hls labels i eq_refl Hi) as Hl.
      pose proof (Hlg i Hi) as Hg.
      apply branch_logits_init_inv in Hg as (_ & _ & Eg).
      rewrite Eg in Hl. eapply branch_loss_init_inv. exact Hl.
    + reflexivity.
    + apply (py_sum_seq ls 4).
  - intros labels ls Hnl Hloss.
    exists (py_sum (map ls (seq 0 4))). split; [| apply (py_sum_seq ls 4)].
    rewrite Hfwd.
    rewrite (forward_init_ok 4 config nl (sub "groie" sd) training enc.1.1 enc.2
               (Some labels) ls (length ids)); [reflexivity | lia | lia | exact HB |].
    intros lab i [= <-] Hi. split; [lia | apply Hloss, Hi].
  - exists (mdiv (sum_dim0 (map branch (seq 0 4))) 4).
    assert (Hshape : forall i, i < 4 -> shape (branch i) = repeat nl (length ids)).
    { intros i Hi. apply logits_of_branch_shape; first [exact MS | exact HB | lia]. }
    destruct (sum_dim0_seq branch (length ids) nl 3 Hshape) as [Hs He].
    assert (Hsd : shape (mdiv (sum_dim0 (map branch (seq 0 4))) 4)
                  = repeat nl (length ids)) by (rewrite shape_mdiv; exact Hs).
    destruct (shape_rows _ _ _ Hsd) as [Hlen Hrows].
    split_and!.
    + rewrite Hfwd.
      rewrite (forward_init_ok 4 config nl (sub "groie" sd) training enc.1.1 enc.2
                 None (fun _ => 0%Q) (length ids));
        [reflexivity | lia | lia | exact HB | intros; discriminate].
    + exact Hlen.
    + exact Hrows.
    + intros b c Hb Hc.
      rewrite (entry_mdiv _ 4 (length ids) nl) by assumption.
      rewrite He by assumption. reflexivity.
    + intros H1 ->. rewrite H1 in Hlen.
      destruct (mdiv (sum_dim0 (map branch (seq 0 4))) 4) as [| v [| w rest]];
        try discriminate.
      exists v. split; [reflexivity |]. inversion Hrows; assumption.
Qed.

End Model.

Lemma forward_loss_xor_logits_witness :
  exists logits : Matrix,
    BertForABSA.forward (M := Toy.modeling)
      (BertForABSA.init Toy.config 3 (OS.data <$> OS.m_params Toy.pretrained) false)
      [[1%Z; 0%Z]] None None None = Ok (BertForABSA.Logits logits) /\
    exists v : Vector, logits = [v] /\ length v = 3.
Proof.
  destruct (forward_loss_xor_logits (M := Toy.modeling) (MS := HeadTheorems.toy_shapes)
              Toy.config 3 (OS.data <$> OS.m_params Toy.pretrained) false
              [[1%Z; 0%Z]] None None) as (_ & _ & logits & Hf & _ & _ & _ & H1).
  - simpl. lia.
  - exists logits. split; [exact Hf | apply H1; reflexivity].
Defined.

End ModelTheorems.

(** ** The validation loss: C6 *)

Module ValidTheorems.
Import Tensor Modeling OS Data Env Eval Train Spec TensorFacts.

Lemma bindIO_Ok_inv {A B : Type} (m : IO A) (f : A -> IO B) (fs fs' : FS) (b : B) :
  bindIO m f fs = (Ok b, fs') ->
  exists a fs1, m fs = (Ok a, fs1) /\ f a fs1 = (Ok b, fs').
Proof.
  unfold bindIO. destruct (m fs) as [[a | e] fs1]; intros H;
    [eauto | discriminate].
Qed.

Lemma lift_Ok_inv {A : Type} (r : result A) (fs fs' : FS) (a : A) :
  lift r fs = (Ok a, fs') -> r = Ok a /\ fs' = fs.
Proof. unfold lift. intros [= -> ->]. auto. Qed.

Lemma succeeded_inv {A : Type} (r : result A * FS) :
  succeeded r = true -> exists (a : A) (fs' : FS), r = (Ok a, fs').
Proof.
  destruct r as [[a | e] fs']; [eauto | discriminate].
Qed.

Lemma fold_left_Qplus (l : list Q) (a : Q) :
  (fold_left Qplus l a == a + fold_right Qplus 0 l)%Q.
Proof.
  revert a. induction l as [| x l IH]; intros a; simpl; [ring |].
  rewrite IH. ring.
Qed.

Lemma py_sum_weighted (l : list (Q * nat)) :
  (py_sum (map (fun b => b.1 * inject_Z (Z.of_nat b.2)) l) == weighted_sum l)%Q.
Proof.
  unfold py_sum. rewrite fold_left_Qplus.
  induction l as [| b l IH]; simpl; [ring |].
  simpl in IH. rewrite Qplus_0_l in IH. rewrite <- IH. ring.
Qed.

Section Valid.
Context {M : Modeling} {E : Env}.
Variables (m : Model) (f : list InputFeatures -> Q).

Lemma valid_loop_ok (batches : list (list InputFeatures))
    (st : list Q * nat * option Tensor01) :
  (forall b, In b batches -> bindR (model_loss m b) item = Ok (f b)) ->
  exists l : option Tensor01,
    foldR (valid_body m) batches st =
      Ok (st.1.1 ++ map (fun b => b.1 * inject_Z (Z.of_nat b.2))%Q (sized f batches),
          st.1.2 + total_size (sized f batches), l).
Proof.
  revert st. induction batches as [| b batches IH]; intros [[L n] l0] Hf; simpl.
  - exists l0. rewrite app_nil_r, Nat.add_0_r. reflexivity.
  - pose proof (Hf b (or_introl eq_refl)) as Hb.
    unfold valid_body at 1.
    destruct (model_loss m b) as [t |]; simpl in Hb; [| discriminate].
    simpl. rewrite Hb. simpl.
    destruct (IH (L ++ [(f b * inject_Z (Z.of_nat (length (batch_input_ids b))))%Q],
                  n + length (batch_input_ids b), Some t))
      as [l Hl]; [intros b' Hb'; apply Hf; right; exact Hb' |].
    exists l. rewrite Hl. simpl. unfold batch_input_ids.
    rewrite length_map, <- app_assoc, Nat.add_assoc. reflexivity.
Qed.

(** C6: the validation loss of a pass over batches with at least one
    example is the size-weighted average of the batch losses: each loss
    times the size of its batch, summed, over the number of examples. For
    two batches of sizes 3 and 1 with losses 2 and 5 it is 2.75, where the
    plain average of the two losses is 3.5. The loss recorded in the
    validation history at the end of an epoch is this value. *)
Theorem valid_loss_is_weighted_average :
  (forall (batches : list (list InputFeatures)) (loss0 : option Tensor01),
     (forall b, In b batches -> bindR (model_loss m b) item = Ok (f b)) ->
     0 < total_size (sized f batches) ->
     exists (v : Q) (l : option Tensor01),
       validate m batches loss0 = Ok (v, l) /\
       (v == weighted_average (sized f batches))%Q) /\
  (forall (b1 b2 : list InputFeatures) (loss0 : option Tensor01),
     length b1 = 3 -> length b2 = 1 ->
     bindR (model_loss m b1) item = Ok (f b1) -> (f b1 == 2)%Q ->
     bindR (model_loss m b2) item = Ok (f b2) -> (f b2 == 5)%Q ->
     exists (v : Q) (l : option Tensor01),
       validate m [b1; b2] loss0 = Ok (v, l) /\
       (v == 275 # 100)%Q /\ ~ (v == 35 # 10)%Q /\
       (naive_average (sized f [b1; b2]) == 35 # 10)%Q) /\
  (forall (args : Args.t) (valid : list InputFeatures) (new_dirs : string)
          (epoch : nat) (st st' : TrainState) (fs fs' : FS),
     valid_block args valid new_dirs epoch st fs = (Ok st', fs') ->
     exists (v : Q) (l : option Tensor01),
       validate (set_training (model st) false)
         (DataLoader (Args.train_batch_size args) (SequentialSampler valid))
         (loss st) = Ok (v, l) /\
       valid_losses st' = valid_losses st ++ [v]).
Proof.
  assert (Hgen : forall batches loss0,
            (forall b, In b batches -> bindR (model_loss m b) item = Ok (f b)) ->
            0 < total_size (sized f batches) ->
            exists v l,
              validate m batches loss0 = Ok (v, l) /\
              (v == weighted_average (sized f batches))%Q).
  { intros batches loss0 Hf Hpos. unfold validate.
    destruct (valid_loop_ok batches ([], 0, loss0) Hf) as [l Hl].
    rewrite Hl. simpl. unfold float_div.
    destruct (total_size (sized f batches) =? 0) eqn:E0;
      [apply Nat.eqb_eq in E0; lia |].
    simpl. eexists _, _. split; [reflexivity |].
    unfold weighted_average. rewrite py_sum_weighted. reflexivity. }
  split_and!.
  - exact Hgen.
  - intros b1 b2 loss0 H1 H2 Hf1 Hx1 Hf2 Hx2.
    destruct (Hgen [b1; b2] loss0) as (v & l & Hv & Hw).
    { intros b [<- | [<- | []]]; assumption. }
    { unfold sized. simpl. lia. }
    exists v, l. split; [exact Hv |].
    assert (Hval : (v == 275 # 100)%Q).
    { rewrite Hw. unfold weighted_average, sized. simpl.
      rewrite H1, H2, Hx1, Hx2. reflexivity. }
    split_and!.
    + exact Hval.
    + rewrite Hval. intros Hc. vm_compute in Hc. discriminate.
    + unfold naive_average, sized. simpl. rewrite Hx1, Hx2. reflexivity.
  - intros args valid new_dirs epoch st st' fs fs' H.
    unfold valid_block in H.
    apply bindIO_Ok_inv in H as (r & fs1 & Hr & H).
    apply lift_Ok_inv in Hr as [Hr ->].
    destruct r as [v l]. exists v, l. split; [exact Hr |].
    repeat (apply bindIO_Ok_inv in H as (? & ? & _ & H)).
    unfold retIO in H. injection H as <- _. reflexivity.
Qed.

End Valid.

Lemma valid_loss_is_weighted_average_witness :
  exists (v : Q) (l : option Tensor01),
    validate (M := Toy.modeling_first_label) Toy.pretrained
      [Toy.batch_three; Toy.batch_one] None = Ok (v, l) /\
    (v == 275 # 100)%Q /\ ~ (v == 35 # 10)%Q.
Proof.
  destruct (proj1 (proj2 (valid_loss_is_weighted_average
                            (M := Toy.modeling_first_label)
                            (E := Toy.env [] [] [])
                            Toy.pretrained
                            (Toy.loss_on Toy.modeling_first_label
                               Toy.pretrained)))
              Toy.batch_three Toy.batch_one None)
    as (v & l & Hv & H1 & H2 & _);
    try reflexivity.
  exists v, l. auto.
Defined.

End ValidTheorems.

(** ** Standalone evaluation: C10 *)

Module StandaloneEval.
Import Tensor Modeling OS Data Env Eval Train Main.

Section Standalone.
Context {M : Modeling} {E : Env}.

Lemma test_without_checkpoint (args : Args.t) (dev_as_test : option bool) (fs : FS) :
  exists e : exn, test args None dev_as_test fs = (Raise e, fs).
Proof.
  unfold test, bindIO, lift.
  destruct (test_features _ _); [| eauto].
  destruct (DataLoader_init _); [| eauto].
  simpl. eauto.
Qed.

(** C10: [main] calls [test(args)] when [do_eval] is set, with no
    checkpoint location; the call raises and leaves the files as they
    were, so no prediction file is written: when the tokenizer and the
    test data load and the batch size is positive, the exception is the
    [TypeError] of joining [None] with "model.pt". A run with [do_eval]
    never ends without an exception, and with [do_eval] alone the only file
    it may create is the output directory. *)
Theorem standalone_eval_fails :
  (forall (args : Args.t) (fs : FS),
     exists e : exn, test args None None fs = (Raise e, fs)) /\
  (forall (args : Args.t) (fs : FS) (tok : Tokenizer) (exs : list Example),
     BertTokenizer_from_pretrained (Args.bert_model args) = Ok tok ->
     get_test_examples (Args.data_dir args) = Ok exs ->
     0 < Args.eval_batch_size args ->
     path_join None "model.pt" = Raise TypeError /\
     test args None None fs = (Raise TypeError, fs)) /\
  (forall (args : Args.t) (fs : FS),
     Args.do_eval args = true ->
     exists (e : exn) (fs' : FS), main args fs = (Raise e, fs')) /\
  (forall (args : Args.t) (fs : FS),
     Args.do_eval args = true -> Args.do_train args = false ->
     exists e : exn,
       main args fs = (Raise e, (makedirs (Args.output_dir args) fs).2)).
Proof.
  split_and!.
  - intros args fs. apply test_without_checkpoint.
  - intros args fs tok exs Htok Hex Hbs. split; [reflexivity |].
    unfold test, test_features, bindIO, lift. rewrite Htok. simpl.
    rewrite Hex. simpl. unfold DataLoader_init.
    destruct (Args.eval_batch_size args =? 0) eqn:E0;
      [apply Nat.eqb_eq in E0; lia |].
    reflexivity.
  - intros args fs Heval. unfold main, bindIO. rewrite Heval.
    destruct (makedirs _ fs) as [[[] | e] fs1]; [| eauto].
    destruct (Args.do_train args).
    + destruct (train args fs1) as [[st | e] fs2]; [| eauto].
      simpl. destruct (test_without_checkpoint args None fs2) as [e He].
      rewrite He. eauto.
    + simpl. destruct (test_without_checkpoint args None fs1) as [e He].
      rewrite He. eauto.
  - intros args fs Heval Htrain. unfold main, bindIO.
    rewrite Heval, Htrain.
    destruct (makedirs _ fs) as [[[] | e] fs1]; [| eauto].
    simpl. destruct (test_without_checkpoint args None fs1) as [e He].
    rewrite He. eauto.
Qed.

End Standalone.

Lemma standalone_eval_fails_witness :
  path_join None "model.pt" = Raise TypeError /\
  test (M := Toy.modeling) (E := Toy.env Toy.five Toy.five Toy.five)
    (Toy.args 1 2 false true) None None ∅ = (Raise TypeError, ∅).
Proof.
  refine (proj1 (proj2 (standalone_eval_fails (M := Toy.modeling)
                          (E := Toy.env Toy.five Toy.five Toy.five)))
            (Toy.args 1 2 false true) ∅ tt Toy.five _ _ _).
  - reflexivity.
  - reflexivity.
  - simpl. lia.
Defined.

End StandaloneEval.

(** ** The evaluation routine: C8 *)

Module EvalTheorems.
Import Tensor Modeling OS Data Env Eval Spec TensorFacts.
Import ValidTheorems.

Section EvalOrder.
Context {M : Modeling} {MS : ModelingShapes M} {E : Env}.






End EvalOrder.


End EvalTheorems.

(** ** State dicts *)

Module StateDictFacts.
Import Modeling.

Lemma app_cons (c : ascii) (q x : string) : String c q +:+ x = String c (q +:+ x).
Proof. reflexivity. Qed.

Lemma app_assoc3 (p q r : string) : p +:+ q +:+ r = (p +:+ q) +:+ r.
Proof.
  induction p as [| c p IH]; [reflexivity |].
  rewrite !app_cons, IH. reflexivity.
Qed.

Lemma strip_spec (p n s : string) : strip p n = Some s <-> n = p +:+ s.
Proof.
  revert n. induction p as [| a p IH]; intros n.
  - change (Some n = Some s <-> n = s). split; congruence.
  - rewrite app_cons. destruct n as [| b n]; simpl; [split; discriminate |].
    destruct (Ascii.eqb a b) eqn:E.
    + apply Ascii.eqb_eq in E as ->. rewrite IH. split; congruence.
    + apply Ascii.eqb_neq in E. split; [discriminate | congruence].
Qed.

(** The entry [name] of the state dict of the sub-module [attr] is the
    entry [attr.name] of the state dict. *)
Lemma sub_lookup (attr : string) (sd : gmap string PTensor) (name : string) :
  sub attr sd !! name = sd !! (attr +:+ "." +:+ name).
Proof.
  unfold sub. rewrite app_assoc3.
  apply (map_fold_weak_ind
           (fun (r m : gmap string PTensor) =>
              r !! name = m !! ((attr +:+ ".") +:+ name))).
  - rewrite !lookup_empty. reflexivity.
  - intros n v m r Hn IH.
    destruct (strip (attr +:+ ".") n) as [s' |] eqn:Es.
    + apply strip_spec in Es. subst n.
      destruct (decide (s' = name)) as [-> | Hne].
      * rewrite !lookup_insert_eq. reflexivity.
      * rewrite !lookup_insert_ne; [exact IH | | exact Hne].
        intros Heq. apply Hne. exact (String.app_inj _ _ _ Heq).
    + rewrite lookup_insert_ne; [exact IH |].
      intros ->.
      pose proof (proj2 (strip_spec (attr +:+ ".")
                           ((attr +:+ ".") +:+ name) name) eq_refl).
      congruence.
Qed.

End StateDictFacts.

(** ** The training loop *)

Module TrainFacts.
Import Tensor Modeling OS Data Env Eval Train.
Import ValidTheorems.

Lemma foldIO_invariant {A S : Type} (P : S -> Prop) (body : S -> A -> IO S)
    (l : list A) (s s' : S) (fs fs' : FS) :
  (forall s x fs s' fs', P s -> body s x fs = (Ok s', fs') -> P s') ->
  P s -> foldIO body l s fs = (Ok s', fs') -> P s'.
Proof.
  intros Hbody. revert s fs. induction l as [| x l IH]; intros s fs Hs; simpl.
  - unfold retIO. intros [= <- _]. exact Hs.
  - intros H. apply bindIO_Ok_inv in H as (s1 & fs1 & H1 & H2). eauto.
Qed.

(** Inversion of one step of a computation in [IO] that ended well. *)
Ltac inv_bind H x fsx Hx :=
  apply bindIO_Ok_inv in H as (x & fsx & Hx & H);
  try (apply lift_Ok_inv in Hx as [Hx ->]).

Section Train.
Context {M : Modeling} {E : Env}.

Lemma step_param_frame (o : Optimizer) (grads : gmap string PTensor)
    (g : ParamGroup) (acc : gmap string OptState * gmap string TorchParam)
    (n n' : string) :
  n' <> n -> (step_param o grads g acc n).2 !! n' = acc.2 !! n'.
Proof.
  intros Hne. unfold step_param.
  destruct (acc.2 !! n) as [p |]; [| reflexivity].
  destruct (grads !! n) as [grad |]; [| reflexivity].
  simpl. apply lookup_insert_ne. congruence.
Qed.

Lemma step_group_frame (o : Optimizer) (grads : gmap string PTensor)
    (g : ParamGroup) (acc : gmap string OptState * gmap string TorchParam)
    (n' : string) :
  ~ In n' (params g) -> (step_group o grads acc g).2 !! n' = acc.2 !! n'.
Proof.
  unfold step_group. generalize (params g) as names. intros names.
  revert acc. induction names as [| n names IH]; intros acc Hn; simpl.
  - reflexivity.
  - rewrite IH by (intros H; apply Hn; right; exact H).
    apply step_param_frame. intros ->. apply Hn. left. reflexivity.
Qed.

Lemma step_groups_frame (o : Optimizer) (grads : gmap string PTensor)
    (gs : list ParamGroup)
    (acc : gmap string OptState * gmap string TorchParam) (n' : string) :
  (forall g, In g gs -> ~ In n' (params g)) ->
  (fold_left (step_group o grads) gs acc).2 !! n' = acc.2 !! n'.
Proof.
  revert acc. induction gs as [| g gs IH]; intros acc Hn; simpl.
  - reflexivity.
  - rewrite IH by (intros g' Hg'; apply Hn; right; exact Hg').
    apply step_group_frame. apply Hn. left. reflexivity.
Qed.

(** [optimizer.step()] changes only the parameters of its groups. *)
Lemma optimizer_step_frame (o : Optimizer) (grads : gmap string PTensor)
    (ps : gmap string TorchParam) (n' : string) :
  (forall g, In g (param_groups o) -> ~ In n' (params g)) ->
  (optimizer_step o grads ps).2 !! n' = ps !! n'.
Proof.
  intros Hn. unfold optimizer_step. simpl.
  rewrite step_groups_frame by exact Hn. reflexivity.
Qed.

Lemma excludes_pooler_not_in (o : Optimizer) (n : string) :
  excludes_pooler o -> Py.str_in "pooler" n = true ->
  forall g, In g (param_groups o) -> ~ In n (params g).
Proof.
  intros Ho Hn g Hg Hin. rewrite (Ho g Hg n Hin) in Hn. discriminate.
Qed.

Lemma excludes_pooler_set_lr (o : Optimizer) (x : Q) :
  excludes_pooler o -> excludes_pooler (set_lr o x).
Proof.
  intros Ho g Hg n Hn. unfold set_lr in Hg. simpl in Hg.
  apply in_map_iff in Hg as (g0 & <- & Hg0). simpl in Hn. eauto.
Qed.

Lemma excludes_pooler_step (o : Optimizer) (grads : gmap string PTensor)
    (ps : gmap string TorchParam) :
  excludes_pooler o -> excludes_pooler (optimizer_step o grads ps).1.
Proof. intros Ho. exact Ho. Qed.

Lemma param_optimizer_names (m : Model) (f : string * TorchParam -> bool)
    (n : string) :
  In n (map fst (List.filter f (param_optimizer m))) ->
  Py.str_in "pooler" n = false.
Proof.
  intros H. apply in_map_iff in H as ([n0 p] & <- & H).
  apply filter_In in H as [H _]. unfold param_optimizer in H.
  apply filter_In in H as [_ H]. simpl in *.
  destruct (Py.str_in "pooler" n0); [discriminate | reflexivity].
Qed.

(** The optimizer [train] builds has no parameter with 'pooler' in its
    name. *)
Lemma make_optimizer_excludes (m : Model) (x w : Q) (t : nat) :
  excludes_pooler (make_optimizer m x w t).
Proof.
  intros g Hg n Hn. unfold make_optimizer in Hg. simpl in Hg.
  destruct Hg as [<- | [<- | []]]; simpl in Hn;
    eapply param_optimizer_names; exact Hn.
Qed.

(** One batch of training keeps the groups and leaves the parameters with
    'pooler' in their name as they are. *)
Lemma train_batch_frame (args : Args.t) (st st' : TrainState)
    (batch : list InputFeatures) (m0 : Model) :
  train_batch args st batch = Ok st' ->
  excludes_pooler (optimizer st) -> pooler_frozen (model st) m0 ->
  excludes_pooler (optimizer st') /\ pooler_frozen (model st') m0.
Proof.
  unfold train_batch. intros H Ho (Hc & Hnl & Hp).
  apply bindR_Ok_inv in H as (l & _ & H).
  apply bindR_Ok_inv in H as ([] & _ & H).
  apply bindR_Ok_inv in H as (progress & _ & H). injection H as <-.
  unfold pooler_frozen. cbn [model optimizer m_config m_num_labels m_params].
  split.
  - intros g Hg n Hn. cbn [param_groups] in Hg.
    apply in_map_iff in Hg as (g0 & <- & Hg0). exact (Ho g0 Hg0 n Hn).
  - split_and!; [exact Hc | exact Hnl |].
    intros n Hn. rewrite step_groups_frame; [apply Hp, Hn |].
    intros g Hg. apply in_map_iff in Hg as (g0 & <- & Hg0). cbn [params].
    exact (excludes_pooler_not_in _ n Ho Hn g0 Hg0).
Qed.

Lemma valid_block_frame (args : Args.t) (valid : list InputFeatures)
    (new_dirs : string) (epoch : nat) (st st' : TrainState) (fs fs' : FS)
    (m0 : Model) :
  valid_block args valid new_dirs epoch st fs = (Ok st', fs') ->
  excludes_pooler (optimizer st) -> pooler_frozen (model st) m0 ->
  excludes_pooler (optimizer st') /\ pooler_frozen (model st') m0.
Proof.
  unfold valid_block. intros H Ho Hp.
  repeat (apply bindIO_Ok_inv in H as (? & ? & _ & H)).
  unfold retIO in H. injection H as <- _. simpl. auto.
Qed.

Lemma train_epoch_frame (args : Args.t) (feats : list InputFeatures)
    (valid : option (list InputFeatures)) (epoch : nat)
    (st st' : TrainState) (fs fs' : FS) (m0 : Model) :
  train_epoch args feats valid st epoch fs = (Ok st', fs') ->
  excludes_pooler (optimizer st) /\ pooler_frozen (model st) m0 ->
  excludes_pooler (optimizer st') /\ pooler_frozen (model st') m0.
Proof.
  unfold train_epoch. intros H HP.
  inv_bind H st1 fs1 Hloop. inv_bind H l1 fs2 Hitem.
  inv_bind H new_dirs fs3 Hdir. inv_bind H u fs4 Hmk.
  assert (HP1 : excludes_pooler (optimizer st1) /\ pooler_frozen (model st1) m0).
  { eapply (foldR_invariant
              (fun s => excludes_pooler (optimizer s) /\ pooler_frozen (model s) m0));
      [| exact HP | exact Hloop].
    intros s b s' [Ho Hp] Hb. eapply train_batch_frame; eauto. }
  destruct valid as [v |].
  - destruct HP1. eapply valid_block_frame; eauto.
  - unfold retIO in H. injection H as <- _. exact HP1.
Qed.

(** A run of [train] that ends: the steps it went through. *)
Lemma train_inv (args : Args.t) (st : TrainState) (fs fs' : FS) :
  train args fs = (Ok st, fs') ->
  exists (tok : Tokenizer) (exs : list Example) (t : nat)
         (valid : option (list InputFeatures)) (m0 : Model) (fs1 fs2 : FS),
    ABSATokenizer_from_pretrained (Args.bert_model args) = Ok tok /\
    get_train_examples (Args.data_dir args) = Ok exs /\
    num_train_steps (length exs) (Args.train_batch_size args)
      (Args.num_train_epochs args) = Ok t /\
    from_pretrained (Args.bert_model args) (length get_labels) = Ok m0 /\
    foldIO
      (train_epoch args
         (convert_examples_to_features exs get_labels
            (Args.max_seq_length args) tok) valid)
      (seq 0 (Args.num_train_epochs args))
      {| model := set_training m0 true;
         optimizer := make_optimizer m0 (Args.learning_rate args)
                        (Args.warmup_proportion args) t;
         global_step := 0; loss := None; valid_losses := [];
         best_valid_loss := None; steps := [] |} fs1 = (Ok st, fs2).
Proof.
  unfold train. intros H.
  inv_bind H tok fs1 Htok. inv_bind H exs fs2 Hexs. inv_bind H t fs3 Ht.
  inv_bind H us fs3' Hsampler.
  inv_bind H u fs4 Hinit. inv_bind H valid fs5 Hvalid.
  inv_bind H m0 fs6 Hm0. inv_bind H u' fs7 Hadam. inv_bind H st1 fs8 Hloop.
  inv_bind H u'' fs9 Hsave.
  unfold retIO in H. injection H as <- _.
  exists tok, exs, t, valid, m0, fs5, fs8. auto.
Qed.

(** What a run of [train] that ends leaves: the final state comes from the
    pretrained model by epochs that keep the optimizer's groups free of
    'pooler' and the parameters under such names unchanged. *)
Lemma train_frame (args : Args.t) (st : TrainState) (fs fs' : FS) :
  train args fs = (Ok st, fs') ->
  exists m0 : Model,
    from_pretrained (Args.bert_model args) (length get_labels) = Ok m0 /\
    excludes_pooler (optimizer st) /\ pooler_frozen (model st) m0.
Proof.
  intros H.
  apply train_inv in H
    as (tok & exs & t & valid & m0 & fs1 & fs2 & _ & _ & _ & Hm0 & Hloop).
  exists m0. split; [exact Hm0 |].
  eapply (foldIO_invariant
            (fun s => excludes_pooler (optimizer s) /\ pooler_frozen (model s) m0));
    [| | exact Hloop].
  - intros s ep fs0 s' fs0' HP Hep. eapply train_epoch_frame; eauto.
  - cbn [model optimizer]. split; [apply make_optimizer_excludes |].
    split_and!; reflexivity.
Qed.

End Train.
End TrainFacts.

(** ** The parameters left out of the optimizer: C9 *)

Module PoolerTheorems.
Import Tensor Modeling OS Data Env Eval Train.
Import StateDictFacts TrainFacts.

Section Pooler.
Context {M : Modeling} {E : Env}.

Lemma groie_pooler_name (name : string) :
  Py.str_in "pooler" ("groie" +:+ "." +:+ "pooler" +:+ "." +:+ name) = true.
Proof. reflexivity. Qed.

Lemma groie_pooler_eq (m m0 : Model) :
  pooler_frozen m m0 ->
  GRoIE.pooler (BertForABSA.groie (callable m)) =
  GRoIE.pooler (BertForABSA.groie (callable m0)).
Proof.
  intros (Hc & _ & Hp). unfold callable, BertForABSA.init, GRoIE.init.
  cbn [BertForABSA.groie GRoIE.pooler]. rewrite Hc. f_equal.
  apply map_eq. intros name. rewrite !sub_lookup, !lookup_fmap.
  rewrite Hp by apply groie_pooler_name. reflexivity.
Qed.

(** C9: the optimizer [train] builds has no parameter whose name contains
    'pooler'; an optimizer step changes no parameter outside the groups,
    so each batch of training leaves the parameters with 'pooler' in their
    name as they were; after a run of [train] they have the values of the
    pretrained model, and so has the shared pooler of the head, whose
    parameters are named [groie.pooler.<name>]. *)
Theorem pooler_parameters_frozen :
  (forall (m : Model) (x w : Q) (t : nat),
     excludes_pooler (make_optimizer m x w t)) /\
  (forall (args : Args.t) (st st' : TrainState) (batch : list InputFeatures),
     excludes_pooler (optimizer st) ->
     train_batch args st batch = Ok st' ->
     excludes_pooler (optimizer st') /\
     forall n : string,
       Py.str_in "pooler" n = true ->
       m_params (model st') !! n = m_params (model st) !! n) /\
  (forall (args : Args.t) (st st' : TrainState) (batch : list InputFeatures)
          (n : string),
     train_batch args st batch = Ok st' ->
     (forall g, In g (param_groups (optimizer st)) -> ~ In n (params g)) ->
     m_params (model st') !! n = m_params (model st) !! n) /\
  (forall (args : Args.t) (fs fs' : FS) (st : TrainState),
     train args fs = (Ok st, fs') ->
     exists m0 : Model,
       from_pretrained (Args.bert_model args) (length get_labels) = Ok m0 /\
       (forall n : string,
          Py.str_in "pooler" n = true ->
          m_params (model st) !! n = m_params m0 !! n) /\
       (forall name : string,
          m_params (model st) !! ("groie" +:+ "." +:+ "pooler" +:+ "." +:+ name)
          = m_params m0 !! ("groie" +:+ "." +:+ "pooler" +:+ "." +:+ name)) /\
       GRoIE.pooler (BertForABSA.groie (callable (model st))) =
       GRoIE.pooler (BertForABSA.groie (callable m0))).
Proof.
  split_and!.
  - apply make_optimizer_excludes.
  - intros args st st' batch Ho H.
    destruct (train_batch_frame args st st' batch (model st) H Ho)
      as [Ho' (_ & _ & Hp)]; [split_and!; reflexivity |].
    auto.
  - intros args st st' batch n H Hn. unfold train_batch in H.
    apply bindR_Ok_inv in H as (l & _ & H).
    apply bindR_Ok_inv in H as ([] & _ & H).
    apply bindR_Ok_inv in H as (progress & _ & H). injection H as <-.
    cbn [model m_params]. apply step_groups_frame.
    intros g Hg. apply in_map_iff in Hg as (g0 & <- & Hg0). cbn [params].
    apply Hn, Hg0.
  - intros args fs fs' st H.
    apply train_frame in H as (m0 & Hm0 & _ & Hfrozen).
    exists m0. split_and!.
    + exact Hm0.
    + apply Hfrozen.
    + intros name. apply Hfrozen, groie_pooler_name.
    + apply groie_pooler_eq, Hfrozen.
Qed.

End Pooler.

Lemma toy_run_succeeds :
  succeeded (train (M := Toy.modeling) (E := Toy.env Toy.five Toy.five Toy.five)
               (Toy.args 1 2 false false) Toy.fs_out) = true.
Proof. vm_compute. reflexivity. Qed.

Lemma pooler_parameters_frozen_witness :
  exists (st : TrainState) (fs' : FS),
    train (M := Toy.modeling) (E := Toy.env Toy.five Toy.five Toy.five)
      (Toy.args 1 2 false false) Toy.fs_out = (Ok st, fs') /\
    m_params (model st) !! "groie.pooler.dense.bias"
    = m_params Toy.pretrained !! "groie.pooler.dense.bias".
Proof.
  destruct (ValidTheorems.succeeded_inv _ toy_run_succeeds) as (st & fs' & H).
  exists st, fs'. split; [exact H |].
  destruct (proj2 (proj2 (proj2 (pooler_parameters_frozen
                                   (M := Toy.modeling)
                                   (E := Toy.env Toy.five Toy.five Toy.five))))
              (Toy.args 1 2 false false) Toy.fs_out fs' st H)
    as (m0 & Hm0 & Hp & _).
  injection Hm0 as <-. apply Hp. reflexivity.
Defined.

End PoolerTheorems.

(** ** The log of optimizer steps *)

Module StepsFacts.
Import Tensor Modeling OS Data Env Eval Train Spec.
Import ValidTheorems TrainFacts.

Lemma foldIO_seq_invariant {St : Type} (P : nat -> St -> Prop)
    (body : St -> nat -> IO St) (n a : nat) (s s' : St) (fs fs' : FS) :
  (forall k s fs s' fs', P k s -> body s k fs = (Ok s', fs') -> P (k + 1) s') ->
  P a s -> foldIO body (seq a n) s fs = (Ok s', fs') -> P (a + n) s'.
Proof.
  intros Hbody. revert a s fs. induction n as [| n IH]; intros a s fs Hs; simpl.
  - unfold retIO. intros [= <- _]. rewrite Nat.add_0_r. exact Hs.
  - intros H. apply bindIO_Ok_inv in H as (s1 & fs1 & H1 & H2).
    replace (a + S n) with (S a + n) by lia.
    eapply IH; [| exact H2]. replace (S a) with (a + 1) by lia. eauto.
Qed.

Section Steps.
Context {M : Modeling} {E : Env} {EO : EnvOk E}.

(** What the loops keep of the state: the steps taken so far are logged
    with their progress [g / t]. *)
Let logged_upto (args : Args.t) (t g : nat) (st : TrainState) : Prop :=
  t_total (optimizer st) = t /\ global_step st = g /\
  steps st = map (log_entry args t) (seq 0 g).

Lemma train_batch_log (args : Args.t) (t g : nat) (st st' : TrainState)
    (batch : list InputFeatures) :
  train_batch args st batch = Ok st' ->
  logged_upto args t g st -> t <> 0 /\ logged_upto args t (g + 1) st'.
Proof.
  unfold train_batch, logged_upto. intros H (Ht & Hg & Hs).
  apply bindR_Ok_inv in H as (l & _ & H).
  apply bindR_Ok_inv in H as ([] & _ & H).
  apply bindR_Ok_inv in H as (progress & Hp & H). injection H as <-.
  cbn [optimizer global_step steps t_total].
  unfold true_div in Hp. rewrite Ht, Hg in Hp.
  destruct (t =? 0) eqn:E0; [discriminate Hp |]. injection Hp as <-.
  apply Nat.eqb_neq in E0. split_and!; try assumption.
  - lia.
  - rewrite Hs, Hg, seq_app, map_app. reflexivity.
Qed.

Lemma train_loop_log (args : Args.t) (t : nat)
    (batches : list (list InputFeatures)) (g : nat) (st st' : TrainState) :
  foldR (train_batch args) batches st = Ok st' ->
  logged_upto args t g st ->
  (batches <> [] -> t <> 0) /\ logged_upto args t (g + length batches) st'.
Proof.
  revert g st. induction batches as [| b batches IH]; intros g st; simpl.
  - intros [= <-] Hl. rewrite Nat.add_0_r. split; [congruence | exact Hl].
  - intros H Hl. apply bindR_Ok_inv in H as (st1 & Hb & H).
    destruct (train_batch_log args t g st st1 b Hb Hl) as [Ht Hl1].
    destruct (IH _ _ H Hl1) as [_ Hl']. split; [auto |].
    replace (g + S (length batches)) with (g + 1 + length batches) by lia.
    exact Hl'.
Qed.

Lemma valid_block_log (args : Args.t) (valid : list InputFeatures)
    (new_dirs : string) (epoch t g : nat) (st st' : TrainState) (fs fs' : FS) :
  valid_block args valid new_dirs epoch st fs = (Ok st', fs') ->
  logged_upto args t g st -> logged_upto args t g st'.
Proof.
  unfold valid_block. intros H Hl.
  repeat (apply bindIO_Ok_inv in H as (? & ? & _ & H)).
  unfold retIO in H. injection H as <- _. exact Hl.
Qed.

(** The loader of the training set gives [n_batches] batches per epoch. *)
Lemma train_dataloader_length (bs epoch : nat) (feats : list InputFeatures) :
  0 < bs ->
  length (DataLoader bs (RandomSampler epoch feats)) = n_batches (length feats) bs.
Proof.
  intros Hbs. unfold DataLoader, n_batches.
  rewrite PyFacts.group_length by exact Hbs.
  rewrite (Permutation_length (RandomSampler_perm epoch feats)). reflexivity.
Qed.

Lemma train_epoch_log (args : Args.t) (feats : list InputFeatures)
    (valid : option (list InputFeatures)) (epoch t g : nat)
    (st st' : TrainState) (fs fs' : FS) :
  0 < Args.train_batch_size args ->
  train_epoch args feats valid st epoch fs = (Ok st', fs') ->
  logged_upto args t g st ->
  logged_upto args t
    (g + n_batches (length feats) (Args.train_batch_size args)) st'.
Proof.
  unfold train_epoch. intros Hbs H Hl.
  inv_bind H st1 fs1 Hloop. inv_bind H l1 fs2 Hitem.
  inv_bind H new_dirs fs3 Hdir. inv_bind H u fs4 Hmk.
  apply (train_loop_log args t _ g) in Hloop as [_ Hl1]; [| exact Hl].
  rewrite train_dataloader_length in Hl1 by exact Hbs.
  destruct valid as [v |].
  - eapply valid_block_log; eauto.
  - unfold retIO in H. injection H as <- _. exact Hl1.
Qed.

(** A run of [train] that ends has taken one optimizer step per batch of
    every epoch, [epochs * ceil(n / bs)] in all, while [t_total] is
    [floor(n / bs) * epochs]; the step at [global_step = g] is taken with
    the progress [g / t_total]. *)
Lemma train_log (args : Args.t) (st : TrainState) (fs fs' : FS) :
  train args fs = (Ok st, fs') ->
  exists exs : list Example,
    get_train_examples (Args.data_dir args) = Ok exs /\
    0 < Args.train_batch_size args /\
    let t := length exs / Args.train_batch_size args * Args.num_train_epochs args in
    let g := Args.num_train_epochs args *
             n_batches (length exs) (Args.train_batch_size args) in
    t_total (optimizer st) = t /\ global_step st = g /\
    steps st = map (log_entry args t) (seq 0 g).
Proof.
  intros H.
  apply train_inv in H
    as (tok & exs & t & valid & m0 & fs1 & fs2 & _ & Hexs & Ht & _ & Hloop).
  exists exs. split; [exact Hexs |].
  unfold num_train_steps in Ht.
  destruct (Args.train_batch_size args =? 0) eqn:E0; [discriminate Ht |].
  apply Nat.eqb_neq in E0. injection Ht as <-. split; [lia |].
  set (t := length exs / Args.train_batch_size args * Args.num_train_epochs args)
    in *.
  set (nb := n_batches (length exs) (Args.train_batch_size args)).
  apply (foldIO_seq_invariant (fun k s => logged_upto args t (k * nb) s))
    in Hloop.
  - simpl in Hloop. exact Hloop.
  - intros k s fs0 s' fs0' Hl Hep.
    replace ((k + 1) * nb) with (k * nb + nb) by lia.
    assert (Hbs : 0 < Args.train_batch_size args) by lia.
    pose proof (train_epoch_log args _ valid k t (k * nb) s s' fs0 fs0'
                  Hbs Hep Hl) as Hl'.
    rewrite convert_length in Hl'. exact Hl'.
  - unfold logged_upto. cbn [optimizer global_step steps]. auto.
Qed.

(** With a last partial batch the run takes more optimizer steps than
    [t_total]. *)
Lemma partial_batch_exceeds_total (args : Args.t) (st : TrainState)
    (fs fs' : FS) (exs : list Example) :
  train args fs = (Ok st, fs') ->
  get_train_examples (Args.data_dir args) = Ok exs ->
  length exs mod Args.train_batch_size args <> 0 ->
  1 <= Args.num_train_epochs args ->
  t_total (optimizer st) < global_step st.
Proof.
  intros H Hexs Hmod He.
  apply train_log in H as (exs' & Hexs' & Hbs & Ht & Hg & _).
  rewrite Hexs in Hexs'. injection Hexs' as <-. rewrite Ht, Hg.
  set (n := length exs) in *. set (bs := Args.train_batch_size args) in *.
  assert (Hnb : n_batches n bs = n / bs + 1).
  { unfold n_batches. symmetry.
    apply (Nat.div_unique (n + bs - 1) bs (n / bs + 1) (n mod bs - 1)).
    - pose proof (Nat.mod_upper_bound n bs). lia.
    - pose proof (Nat.div_mod_eq n bs). lia. }
  rewrite Hnb. nia.
Qed.

End Steps.
End StepsFacts.

(** ** The number of optimizer steps: C3 *)

Module StepsTheorems.
Import Tensor Modeling OS Data Env Eval Train.

(** C3 fails on the code: started as [main] starts it, with the output
    directory in place, with 5 training examples, batches of 2 and 3
    epochs, [t_total] is [int(5 / 2) * 3 = 6] while the loader gives 3
    batches per epoch, so [train] takes 9 optimizer steps; at the steps 7
    and 8 the progress passed to [warmup_linear] is 7/6 and 4/3, above 1,
    and the learning rate written to the groups is negative. The log gives
    each step with its progress and learning rate, as reduced fractions. *)
Theorem train_steps_exceed_total :
  exists (st : TrainState) (fs' : FS),
    train (M := Toy.modeling) (E := Toy.env Toy.five Toy.five Toy.five)
      (Toy.args 3 2 false false) Toy.fs_out = (Ok st, fs') /\
    t_total (optimizer st) = 6 /\
    global_step st = 9 /\
    map (fun s => (s.1.1, Qred s.1.2, Qred s.2)) (steps st) =
      [ Toy.logged 0 0 0;
        Toy.logged 1 (1 # 6) (1 # 40000);
        Toy.logged 2 (1 # 3) (1 # 50000);
        Toy.logged 3 (1 # 2) (3 # 200000);
        Toy.logged 4 (2 # 3) (1 # 100000);
        Toy.logged 5 (5 # 6) (1 # 200000);
        Toy.logged 6 1 0;
        Toy.logged 7 (7 # 6) (-1 # 200000);
        Toy.logged 8 (4 # 3) (-1 # 100000) ] /\
    exists (p x : Q),
      steps st !! 7 = Some (7, p, x) /\ (1 < p)%Q /\ (x < 0)%Q.
Proof.
  set (r := train (M := Toy.modeling) (E := Toy.env Toy.five Toy.five Toy.five)
              (Toy.args 3 2 false false) Toy.fs_out).
  assert (Hok : succeeded r = true) by (vm_compute; reflexivity).
  assert (Hval :
            on_success
              (fun st => (t_total (optimizer st), global_step st,
                          map (fun s => (s.1.1, Qred s.1.2, Qred s.2)) (steps st)))
              (0, 0, []) r
            = (6, 9,
               [ Toy.logged 0 0 0;
                 Toy.logged 1 (1 # 6) (1 # 40000);
                 Toy.logged 2 (1 # 3) (1 # 50000);
                 Toy.logged 3 (1 # 2) (3 # 200000);
                 Toy.logged 4 (2 # 3) (1 # 100000);
                 Toy.logged 5 (5 # 6) (1 # 200000);
                 Toy.logged 6 1 0;
                 Toy.logged 7 (7 # 6) (-1 # 200000);
                 Toy.logged 8 (4 # 3) (-1 # 100000) ]))
    by (vm_compute; reflexivity).
  destruct (ValidTheorems.succeeded_inv r Hok) as (st & fs' & H).
  rewrite H in Hval. cbn [on_success] in Hval.
  injection Hval as Ht Hg Hsteps.
  exists st, fs'. split; [exact H |]. clear H Hok. clearbody r.
  split_and!; try assumption.
  apply (f_equal (fun l => l !! 7)) in Hsteps.
  rewrite list_lookup_fmap in Hsteps.
  destruct (steps st !! 7) as [[[g p] x] |]; [| discriminate Hsteps].
  injection Hsteps as -> Hp Hx. exists p, x. split_and!.
  - reflexivity.
  - rewrite <- (Qred_correct p), Hp. reflexivity.
  - rewrite <- (Qred_correct x), Hx. reflexivity.
Qed.

End StepsTheorems.

(** * Part III: further properties of the code *)

(** ** The schedule *)

Module ScheduleExtras.
Import Schedule ScheduleFacts.
Local Open Scope Q_scope.

(** X1: during the warmup, for a positive warmup fraction [w] and
    [0 <= x < w], the multiplier is [x / w]: 0 at 0, below 1 and strictly
    increasing. *)
Theorem warmup_linear_warmup_phase (w x : Q) :
  0 < w -> 0 <= x -> x < w ->
  warmup_linear x w == x / w /\
  0 <= warmup_linear x w /\ warmup_linear x w < 1 /\
  (forall y : Q, x < y -> y < w -> warmup_linear x w < warmup_linear y w) /\
  warmup_linear 0 w == 0.
Proof.
  intros Hw H0 Hx.
  assert (Hinv : 0 < / w) by (apply Qinv_lt_0_compat; exact Hw).
  split_and!.
  - apply warmup_linear_ramp, Hx.
  - rewrite warmup_linear_ramp by exact Hx.
    apply Qle_shift_div_l; [exact Hw | lra].
  - rewrite warmup_linear_ramp by exact Hx.
    apply Qlt_shift_div_r; [exact Hw | lra].
  - intros y Hxy Hy.
    rewrite (warmup_linear_ramp x w), (warmup_linear_ramp y w) by lra.
    unfold Qdiv. apply Qmult_lt_compat_r; assumption.
  - rewrite warmup_linear_ramp by exact Hw. unfold Qdiv. ring.
Qed.

Lemma warmup_linear_warmup_phase_witness :
  warmup_linear (1 # 20) (1 # 10) == (1 # 20) / (1 # 10) /\
  warmup_linear (1 # 20) (1 # 10) < 1.
Proof.
  destruct (warmup_linear_warmup_phase (1 # 10) (1 # 20)) as (H1 & _ & H2 & _);
    [lra | lra | lra |].
  split; [exact H1 | exact H2].
Defined.

Lemma warmup_linear_unit (w x : Q) :
  0 <= x -> x <= 1 -> 0 <= warmup_linear x w /\ warmup_linear x w <= 1.
Proof.
  intros H0 H1. unfold warmup_linear.
  destruct (Qlt_le_dec x w) as [Hlt | Hle]; [| lra].
  assert (Hw : 0 < w) by lra. split.
  - apply Qle_shift_div_l; [exact Hw | lra].
  - apply Qle_shift_div_r; [exact Hw | lra].
Qed.

(** X2: whatever the warmup fraction, a progress in [[0, 1]] gives a
    multiplier in [[0, 1]], and a progress above 1 that is past the warmup
    gives a negative multiplier. *)
Theorem warmup_linear_range (w x : Q) :
  (0 <= x -> x <= 1 -> 0 <= warmup_linear x w /\ warmup_linear x w <= 1) /\
  (1 < x -> w <= x -> warmup_linear x w < 0).
Proof.
  split.
  - apply warmup_linear_unit.
  - intros H1 Hw. rewrite warmup_linear_decay by exact Hw. lra.
Qed.

Lemma warmup_linear_range_witness :
  0 <= warmup_linear (1 # 2) (1 # 10) /\ warmup_linear (7 # 6) (1 # 10) < 0.
Proof.
  pose proof (warmup_linear_range (1 # 10) (1 # 2)) as [Ha _].
  pose proof (warmup_linear_range (1 # 10) (7 # 6)) as [_ Hb].
  split; [apply Ha; lra | apply Hb; lra].
Defined.

End ScheduleExtras.

(** ** The optimizer steps of a run *)

Module StepsExtras.
Import Tensor Modeling OS Data Env Eval Train Spec.
Import ValidTheorems TrainFacts StepsFacts.

Lemma toy_env_ok (train dev test : list InputFeatures) :
  EnvOk (Toy.env train dev test).
Proof.
  constructor; simpl.
  - reflexivity.
  - intros _ l. symmetry. apply Permutation_rev.
Qed.

Lemma toy_five_succeeds :
  succeeded (train (M := Toy.modeling) (E := Toy.env Toy.five Toy.five Toy.five)
               (Toy.args 1 2 false false) Toy.fs_out) = true.
Proof. vm_compute. reflexivity. Qed.

Lemma toy_four_succeeds :
  succeeded (train (M := Toy.modeling) (E := Toy.env Toy.four Toy.five Toy.five)
               (Toy.args 2 2 false false) Toy.fs_out) = true.
Proof. vm_compute. reflexivity. Qed.

Lemma n_batches_exact (n bs : nat) :
  0 < bs -> n mod bs = 0 -> n_batches n bs = n / bs.
Proof.
  intros Hbs Hmod. unfold n_batches. symmetry.
  apply (Nat.div_unique (n + bs - 1) bs (n / bs) (bs - 1)); [lia |].
  pose proof (Nat.div_mod_eq n bs). lia.
Qed.

Lemma n_batches_partial (n bs : nat) :
  0 < bs -> n mod bs <> 0 -> n_batches n bs = n / bs + 1.
Proof.
  intros Hbs Hmod. unfold n_batches. symmetry.
  apply (Nat.div_unique (n + bs - 1) bs (n / bs + 1) (n mod bs - 1)).
  - pose proof (Nat.mod_upper_bound n bs). lia.
  - pose proof (Nat.div_mod_eq n bs). lia.
Qed.

Lemma progress_unit (g t : nat) :
  g < t ->
  (0 <= inject_Z (Z.of_nat g) / inject_Z (Z.of_nat t) /\
   inject_Z (Z.of_nat g) / inject_Z (Z.of_nat t) < 1)%Q.
Proof.
  intros Hg.
  assert (Ht : (0 < inject_Z (Z.of_nat t))%Q).
  { change 0%Q with (inject_Z 0). rewrite <- Zlt_Qlt. lia. }
  assert (H0 : (0 <= inject_Z (Z.of_nat g))%Q).
  { change 0%Q with (inject_Z 0). rewrite <- Zle_Qle. lia. }
  assert (Hlt : (inject_Z (Z.of_nat g) < inject_Z (Z.of_nat t))%Q).
  { rewrite <- Zlt_Qlt. lia. }
  split.
  - apply Qle_shift_div_l; [exact Ht | lra].
  - apply Qlt_shift_div_r; [exact Ht | lra].
Qed.

Section Steps.
Context {M : Modeling} {E : Env} {EO : EnvOk E}.

(** X3: a run of [train] that ends has taken one optimizer step for each
    batch of each epoch, [epochs * ceil(n / bs)] steps for [n] examples,
    while [t_total] is [floor(n / bs) * epochs]; step [g] was taken with
    the progress [g / t_total] and the learning rate
    [learning_rate * warmup_linear(g / t_total, warmup_proportion)]. With a
    last partial batch ([bs] does not divide [n]) the steps outnumber
    [t_total]. *)
Theorem train_takes_every_batch (args : Args.t) (st : TrainState) (fs fs' : FS) :
  train args fs = (Ok st, fs') ->
  exists exs : list Example,
    get_train_examples (Args.data_dir args) = Ok exs /\
    0 < Args.train_batch_size args /\
    t_total (optimizer st) =
      length exs / Args.train_batch_size args * Args.num_train_epochs args /\
    global_step st =
      Args.num_train_epochs args *
      n_batches (length exs) (Args.train_batch_size args) /\
    length (steps st) = global_step st /\
    (forall g, g < global_step st ->
       steps st !! g = Some (log_entry args (t_total (optimizer st)) g)) /\
    (length exs mod Args.train_batch_size args <> 0 ->
     1 <= Args.num_train_epochs args ->
     t_total (optimizer st) < global_step st).
Proof.
  intros H. apply train_log in H as (exs & Hexs & Hbs & Ht & Hg & Hs).
  exists exs. split_and!; try assumption.
  - rewrite Hs, length_map, length_seq. symmetry. exact Hg.
  - intros g Hlt. rewrite Hs, Ht, list_lookup_fmap.
    rewrite lookup_seq_lt by (rewrite <- Hg; exact Hlt). reflexivity.
  - intros Hmod He. rewrite Ht, Hg, n_batches_partial by assumption. nia.
Qed.

(** X4: when the batch size divides the number of training examples, a run
    that ends has taken exactly [t_total] optimizer steps, each with a
    progress in [[0, 1)] and, for a learning rate that is not negative, a
    learning rate that is not negative. *)
Theorem exact_batches_keep_schedule (args : Args.t) (st : TrainState)
    (fs fs' : FS) (exs : list Example) :
  train args fs = (Ok st, fs') ->
  get_train_examples (Args.data_dir args) = Ok exs ->
  length exs mod Args.train_batch_size args = 0 ->
  (0 <= Args.learning_rate args)%Q ->
  global_step st = t_total (optimizer st) /\
  forall (g : nat) (p x : Q),
    In (g, p, x) (steps st) ->
    g < t_total (optimizer st) /\ (0 <= p)%Q /\ (p < 1)%Q /\ (0 <= x)%Q.
Proof.
  intros H Hexs Hmod Hlr.
  apply train_log in H as (exs' & Hexs' & Hbs & Ht & Hg & Hs).
  rewrite Hexs in Hexs'. injection Hexs' as <-.
  cbv zeta in Hs. rewrite <- Hg, <- Ht in Hs.
  rewrite n_batches_exact in Hg by assumption.
  assert (Hgt : global_step st = t_total (optimizer st)) by (rewrite Hg, Ht; lia).
  split; [exact Hgt |].
  rewrite Hgt in Hs. clear Ht Hg Hgt.
  intros g p x Hin. rewrite Hs in Hin.
  apply in_map_iff in Hin as (k & Hk & Hin). apply in_seq in Hin.
  unfold log_entry in Hk. injection Hk as <- <- <-.
  assert (Hk : k < t_total (optimizer st)) by lia.
  destruct (progress_unit k _ Hk) as [Hp0 Hp1].
  split_and!; try assumption.
  apply Qmult_le_0_compat; [exact Hlr |].
  apply ScheduleExtras.warmup_linear_unit; [exact Hp0 | lra].
Qed.

Lemma first_epoch_needs_a_batch (args : Args.t) (feats : list InputFeatures)
    (valid : option (list InputFeatures)) (m0 : Model) (t epoch : nat)
    (st' : TrainState) (fs fs' : FS) :
  train_epoch args feats valid
    {| model := set_training m0 true;
       optimizer := make_optimizer m0 (Args.learning_rate args)
                      (Args.warmup_proportion args) t;
       global_step := 0; loss := None; valid_losses := [];
       best_valid_loss := None; steps := [] |} epoch fs = (Ok st', fs') ->
  t <> 0.
Proof.
  unfold train_epoch. intros H.
  inv_bind H st1 fs1 Hloop. inv_bind H l1 fs2 Hitem.
  destruct (DataLoader (Args.train_batch_size args) (RandomSampler epoch feats))
    as [| b batches] eqn:Eb.
  - simpl in Hloop. injection Hloop as <-. simpl in Hitem. discriminate Hitem.
  - apply (train_loop_log args t _ 0) in Hloop as [Hne _].
    + apply Hne. discriminate.
    + cbn [optimizer global_step steps]. auto.
Qed.

Lemma single_batch {A : Type} (bs : nat) (l : list A) :
  0 < length l -> length l < bs -> DataLoader bs l = [l].
Proof.
  intros H0 Hlt. unfold DataLoader.
  rewrite PyFacts.group_unfold; [| lia | intros ->; simpl in H0; lia].
  rewrite take_ge, drop_ge by lia. reflexivity.
Qed.

Lemma train_ends_full_batch (args : Args.t) (st : TrainState)
    (fs fs' : FS) (exs : list Example) :
  train args fs = (Ok st, fs') ->
  get_train_examples (Args.data_dir args) = Ok exs ->
  1 <= Args.num_train_epochs args ->
  1 <= Args.train_batch_size args /\
  Args.train_batch_size args <= length exs.
Proof.
  intros H Hexs He.
  apply train_inv in H
    as (tok & exs' & t & valid & m0 & fs1 & fs2 & _ & Hexs' & Ht & _ & Hloop).
  rewrite Hexs in Hexs'. injection Hexs' as <-.
  unfold num_train_steps in Ht.
  destruct (Args.train_batch_size args =? 0) eqn:E0; [discriminate Ht |].
  apply Nat.eqb_neq in E0. injection Ht as <-.
  destruct (Args.num_train_epochs args) as [| n] eqn:En; [lia |].
  simpl seq in Hloop. simpl foldIO in Hloop.
  apply bindIO_Ok_inv in Hloop as (s1 & fs3 & Hep & _).
  apply first_epoch_needs_a_batch in Hep.
  split; [lia |].
  destruct (le_lt_dec (Args.train_batch_size args) (length exs)) as [| Hlt];
    [assumption |].
  rewrite Nat.div_small in Hep by exact Hlt. simpl in Hep. congruence.
Qed.

(** X5: a run of [train] with at least one epoch ends only if the batch
    size is at least 1 and there is at least one full batch of training
    examples, and this is how the other runs end, the files untouched. A
    batch size of 0 raises [ZeroDivisionError] where the number of steps
    is computed. With a positive batch size and no training example the
    constructor of [RandomSampler] raises [ValueError]. With some examples
    but fewer than one batch, [t_total] is 0: when the rest of the set-up
    succeeds and the model gives a loss of one element on the only batch,
    the first division [global_step / t_total] raises
    [ZeroDivisionError]. *)
Theorem train_needs_a_full_batch (args : Args.t) (fs : FS) (tok : Tokenizer)
    (exs : list Example) :
  ABSATokenizer_from_pretrained (Args.bert_model args) = Ok tok ->
  get_train_examples (Args.data_dir args) = Ok exs ->
  let feats := convert_examples_to_features exs get_labels
                 (Args.max_seq_length args) tok in
  (forall st fs',
     train args fs = (Ok st, fs') -> 1 <= Args.num_train_epochs args ->
     1 <= Args.train_batch_size args /\
     Args.train_batch_size args <= length exs) /\
  (Args.train_batch_size args = 0 ->
   train args fs = (Raise ZeroDivisionError, fs)) /\
  (0 < Args.train_batch_size args -> exs = [] ->
   train args fs = (Raise ValueError, fs)) /\
  (forall (m0 : Model) (l : Tensor01),
     0 < length exs -> length exs < Args.train_batch_size args ->
     1 <= Args.num_train_epochs args ->
     (Args.do_valid args = true ->
      exists vex, get_dev_examples (Args.data_dir args) = Ok vex) ->
     from_pretrained (Args.bert_model args) (length get_labels) = Ok m0 ->
     BertAdam_init (Args.learning_rate args) (Args.warmup_proportion args) 0
       = Ok tt ->
     model_loss (set_training m0 true) (RandomSampler 0 feats) = Ok l ->
     numel l = 1 ->
     train args fs = (Raise ZeroDivisionError, fs)).
Proof.
  intros Htok Hexs feats. split_and!.
  - intros st fs' H HE. exact (train_ends_full_batch args st fs fs' exs H Hexs HE).
  - intros Hbs. unfold train, bindIO, lift, num_train_steps.
    rewrite Htok, Hexs, Hbs. reflexivity.
  - intros Hbs ->. unfold train, bindIO, lift, num_train_steps.
    rewrite Htok, Hexs.
    destruct (Args.train_batch_size args =? 0) eqn:E0;
      [apply Nat.eqb_eq in E0; lia |].
    pose proof (convert_length [] get_labels (Args.max_seq_length args) tok)
      as Hl.
    destruct (convert_examples_to_features [] get_labels
                (Args.max_seq_length args) tok) as [| f r];
      [reflexivity | discriminate Hl].
  - intros m0 l H0 Hlt HE Hdev Hm0 Hadam Hloss Hnum.
    assert (Hlen : length feats = length exs) by apply convert_length.
    assert (Hsampler : RandomSampler_init feats = Ok tt).
    { destruct feats as [| f r]; [simpl in Hlen; lia | reflexivity]. }
    assert (Hbatches : DataLoader (Args.train_batch_size args)
                         (RandomSampler 0 feats) = [RandomSampler 0 feats]).
    { apply single_batch;
        rewrite (Permutation_length (RandomSampler_perm 0 feats)); lia. }
    unfold train. unfold bindIO at 1, lift at 1. rewrite Htok.
    unfold bindIO at 1, lift at 1. rewrite Hexs.
    unfold bindIO at 1, lift at 1. unfold num_train_steps.
    destruct (Args.train_batch_size args =? 0) eqn:E0;
      [apply Nat.eqb_eq in E0; lia |].
    rewrite (Nat.div_small (length exs)) by exact Hlt.
    change (0 * Args.num_train_epochs args) with 0.
    unfold bindIO at 1, lift at 1. fold feats. rewrite Hsampler.
    unfold bindIO at 1, lift at 1. unfold DataLoader_init. rewrite E0.
    unfold bindIO at 1.
    destruct (Args.do_valid args) eqn:Ev.
    + destruct (Hdev eq_refl) as [vex Hvex].
      unfold bindIO at 1, lift at 1. rewrite Hvex. unfold retIO at 1.
      unfold bindIO at 1, lift at 1. rewrite Hm0.
      unfold bindIO at 1, lift at 1. rewrite Hadam.
      unfold bindIO at 1.
      destruct (Args.num_train_epochs args) as [| n]; [lia |].
      cbn [seq foldIO]. unfold bindIO at 1. unfold train_epoch at 1.
      unfold bindIO at 1, lift at 1. rewrite Hbatches.
      cbn [foldR]. unfold train_batch at 1. cbn [model global_step optimizer].
      rewrite Hloss. cbn [bindR]. rewrite Hnum. reflexivity.
    + unfold retIO at 1.
      unfold bindIO at 1, lift at 1. rewrite Hm0.
      unfold bindIO at 1, lift at 1. rewrite Hadam.
      unfold bindIO at 1.
      destruct (Args.num_train_epochs args) as [| n]; [lia |].
      cbn [seq foldIO]. unfold bindIO at 1. unfold train_epoch at 1.
      unfold bindIO at 1, lift at 1. rewrite Hbatches.
      cbn [foldR]. unfold train_batch at 1. cbn [model global_step optimizer].
      rewrite Hloss. cbn [bindR]. rewrite Hnum. reflexivity.
Qed.

End Steps.

Lemma train_takes_every_batch_witness :
  exists (st : TrainState) (fs' : FS),
    train (M := Toy.modeling) (E := Toy.env Toy.five Toy.five Toy.five)
      (Toy.args 1 2 false false) Toy.fs_out = (Ok st, fs') /\
    t_total (optimizer st) = 2 /\ global_step st = 3.
Proof.
  destruct (succeeded_inv _ toy_five_succeeds) as (st & fs' & H).
  exists st, fs'. split; [exact H |].
  destruct (train_takes_every_batch (M := Toy.modeling)
              (EO := toy_env_ok Toy.five Toy.five Toy.five)
              (Toy.args 1 2 false false) st Toy.fs_out fs' H)
    as (exs & Hexs & _ & Ht & Hg & _).
  injection Hexs as <-. split; [exact Ht | exact Hg].
Defined.

Lemma exact_batches_keep_schedule_witness :
  exists (st : TrainState) (fs' : FS),
    train (M := Toy.modeling) (E := Toy.env Toy.four Toy.five Toy.five)
      (Toy.args 2 2 false false) Toy.fs_out = (Ok st, fs') /\
    global_step st = t_total (optimizer st).
Proof.
  destruct (succeeded_inv _ toy_four_succeeds) as (st & fs' & H).
  exists st, fs'. split; [exact H |].
  refine (proj1 (exact_batches_keep_schedule (M := Toy.modeling)
                   (EO := toy_env_ok Toy.four Toy.five Toy.five)
                   (Toy.args 2 2 false false) st Toy.fs_out fs' Toy.four H _ _ _)).
  - reflexivity.
  - reflexivity.
  - simpl. lra.
Defined.

Lemma train_needs_a_full_batch_witness :
  train (M := Toy.modeling) (E := Toy.env [] Toy.five Toy.five)
    (Toy.args 1 2 false false) Toy.fs_out = (Raise ValueError, Toy.fs_out).
Proof.
  refine (proj1 (proj2 (proj2
            (train_needs_a_full_batch (M := Toy.modeling)
               (E := Toy.env [] Toy.five Toy.five) (EO := toy_env_ok _ _ _)
               (Toy.args 1 2 false false) Toy.fs_out tt [] _ _))) _ _).
  - reflexivity.
  - reflexivity.
  - simpl. lia.
  - reflexivity.
Defined.

End StepsExtras.

(** ** Inversion of the loops of [train] *)

Module TrainInversion.
Import Tensor Modeling OS Data Env Eval Train Spec.
Import ValidTheorems TrainFacts.

Section Inversion.
Context {M : Modeling} {E : Env}.

(** The state a validation block that ends leaves. *)
Lemma valid_block_inv (args : Args.t) (valid : list InputFeatures)
    (new_dirs : string) (epoch : nat) (st st' : TrainState) (fs fs' : FS) :
  valid_block args valid new_dirs epoch st fs = (Ok st', fs') ->
  exists (v : Q) (l : option Tensor01),
    validate (set_training (model st) false)
      (DataLoader (Args.train_batch_size args) (SequentialSampler valid))
      (loss st) = Ok (v, l) /\
    st' = {| model := set_training (set_training (model st) false) true;
             optimizer := optimizer st;
             global_step := global_step st;
             loss := l;
             valid_losses := valid_losses st ++ [v];
             best_valid_loss :=
               if below v (best_valid_loss st)
               then Some v else best_valid_loss st;
             steps := steps st |}.
Proof.
  unfold valid_block. intros H.
  apply bindIO_Ok_inv in H as (r & fs1 & Hr & H).
  apply lift_Ok_inv in Hr as [Hr ->].
  destruct r as [v l]. exists v, l. split; [exact Hr |].
  repeat (apply bindIO_Ok_inv in H as (? & ? & _ & H)).
  unfold retIO in H. injection H as <- _. reflexivity.
Qed.

(** An epoch that ends: the batches of training, then the validation block
    when there is a validation set. *)
Lemma train_epoch_inv (args : Args.t) (feats : list InputFeatures)
    (valid : option (list InputFeatures)) (epoch : nat)
    (st st' : TrainState) (fs fs' : FS) :
  train_epoch args feats valid st epoch fs = (Ok st', fs') ->
  exists (st1 : TrainState) (new_dirs : string) (fs1 : FS),
    foldR (train_batch args)
      (DataLoader (Args.train_batch_size args) (RandomSampler epoch feats)) st
      = Ok st1 /\
    is_Some (loss st1) /\
    path_join (Some (Args.output_dir args)) (pretty (epoch + 1)) = Ok new_dirs /\
    mkdir new_dirs fs = (Ok tt, fs1) /\
    match valid with
    | Some v => valid_block args v new_dirs epoch st1 fs1 = (Ok st', fs')
    | None => st' = st1 /\ fs' = fs1
    end.
Proof.
  unfold train_epoch. intros H.
  inv_bind H st1 fs1 Hloop. inv_bind H x fs2 Hitem.
  inv_bind H new_dirs fs3 Hdir. inv_bind H u fs4 Hmk. destruct u.
  exists st1, new_dirs, fs4. split_and!; try assumption.
  - destruct (loss st1); [eauto | discriminate Hitem].
  - destruct valid as [v |]; [exact H |].
    unfold retIO in H. injection H as <- <-. auto.
Qed.

(** A property of the state that the batches of training and the
    validation blocks keep holds at the end of every epoch. *)
Lemma train_epoch_keeps (P : TrainState -> Prop) (args : Args.t)
    (feats : list InputFeatures) (valid : option (list InputFeatures))
    (epoch : nat) (st st' : TrainState) (fs fs' : FS) :
  (forall s b s', P s -> train_batch args s b = Ok s' -> P s') ->
  (forall v nd s s' fs0 fs0',
     P s -> valid_block args v nd epoch s fs0 = (Ok s', fs0') -> P s') ->
  P st -> train_epoch args feats valid st epoch fs = (Ok st', fs') -> P st'.
Proof.
  intros Hbatch Hvalid Hst H.
  apply train_epoch_inv in H as (st1 & nd & fs1 & Hloop & _ & _ & _ & H).
  assert (H1 : P st1) by (eapply foldR_invariant; eauto).
  destruct valid as [v |]; [eauto |]. destruct H as [-> _]. exact H1.
Qed.

(** A run of [train] that ends, in full: what it loaded, the loop over the
    epochs, and the file it wrote last. *)
Lemma train_inv_full (args : Args.t) (st : TrainState) (fs fs' : FS) :
  train args fs = (Ok st, fs') ->
  exists (tok : Tokenizer) (exs : list Example) (t : nat)
         (valid : option (list InputFeatures)) (m0 : Model) (fs2 : FS)
         (p : string),
    get_train_examples (Args.data_dir args) = Ok exs /\
    num_train_steps (length exs) (Args.train_batch_size args)
      (Args.num_train_epochs args) = Ok t /\
    (Args.do_valid args = true <-> is_Some valid) /\
    from_pretrained (Args.bert_model args) (length get_labels) = Ok m0 /\
    foldIO
      (train_epoch args
         (convert_examples_to_features exs get_labels
            (Args.max_seq_length args) tok) valid)
      (seq 0 (Args.num_train_epochs args))
      {| model := set_training m0 true;
         optimizer := make_optimizer m0 (Args.learning_rate args)
                        (Args.warmup_proportion args) t;
         global_step := 0; loss := None; valid_losses := [];
         best_valid_loss := None; steps := [] |} fs = (Ok st, fs2) /\
    path_join (Some (Args.output_dir args))
      (if Args.do_valid args then "valid.json" else "model.pt") = Ok p /\
    write_file p
      (if Args.do_valid args
       then JsonFile (ValidLosses (valid_losses st))
       else ModelFile (model st)) fs2 = (Ok tt, fs') /\
    ABSATokenizer_from_pretrained (Args.bert_model args) = Ok tok /\
    BertAdam_init (Args.learning_rate args) (Args.warmup_proportion args) t
      = Ok tt /\
    match valid with
    | Some v =>
        exists vex : list Example,
          get_dev_examples (Args.data_dir args) = Ok vex /\
          v = convert_examples_to_features vex get_labels
                (Args.max_seq_length args) tok
    | None => True
    end /\
    RandomSampler_init
      (convert_examples_to_features exs get_labels
         (Args.max_seq_length args) tok) = Ok tt.
Proof.
  unfold train. intros H.
  inv_bind H tok fs1 Htok. inv_bind H exs fs2 Hexs. inv_bind H t fs3 Ht.
  inv_bind H us fs3' Hsampler.
  inv_bind H u fs4 Hinit. inv_bind H valid fs5 Hvalid.
  inv_bind H m0 fs6 Hm0. inv_bind H u' fs7 Hadam. inv_bind H st1 fs8 Hloop.
  inv_bind H u'' fs9 Hsave.
  unfold retIO in H. injection H as <- <-. destruct u''.
  assert (Hv : (Args.do_valid args = true <-> is_Some valid) /\ fs5 = fs /\
               match valid with
               | Some v =>
                   exists vex : list Example,
                     get_dev_examples (Args.data_dir args) = Ok vex /\
                     v = convert_examples_to_features vex get_labels
                           (Args.max_seq_length args) tok
               | None => True
               end).
  { destruct (Args.do_valid args).
    - inv_bind Hvalid vex fs10 Hdev. unfold retIO in Hvalid.
      injection Hvalid as <- <-. split_and!; [split; eauto | reflexivity | eauto].
    - unfold retIO in Hvalid. injection Hvalid as <- <-.
      split_and!; [| reflexivity | exact I].
      split; [discriminate | intros [? ?]; discriminate]. }
  destruct Hv as (Hv & -> & Hdev). destruct u', us.
  destruct (Args.do_valid args);
    inv_bind Hsave p fs10 Hp;
    exists tok, exs, t, valid, m0, fs8, p; split_and!; auto.
Qed.

(** A property of the state that holds when the loops start and that the
    batches of training and the validation blocks keep holds when [train]
    ends. *)
Lemma train_keeps (P : Model -> TrainState -> Prop) (args : Args.t)
    (st : TrainState) (fs fs' : FS) :
  (forall m0 t,
     P m0 {| model := set_training m0 true;
             optimizer := make_optimizer m0 (Args.learning_rate args)
                            (Args.warmup_proportion args) t;
             global_step := 0; loss := None; valid_losses := [];
             best_valid_loss := None; steps := [] |}) ->
  (forall m0 s b s', P m0 s -> train_batch args s b = Ok s' -> P m0 s') ->
  (forall m0 v nd ep s s' fs0 fs0',
     P m0 s -> valid_block args v nd ep s fs0 = (Ok s', fs0') -> P m0 s') ->
  train args fs = (Ok st, fs') ->
  exists m0 : Model,
    from_pretrained (Args.bert_model args) (length get_labels) = Ok m0 /\
    P m0 st.
Proof.
  intros Hinit Hbatch Hvalid H.
  apply train_inv_full in H
    as (tok & exs & t & valid & m0 & fs2 & p & _ & _ & _ & Hm0 & Hloop & _).
  exists m0. split; [exact Hm0 |].
  eapply (foldIO_invariant (P m0)); [| apply Hinit | exact Hloop].
  intros s ep fs0 s' fs0' Hs Hep.
  eapply (train_epoch_keeps (P m0)); eauto.
Qed.

End Inversion.
End TrainInversion.

(** ** The parameters of the optimizer *)

Module ParamExtras.
Import Tensor Modeling OS Data Env Eval Train TrainSpec.
Import ValidTheorems TrainFacts TrainInversion.

Lemma prefix_app (p s : string) :
  String.prefix p s = true -> exists r, s = p +:+ r.
Proof.
  revert s. induction p as [| a p IH]; intros s.
  - intros _. exists s. reflexivity.
  - destruct s as [| b s]; simpl; [discriminate |].
    destruct (ascii_dec a b) as [-> | Hne]; [| discriminate].
    intros H. apply IH in H as [r ->]. exists r. reflexivity.
Qed.

(** A name with 'LayerNorm.bias' in it has 'bias' in it. *)
Lemma LayerNorm_bias_has_bias (n : string) :
  Py.str_in "LayerNorm.bias" n = true -> Py.str_in "bias" n = true.
Proof.
  induction n as [| c n IH].
  - intros H. discriminate H.
  - intros H. cbn [Py.str_in] in H. apply orb_prop in H as [H | H].
    + apply prefix_app in H as [r ->]. destruct r; reflexivity.
    + cbn [Py.str_in]. rewrite (IH H). apply orb_true_r.
Qed.

Lemma any_in_no_decay (n : string) :
  Py.any_in no_decay n = Py.str_in "bias" n || Py.str_in "LayerNorm.weight" n.
Proof.
  unfold Py.any_in, no_decay. cbn [existsb]. rewrite orb_false_r.
  destruct (Py.str_in "bias" n) eqn:Eb; [reflexivity |].
  destruct (Py.str_in "LayerNorm.bias" n) eqn:El; [| reflexivity].
  apply LayerNorm_bias_has_bias in El. congruence.
Qed.

Lemma NoDup_fst_filter {A B : Type} (f : A * B -> bool) (l : list (A * B)) :
  NoDup (map fst l) -> NoDup (map fst (List.filter f l)).
Proof.
  induction l as [| x l IH]; simpl; [auto |].
  intros H. apply NoDup_cons in H as [Hx Hl].
  destruct (f x); simpl; [| auto].
  apply NoDup_cons. split; [| auto].
  intros Hin. apply Hx. apply list_elem_of_In in Hin.
  apply list_elem_of_In. apply in_map_iff in Hin as (y & Hy & Hin).
  apply filter_In in Hin as [Hin _]. apply in_map_iff. eauto.
Qed.

Lemma param_optimizer_spec (m : Model) (n : string) (p : TorchParam) :
  In (n, p) (param_optimizer m) <->
  m_params m !! n = Some p /\ requires_grad p = true /\
  Py.str_in "pooler" n = false.
Proof.
  unfold param_optimizer, named_parameters.
  rewrite !filter_In, <- list_elem_of_In, elem_of_map_to_list. simpl.
  rewrite negb_true_iff. tauto.
Qed.

Lemma group_params_spec (m : Model) (f : string -> bool) (n : string) :
  In n (map fst (List.filter (fun np => f np.1) (param_optimizer m))) <->
  trainable m n /\ f n = true.
Proof.
  rewrite in_map_iff. split.
  - intros ([n' p] & <- & H). apply filter_In in H as [H Hf].
    apply param_optimizer_spec in H. split; [exists p; exact H | exact Hf].
  - intros [(p & Hp) Hf]. exists (n, p). split; [reflexivity |].
    apply filter_In. split; [apply param_optimizer_spec, Hp | exact Hf].
Qed.

Section Params.
Context {M : Modeling} {E : Env}.

(** X6: the optimizer [train] builds has two groups, both with the learning
    rate of the command line. The first, with weight decay 0.01, holds the
    names of the parameters that require a gradient, have no 'pooler' in
    their name and neither 'bias' nor 'LayerNorm.weight'; the second, with
    weight decay 0, holds those with 'bias' or 'LayerNorm.weight' in their
    name. No name is in both and none is listed twice. *)
Theorem optimizer_groups_partition (m : Model) (x w : Q) (t : nat) :
  exists g0 g1 : ParamGroup,
    param_groups (make_optimizer m x w t) = [g0; g1] /\
    weight_decay g0 = (1 # 100)%Q /\ weight_decay g1 = 0%Q /\
    lr g0 = x /\ lr g1 = x /\
    (forall n, In n (params g0) <->
       trainable m n /\
       Py.str_in "bias" n || Py.str_in "LayerNorm.weight" n = false) /\
    (forall n, In n (params g1) <->
       trainable m n /\
       Py.str_in "bias" n || Py.str_in "LayerNorm.weight" n = true) /\
    NoDup (params g0 ++ params g1).
Proof.
  eexists _, _. split; [reflexivity |]. cbn [weight_decay lr params].
  split_and!; try reflexivity.
  - intros n.
    rewrite (group_params_spec m (fun n => negb (Py.any_in no_decay n))).
    rewrite negb_true_iff, any_in_no_decay. reflexivity.
  - intros n. rewrite (group_params_spec m (Py.any_in no_decay)).
    rewrite any_in_no_decay. reflexivity.
  - apply NoDup_app. split_and!.
    + apply NoDup_fst_filter. unfold param_optimizer.
      do 2 apply NoDup_fst_filter. apply NoDup_fst_map_to_list.
    + intros n H0 H1. apply list_elem_of_In in H0, H1.
      apply (group_params_spec m (fun n => negb (Py.any_in no_decay n))) in H0.
      apply (group_params_spec m (Py.any_in no_decay)) in H1.
      destruct H0 as [_ H0], H1 as [_ H1]. rewrite H1 in H0. discriminate.
    + apply NoDup_fst_filter. unfold param_optimizer.
      do 2 apply NoDup_fst_filter. apply NoDup_fst_map_to_list.
Qed.

End Params.
End ParamExtras.

(** ** What training leaves of the parameters *)

Module FrozenExtras.
Import Tensor Modeling OS Data Env Eval Train TrainSpec.
Import ValidTheorems TrainFacts TrainInversion ParamExtras.

Section Frozen.
Context {M : Modeling} {E : Env}.

Lemma step_param_flags (o : Optimizer) (grads : gmap string PTensor)
    (g : ParamGroup) (acc : gmap string OptState * gmap string TorchParam)
    (n n' : string) :
  requires_grad <$> ((step_param o grads g acc n).2 !! n') =
  requires_grad <$> (acc.2 !! n').
Proof.
  unfold step_param.
  destruct (acc.2 !! n) as [p |] eqn:Ep; [| reflexivity].
  destruct (grads !! n) as [grad |]; [| reflexivity].
  cbn [snd]. destruct (decide (n = n')) as [<- | Hne].
  - rewrite lookup_insert_eq, Ep. reflexivity.
  - rewrite lookup_insert_ne by exact Hne. reflexivity.
Qed.

Lemma step_groups_flags (o : Optimizer) (grads : gmap string PTensor)
    (gs : list ParamGroup)
    (acc : gmap string OptState * gmap string TorchParam) (n' : string) :
  requires_grad <$> ((fold_left (step_group o grads) gs acc).2 !! n') =
  requires_grad <$> (acc.2 !! n').
Proof.
  revert acc. induction gs as [| g gs IH]; intros acc; simpl; [reflexivity |].
  rewrite IH. unfold step_group. generalize (params g) as names.
  intros names. revert acc. induction names as [| n names IHn]; intros acc;
    simpl; [reflexivity |].
  rewrite IHn. apply step_param_flags.
Qed.

(** What the loops keep, relative to the pretrained model [m0]. *)
Let kept (m0 : Model) (st : TrainState) : Prop :=
  m_config (model st) = m_config m0 /\
  m_num_labels (model st) = m_num_labels m0 /\
  m_training (model st) = true /\
  (forall g, In g (param_groups (optimizer st)) ->
   forall n, In n (params g) ->
     exists p, m_params m0 !! n = Some p /\ requires_grad p = true) /\
  (forall n, requires_grad <$> (m_params (model st) !! n)
             = requires_grad <$> (m_params m0 !! n)) /\
  (forall n p, m_params m0 !! n = Some p -> requires_grad p = false ->
               m_params (model st) !! n = Some p).

Lemma train_batch_kept (args : Args.t) (m0 : Model) (st st' : TrainState)
    (batch : list InputFeatures) :
  kept m0 st -> train_batch args st batch = Ok st' -> kept m0 st'.
Proof.
  unfold kept, train_batch. intros (Hc & Hnl & Htr & Hg & Hf & Hz) H.
  apply bindR_Ok_inv in H as (l & _ & H).
  apply bindR_Ok_inv in H as ([] & _ & H).
  apply bindR_Ok_inv in H as (progress & _ & H). injection H as <-.
  cbn [model optimizer m_config m_num_labels m_params m_training param_groups].
  split_and!; try assumption.
  - intros g Hin n Hn. apply in_map_iff in Hin as (g0 & <- & Hg0).
    cbn [params] in Hn. eauto.
  - intros n. rewrite step_groups_flags. apply Hf.
  - intros n p Hp Hfalse. rewrite step_groups_frame; [eauto |].
    intros g Hin Hn. apply in_map_iff in Hin as (g0 & <- & Hg0).
    cbn [params] in Hn. destruct (Hg g0 Hg0 n Hn) as (p' & Hp' & Htrue).
    congruence.
Qed.

Lemma valid_block_kept (args : Args.t) (m0 : Model)
    (valid : list InputFeatures) (new_dirs : string) (epoch : nat)
    (st st' : TrainState) (fs fs' : FS) :
  kept m0 st -> valid_block args valid new_dirs epoch st fs = (Ok st', fs') ->
  kept m0 st'.
Proof.
  intros (Hc & Hnl & Htr & Hg & Hf & Hz) H.
  apply valid_block_inv in H as (v & l & _ & ->).
  unfold kept. cbn. auto 10.
Qed.

(** X7: a run of [train] that ends leaves the model with the configuration
    and the label count of the pretrained model, in training mode, with the
    same parameter names and the same [requires_grad] flags; a parameter
    that does not require a gradient has the value it had. *)
Theorem train_keeps_parameter_set (args : Args.t) (st : TrainState)
    (fs fs' : FS) :
  train args fs = (Ok st, fs') ->
  exists m0 : Model,
    from_pretrained (Args.bert_model args) (length get_labels) = Ok m0 /\
    m_config (model st) = m_config m0 /\
    m_num_labels (model st) = m_num_labels m0 /\
    m_training (model st) = true /\
    dom (m_params (model st)) = dom (m_params m0) /\
    (forall n, requires_grad <$> (m_params (model st) !! n)
               = requires_grad <$> (m_params m0 !! n)) /\
    (forall n p, m_params m0 !! n = Some p -> requires_grad p = false ->
                 m_params (model st) !! n = Some p).
Proof.
  intros H.
  apply (train_keeps kept) in H as (m0 & Hm0 & (Hc & Hnl & Htr & _ & Hf & Hz)).
  - exists m0. split_and!; try assumption.
    apply set_eq. intros n. rewrite !elem_of_dom. specialize (Hf n).
    destruct (m_params (model st) !! n), (m_params m0 !! n);
      try discriminate Hf; split; intros Hs; try exact Hs; eauto;
      destruct Hs as [? Hs]; discriminate Hs.
  - intros m0 t. unfold kept.
    cbn [model optimizer m_config m_num_labels m_params m_training set_training].
    split_and!; try reflexivity; [| auto].
    intros g Hg n Hn. unfold make_optimizer in Hg. cbn [param_groups] in Hg.
    destruct Hg as [<- | [<- | []]]; cbn [params] in Hn;
      apply in_map_iff in Hn as ([n' p] & <- & Hn);
      apply filter_In in Hn as [Hn _];
      apply param_optimizer_spec in Hn as (Hp & Htrue & _); eauto.
  - intros m0 s b s'. apply train_batch_kept.
  - intros m0 v nd ep s s' fs0 fs0'. apply valid_block_kept.
Qed.

End Frozen.

Lemma train_keeps_parameter_set_witness :
  exists (st : TrainState) (fs' : FS),
    train (M := Toy.modeling) (E := Toy.env Toy.five Toy.five Toy.five)
      (Toy.args 1 2 false false) Toy.fs_out = (Ok st, fs') /\
    m_training (model st) = true /\
    dom (m_params (model st)) = dom (m_params Toy.pretrained).
Proof.
  destruct (succeeded_inv _ StepsExtras.toy_five_succeeds) as (st & fs' & H).
  exists st, fs'. split; [exact H |].
  destruct (train_keeps_parameter_set (M := Toy.modeling)
              (E := Toy.env Toy.five Toy.five Toy.five)
              (Toy.args 1 2 false false) st Toy.fs_out fs' H)
    as (m0 & Hm0 & _ & _ & Htr & Hdom & _).
  injection Hm0 as <-. split; [exact Htr | exact Hdom].
Defined.

End FrozenExtras.

(** ** The head and the model outside their working range *)

Module HeadExtras.
Import Tensor Modeling OS Spec TensorFacts GRoIEFacts.

Section Head.
Context {M : Modeling} {MS : ModelingShapes M}.
Variables (K : nat) (config : Config) (nl : nat) (sd : gmap string PTensor)
  (training : bool) (layers : list Hidden) (mask : Mask).

(** X8: a head built with no branch raises on every input, with or without
    labels: [torch.stack] has nothing to stack. *)
Theorem head_without_branch_raises (labels : option (list Z)) :
  GRoIE.forward (GRoIE.init 0 config nl sd training) layers mask labels
    = Raise RuntimeError.
Proof. destruct labels; reflexivity. Qed.

Lemma head_Ok_layers (labels : option (list Z)) (t : Tensor01) (avg : Matrix) :
  GRoIE.forward (GRoIE.init K config nl sd training) layers mask labels
    = Ok (t, avg) ->
  1 <= K <= length layers.
Proof.
  intros H.
  apply forward_inv in H as (lg & ls & HK & Hlg & _).
  change (GRoIE.count (GRoIE.init K config nl sd training)) with K in *.
  split; [exact HK |].
  specialize (Hlg (K - 1) ltac:(lia)). unfold GRoIE.branch_logits in Hlg.
  apply bindR_Ok_inv in Hlg as (h & Hh & _).
  apply (neg_index_Ok_inv _ _ _ []) in Hh as [Hh _]. lia.
Qed.

Lemma head_few_layers :
  length layers < K ->
  GRoIE.forward (GRoIE.init K config nl sd training) layers mask None
    = Raise IndexError.
Proof.
  intros HL. unfold GRoIE.forward.
  change (GRoIE.count (GRoIE.init K config nl sd training)) with K.
  assert (HK : seq 0 K
               = seq 0 (length layers)
                 ++ seq (0 + length layers) (S (K - length layers - 1)))
    by (rewrite <- seq_app; f_equal; lia).
  rewrite HK, foldR_app.
  rewrite (forward_loop_ok _ layers mask None
             (HeadSpec.logits_of_branch config nl sd training layers mask)
             (fun _ => 0%Q));
    [| intros i Hi; apply branch_logits_init_ok; [exact MS | lia | lia]
     | intros; discriminate].
  cbn [bindR seq foldR]. unfold GRoIE.forward_body at 1.
  unfold GRoIE.branch_logits, Py.neg_index.
  replace (0 + length layers + 1 <=? length layers) with false
    by (symmetry; apply Nat.leb_gt; lia).
  rewrite andb_false_r. reflexivity.
Qed.

(** X9: branch [i] reads [layers[-i-1]], so a head of [K] branches returns
    only on at least [K] layers (and only when [K >= 1]); on fewer layers
    and without labels the call raises [IndexError], at the first branch
    that has no layer. *)
Theorem head_needs_a_layer_per_branch :
  (forall labels t avg,
     GRoIE.forward (GRoIE.init K config nl sd training) layers mask labels
       = Ok (t, avg) ->
     1 <= K <= length layers) /\
  (length layers < K ->
   GRoIE.forward (GRoIE.init K config nl sd training) layers mask None
     = Raise IndexError).
Proof. split; [exact head_Ok_layers | exact head_few_layers]. Qed.

End Head.

Lemma head_needs_a_layer_per_branch_witness :
  GRoIE.forward (M := Toy.modeling) (GRoIE.init 5 Toy.config 3 Toy.head_sd false)
    Toy.two_layers tt None = Raise IndexError.
Proof.
  apply (proj2 (head_needs_a_layer_per_branch (M := Toy.modeling)
                  (MS := HeadTheorems.toy_shapes) 5 Toy.config 3 Toy.head_sd
                  false Toy.two_layers tt)).
  simpl. lia.
Defined.

Section Model.
Context {M : Modeling} {MS : ModelingShapes M}.
Variables (config : Config) (nl : nat) (sd : gmap string PTensor)
  (training : bool) (ids : Ids) (seg msk : option Ids).

(** X10: the model reads the last 4 layers of the encoder; with an encoder
    of fewer than 4 layers [forward] never returns, and without labels the
    exception is [IndexError]. *)
Theorem model_needs_four_layers :
  num_hidden_layers config < 4 ->
  let self := BertForABSA.init config nl sd training in
  (forall labels out, BertForABSA.forward self ids seg msk labels <> Ok out) /\
  BertForABSA.forward self ids seg msk None = Raise IndexError.
Proof.
  intros H4 self. unfold self.
  pose proof (BertModel_layers config (sub "bert" sd) training ids seg msk) as HL.
  split.
  - intros labels out H. rewrite ModelFacts.forward_unfold in H.
    apply bindR_Ok_inv in H as ([t avg] & H & _).
    apply head_Ok_layers in H. lia.
  - rewrite ModelFacts.forward_unfold.
    rewrite head_few_layers by first [exact MS | lia].
    reflexivity.
Qed.

End Model.

Lemma model_needs_four_layers_witness :
  BertForABSA.forward (M := Toy.modeling)
    (BertForABSA.init Toy.shallow 3 (data <$> m_params Toy.pretrained) false)
    Toy.two_ids None None None = Raise IndexError.
Proof.
  apply (model_needs_four_layers (M := Toy.modeling)
           (MS := HeadTheorems.toy_shapes) Toy.shallow 3
           (data <$> m_params Toy.pretrained) false Toy.two_ids None None).
  simpl. lia.
Defined.

End HeadExtras.

(** ** The evaluation routine outside its working range *)

Module EvalExtras.
Import Tensor Modeling OS Data Env Eval.
Import ValidTheorems.

Section Eval.
Context {M : Modeling} {E : Env}.

(** X11: [test] writes its one file last: when it raises, the files are as
    they were. The data are loaded first, then the loader is built, then
    the checkpoint is read: with data that load, a batch size of 0 raises
    [ValueError] whatever the files are, and a positive batch size with no
    file at the checkpoint path raises [FileNotFoundError]. *)
Theorem test_failure_writes_nothing (args : Args.t) (new_dirs : option string)
    (dev_as_test : option bool) (fs : FS) :
  (forall (e : exn) (fs' : FS),
     test args new_dirs dev_as_test fs = (Raise e, fs') -> fs' = fs) /\
  (forall feats : list InputFeatures,
     test_features args dev_as_test = Ok feats ->
     Args.eval_batch_size args = 0 ->
     test args new_dirs dev_as_test fs = (Raise ValueError, fs)) /\
  (forall (feats : list InputFeatures) (p : string),
     test_features args dev_as_test = Ok feats ->
     0 < Args.eval_batch_size args ->
     path_join new_dirs "model.pt" = Ok p ->
     fs !! p = None ->
     test args new_dirs dev_as_test fs = (Raise FileNotFoundError, fs)).
Proof.
  split_and!.
  - intros e fs'. unfold test, bindIO, lift, torch_load, json_dump, write_file.
    destruct (test_features args dev_as_test) as [feats |]; [| congruence].
    destruct (DataLoader_init _) as [[] |]; [| congruence].
    destruct (path_join new_dirs "model.pt") as [p |]; [| congruence].
    destruct (fs !! p) as [[| m | j] |]; try congruence.
    destruct (test_loop _ _) as [full |]; [| congruence].
    destruct (path_join new_dirs "predictions.json") as [q |]; [| congruence].
    destruct (fs !! q) as [[| m' | j'] |]; intros H;
      first [discriminate H | congruence].
  - intros feats Hf Hbs. unfold test, bindIO, lift, DataLoader_init.
    rewrite Hf, Hbs. reflexivity.
  - intros feats p Hf Hbs Hp Hnone.
    unfold test, bindIO, lift, DataLoader_init, torch_load.
    rewrite Hf. destruct (Args.eval_batch_size args =? 0) eqn:H0;
      [apply Nat.eqb_eq in H0; lia |].
    rewrite Hp, Hnone. reflexivity.
Qed.

End Eval.

Lemma test_failure_writes_nothing_witness :
  test (M := Toy.modeling) (E := Toy.env Toy.five Toy.five Toy.five)
    Toy.eval_args (Some "out") None ∅ = (Raise FileNotFoundError, ∅).
Proof.
  refine (proj2 (proj2 (test_failure_writes_nothing (M := Toy.modeling)
                          (E := Toy.env Toy.five Toy.five Toy.five)
                          Toy.eval_args (Some "out") None ∅))
            Toy.five "out/model.pt" _ _ _ _).
  - reflexivity.
  - simpl. lia.
  - reflexivity.
  - reflexivity.
Defined.

End EvalExtras.

(** ** Validation and what [train] saves *)

Module ValidExtras.
Import Tensor Modeling OS Data Env Eval Train TrainSpec.
Import ValidTheorems TrainFacts StepsFacts TrainInversion.

Lemma toy_valid_succeeds :
  succeeded
    (train (M := Toy.modeling) (E := Toy.env Toy.five Toy.five Toy.five)
       (Toy.args 2 2 true false) Toy.fs_out) = true.
Proof. vm_compute. reflexivity. Qed.

Section Valid.
Context {M : Modeling} {E : Env} {EO : EnvOk E}.

Lemma valid_block_empty (args : Args.t) (new_dirs : string) (epoch : nat)
    (st : TrainState) (fs : FS) :
  valid_block args [] new_dirs epoch st fs = (Raise ZeroDivisionError, fs).
Proof. reflexivity. Qed.

(** X12: on an empty validation set the validation block raises
    [ZeroDivisionError], the sum of the batch losses being divided by the
    size 0, before it writes anything; so a run of [train] with validation
    and at least one epoch that ends had a validation set with an
    example. *)
Theorem validation_needs_examples (args : Args.t) :
  (forall (new_dirs : string) (epoch : nat) (st : TrainState) (fs : FS),
     valid_block args [] new_dirs epoch st fs = (Raise ZeroDivisionError, fs)) /\
  (forall (st : TrainState) (fs fs' : FS),
     train args fs = (Ok st, fs') ->
     Args.do_valid args = true -> 1 <= Args.num_train_epochs args ->
     exists vex : list Example,
       get_dev_examples (Args.data_dir args) = Ok vex /\ vex <> []).
Proof.
  split; [exact (valid_block_empty args) |].
  intros st fs fs' H Hv HE.
  apply train_inv_full in H
    as (tok & exs & t & valid & m0 & fs2 & p & _ & _ & Hiff & _ & Hloop & _
        & _ & _ & _ & Hdev & _).
  apply Hiff in Hv as [v ->]. destruct Hdev as (vex & Hvex & ->).
  exists vex. split; [exact Hvex |]. intros ->.
  destruct (Args.num_train_epochs args) as [| n]; [lia |].
  cbn [seq foldIO] in Hloop.
  apply bindIO_Ok_inv in Hloop as (s1 & fs1 & Hep & _).
  apply train_epoch_inv in Hep as (st1 & nd & fs3 & _ & _ & _ & _ & Hvb).
  pose proof (convert_length [] get_labels (Args.max_seq_length args) tok) as Hl.
  destruct (convert_examples_to_features [] get_labels
              (Args.max_seq_length args) tok) as [| f l];
    [| discriminate Hl].
  rewrite valid_block_empty in Hvb. discriminate Hvb.
Qed.

Lemma train_batch_history (args : Args.t) (s s' : TrainState)
    (b : list InputFeatures) :
  train_batch args s b = Ok s' ->
  valid_losses s' = valid_losses s /\ best_valid_loss s' = best_valid_loss s.
Proof.
  unfold train_batch. intros H.
  apply bindR_Ok_inv in H as (l & _ & H).
  apply bindR_Ok_inv in H as ([] & _ & H).
  apply bindR_Ok_inv in H as (progress & _ & H). injection H as <-.
  split; reflexivity.
Qed.

Lemma train_loop_history (args : Args.t) (bs : list (list InputFeatures))
    (s s' : TrainState) :
  foldR (train_batch args) bs s = Ok s' ->
  valid_losses s' = valid_losses s /\ best_valid_loss s' = best_valid_loss s.
Proof.
  intros H.
  apply (foldR_invariant
           (fun x => valid_losses x = valid_losses s /\
                     best_valid_loss x = best_valid_loss s)
           (train_batch args) bs s s'); [| auto | exact H].
  intros x b x' [H1 H2] Hb. apply train_batch_history in Hb as [-> ->]. auto.
Qed.

(** X13: what a run of [train] that ends has recorded and saved. With
    validation there is one validation loss per epoch, in [valid_losses],
    and the file valid.json of the output directory holds that list.
    Without validation nothing is recorded and the file model.pt of the
    output directory holds the model as training left it. *)
Theorem train_saves_history (args : Args.t) (st : TrainState) (fs fs' : FS) :
  train args fs = (Ok st, fs') ->
  if Args.do_valid args
  then length (valid_losses st) = Args.num_train_epochs args /\
       exists p : string,
         path_join (Some (Args.output_dir args)) "valid.json" = Ok p /\
         fs' !! p = Some (JsonFile (ValidLosses (valid_losses st)))
  else valid_losses st = [] /\ best_valid_loss st = None /\
       exists p : string,
         path_join (Some (Args.output_dir args)) "model.pt" = Ok p /\
         fs' !! p = Some (ModelFile (model st)).
Proof.
  intros H.
  apply train_inv_full in H
    as (tok & exs & t & valid & m0 & fs2 & p & _ & _ & Hiff & _ & Hloop & Hp
        & Hw & _).
  assert (Hfs : fs' !! p
                = Some (if Args.do_valid args
                        then JsonFile (ValidLosses (valid_losses st))
                        else ModelFile (model st))).
  { unfold write_file in Hw. destruct (fs2 !! p) as [[| m | j] |];
      first [discriminate Hw | injection Hw as <-; apply lookup_insert_eq]. }
  apply (foldIO_seq_invariant
           (fun k s => match valid with
                       | Some _ => length (valid_losses s) = k
                       | None => valid_losses s = [] /\ best_valid_loss s = None
                       end)) in Hloop.
  - destruct (Args.do_valid args).
    + destruct (proj1 Hiff eq_refl) as [v ->]. split; [exact Hloop | eauto].
    + destruct valid as [v |];
        [assert (Hf : false = true) by (apply Hiff; eauto); discriminate Hf |].
      destruct Hloop. eauto.
  - intros k s fs0 s' fs0' Hs Hep.
    apply train_epoch_inv in Hep as (st1 & nd & fs3 & Hb & _ & _ & _ & Hvb).
    apply train_loop_history in Hb as [Hl Hbest].
    destruct valid as [v |].
    + apply valid_block_inv in Hvb as (x & l & _ & ->). cbn [valid_losses].
      rewrite length_app, Hl, Hs. reflexivity.
    + destruct Hvb as [-> _]. rewrite Hl, Hbest. exact Hs.
  - destruct valid; simpl; auto.
Qed.

(** X14: at the end of [train], once [best_valid_loss] has left its
    initial value (the [float('inf')] of the code, [None] here) it is one
    of the validation losses recorded and no recorded loss is smaller: the
    comparison [valid_loss < best_valid_loss] replaces it by a smaller loss
    only. (The losses of the model are rationals; a loss that is not a
    number compares false, is recorded and leaves [best_valid_loss] as it
    is, which the statement allows.) *)
Theorem best_valid_loss_is_least (args : Args.t) (st : TrainState)
    (fs fs' : FS) :
  train args fs = (Ok st, fs') ->
  match best_valid_loss st with
  | Some b => least b (valid_losses st)
  | None => True
  end.
Proof.
  intros H.
  apply (train_keeps
           (fun _ s => match best_valid_loss s with
                       | Some b => least b (valid_losses s)
                       | None => valid_losses s = []
                       end)) in H as (m0 & _ & H).
  - destruct (best_valid_loss st); [exact H | exact I].
  - reflexivity.
  - intros m0 s b s' Hs Hb. apply train_batch_history in Hb as [-> ->]. exact Hs.
  - intros m0 v nd ep s s' fs0 fs0' Hs Hvb.
    apply valid_block_inv in Hvb as (x & l & _ & ->).
    cbn [best_valid_loss valid_losses]. unfold least in *.
    unfold below. destruct (best_valid_loss s) as [b |].
    + destruct Hs as [Hin Hle]. destruct (Qlt_le_dec x b) as [Hlt | Hge].
      * split; [apply in_or_app; right; left; reflexivity |].
        intros y Hy Hyx. apply in_app_or in Hy as [Hy | [<- | []]].
        -- apply (Hle y Hy). apply (Qlt_trans _ x); assumption.
        -- exact (Qlt_irrefl _ Hyx).
      * split; [apply in_or_app; left; exact Hin |].
        intros y Hy Hyb. apply in_app_or in Hy as [Hy | [<- | []]];
          [exact (Hle y Hy Hyb) | exact (Qle_not_lt _ _ Hge Hyb)].
    + rewrite Hs. split; [left; reflexivity |].
      intros y [<- | []]. apply Qlt_irrefl.
Qed.

End Valid.

Lemma validation_needs_examples_witness :
  exists vex : list InputFeatures,
    get_dev_examples (Env := Toy.env Toy.five Toy.five Toy.five) "data" = Ok vex /\
    vex <> [].
Proof.
  destruct (succeeded_inv _ toy_valid_succeeds) as (st & fs' & H).
  refine (proj2 (validation_needs_examples (M := Toy.modeling)
                   (E := Toy.env Toy.five Toy.five Toy.five)
                   (EO := StepsExtras.toy_env_ok _ _ _)
                   (Toy.args 2 2 true false)) st Toy.fs_out fs' H _ _).
  - reflexivity.
  - simpl. lia.
Defined.

Lemma train_saves_history_witness :
  exists (st : TrainState) (fs' : FS),
    train (M := Toy.modeling) (E := Toy.env Toy.five Toy.five Toy.five)
      (Toy.args 2 2 true false) Toy.fs_out = (Ok st, fs') /\
    length (valid_losses st) = 2 /\
    fs' !! "out/valid.json" = Some (JsonFile (ValidLosses (valid_losses st))).
Proof.
  destruct (succeeded_inv _ toy_valid_succeeds) as (st & fs' & H).
  exists st, fs'. split; [exact H |].
  destruct (train_saves_history (M := Toy.modeling)
              (E := Toy.env Toy.five Toy.five Toy.five)
              (Toy.args 2 2 true false) st Toy.fs_out fs' H) as (Hl & p & Hp & Hf).
  injection Hp as <-. split; [exact Hl | exact Hf].
Defined.

Lemma best_valid_loss_is_least_witness :
  exists (st : TrainState) (fs' : FS),
    train (M := Toy.modeling) (E := Toy.env Toy.five Toy.five Toy.five)
      (Toy.args 2 2 true false) Toy.fs_out = (Ok st, fs') /\
    match best_valid_loss st with
    | Some b => least b (valid_losses st)
    | None => True
    end.
Proof.
  destruct (succeeded_inv _ toy_valid_succeeds) as (st & fs' & H).
  exists st, fs'. split; [exact H |].
  exact (best_valid_loss_is_least (M := Toy.modeling)
           (E := Toy.env Toy.five Toy.five Toy.five)
           (Toy.args 2 2 true false) st Toy.fs_out fs' H).
Defined.

End ValidExtras.

(** ** Paths *)

Module PathFacts.
Import OS.

Lemma length_append (a b : string) :
  String.length (a +:+ b) = String.length a + String.length b.
Proof.
  induction a as [| c a IH]; [reflexivity |].
  change (String c a +:+ b) with (String c (a +:+ b)).
  simpl. rewrite IH. reflexivity.
Qed.

(** The decimal numeral of a number starts with a digit. *)
Lemma pretty_N_go_head (x : N) (s : string) :
  (exists c r, s = String c r /\ c <> "/"%char) ->
  exists c r, pretty_N_go x s = String c r /\ c <> "/"%char.
Proof.
  revert s. induction (N.lt_wf_0 x) as [x _ IH]; intros s Hs.
  assert (x = 0 \/ 0 < x)%N as [-> | Hx] by lia.
  - rewrite pretty_N_go_0. exact Hs.
  - rewrite pretty_N_go_step by exact Hx. apply IH.
    + apply N.div_lt; [exact Hx | reflexivity].
    + eexists _, _. split; [reflexivity |].
      unfold pretty_N_char. repeat case_match; discriminate.
Qed.

Lemma pretty_nat_head (n : nat) :
  exists c r, pretty n = String c r /\ c <> "/"%char.
Proof.
  unfold pretty, pretty_nat, pretty, pretty_N.
  destruct (decide (N.of_nat n = 0%N)) as [_ | Hn].
  - exists "0"%char, ""%string. split; [reflexivity | discriminate].
  - rewrite pretty_N_go_step by lia. apply pretty_N_go_head.
    eexists _, _. split; [reflexivity |].
    unfold pretty_N_char. repeat case_match; discriminate.
Qed.

Lemma prefix_slash_pretty (n : nat) : String.prefix "/" (pretty n) = false.
Proof.
  destruct (pretty_nat_head n) as (c & r & -> & Hc). cbn [String.prefix].
  destruct (ascii_dec "/" c) as [<- | _]; [contradiction | reflexivity].
Qed.

Lemma pretty_nat_length (n : nat) : 1 <= String.length (pretty n).
Proof. destruct (pretty_nat_head n) as (c & r & -> & _). simpl. lia. Qed.

(** The length of a joined path, for a second component that is not
    absolute: the separator is added or not according to the first. *)
Lemma path_join_length (a : string) :
  exists k : nat,
    forall b p : string,
      String.prefix "/" b = false -> path_join (Some a) b = Ok p ->
      String.length p = String.length a + k + String.length b.
Proof.
  unfold path_join. destruct (String.eqb a "" || ends_with_slash a).
  - exists 0. intros b p -> [= <-]. rewrite length_append. lia.
  - exists 1. intros b p -> [= <-]. rewrite !length_append. simpl. lia.
Qed.

Lemma append_assoc (a b c : string) : (a +:+ b) +:+ c = a +:+ (b +:+ c).
Proof.
  induction a as [| x a IH]; [reflexivity |].
  change (String x a +:+ b) with (String x (a +:+ b)).
  change (String x (a +:+ b) +:+ c) with (String x ((a +:+ b) +:+ c)).
  rewrite IH. reflexivity.
Qed.

(** The decimal numeral of a number ends with a digit. *)
Lemma pretty_N_go_suffix (x : N) (s : string) :
  exists pre : string, pretty_N_go x s = pre +:+ s.
Proof.
  revert s. induction (N.lt_wf_0 x) as [x _ IH]; intros s.
  assert (x = 0 \/ 0 < x)%N as [-> | Hx] by lia.
  - exists ""%string. rewrite pretty_N_go_0. reflexivity.
  - rewrite pretty_N_go_step by exact Hx.
    destruct (IH (x `div` 10)%N
                ltac:(apply N.div_lt; [exact Hx | reflexivity])
                (String (pretty_N_char (x `mod` 10)) s)) as [pre ->].
    exists (pre +:+ String (pretty_N_char (x `mod` 10)) "").
    rewrite append_assoc. reflexivity.
Qed.

Lemma pretty_nat_last (n : nat) :
  exists (x : string) (c : ascii),
    pretty n = x +:+ String c "" /\ c <> "/"%char.
Proof.
  unfold pretty, pretty_nat, pretty, pretty_N.
  destruct (decide (N.of_nat n = 0%N)) as [_ | Hn].
  - exists ""%string, "0"%char. split; [reflexivity | discriminate].
  - rewrite pretty_N_go_step by lia.
    destruct (pretty_N_go_suffix (N.of_nat n `div` 10)
                (String (pretty_N_char (N.of_nat n `mod` 10)) "")) as [pre ->].
    eexists _, _. split; [reflexivity |].
    unfold pretty_N_char. repeat case_match; discriminate.
Qed.

(** A path that ends with a character other than the slash is kept as it
    is. *)
Lemma strip_slashes_snoc (x : string) (c : ascii) :
  c <> "/"%char -> strip_slashes (x +:+ String c "") = x +:+ String c "".
Proof.
  intros Hc. induction x as [| a x IH].
  - change ("" +:+ String c "") with (String c ""). cbn [strip_slashes].
    destruct (Ascii.eqb_spec c "/"); [contradiction | reflexivity].
  - change (String a x +:+ String c "") with (String a (x +:+ String c "")).
    cbn [strip_slashes]. rewrite IH.
    destruct x; reflexivity.
Qed.

Lemma norm_snoc (x : string) (c : ascii) :
  c <> "/"%char -> norm (x +:+ String c "") = x +:+ String c "".
Proof.
  intros Hc. unfold norm. rewrite strip_slashes_snoc by exact Hc.
  destruct x; reflexivity.
Qed.

(** The directory of an epoch, [os.path.join(output_dir, str(epoch + 1))],
    is a path without trailing slash. *)
Lemma norm_join_pretty (a : string) (n : nat) (d : string) :
  path_join (Some a) (pretty n) = Ok d -> norm d = d.
Proof.
  destruct (pretty_nat_last n) as (x & c & Hx & Hc).
  unfold path_join. rewrite prefix_slash_pretty, Hx.
  destruct (String.eqb a "" || ends_with_slash a); intros [= <-].
  - rewrite <- append_assoc. apply norm_snoc, Hc.
  - rewrite <- !append_assoc. apply norm_snoc, Hc.
Qed.

End PathFacts.

(** ** The directories of a run *)

Module FilesExtras.
Import Tensor Modeling OS Data Env Eval Train Main TrainSpec.
Import ValidTheorems TrainFacts TrainInversion.

Create HintDb keeps discriminated.

Lemma kept_refl (fs : FS) : directories_kept fs fs.
Proof. intros p H. exact H. Qed.

Lemma kept_trans (fs1 fs2 fs3 : FS) :
  directories_kept fs1 fs2 -> directories_kept fs2 fs3 ->
  directories_kept fs1 fs3.
Proof. intros H1 H2 p H. apply H2, H1, H. Qed.

Lemma kept_insert (fs : FS) (q : string) (f : File) :
  fs !! q <> Some Directory -> directories_kept fs (<[q := f]> fs).
Proof.
  intros Hq p H. destruct (decide (q = p)) as [-> | Hne]; [contradiction |].
  rewrite lookup_insert_ne by exact Hne. exact H.
Qed.

Lemma kept_delete (fs : FS) (q : string) :
  fs !! q <> Some Directory -> directories_kept fs (delete q fs).
Proof.
  intros Hq p H. destruct (decide (q = p)) as [-> | Hne]; [contradiction |].
  rewrite lookup_delete_ne by exact Hne. exact H.
Qed.

Lemma keeps_ret {A : Type} (a : A) : keeps_directories (retIO a).
Proof. intros fs r fs' [= _ <-]. apply kept_refl. Qed.

Lemma keeps_lift {A : Type} (x : result A) : keeps_directories (lift x).
Proof. intros fs r fs' [= _ <-]. apply kept_refl. Qed.

Lemma keeps_bind {A B : Type} (m : IO A) (f : A -> IO B) :
  keeps_directories m -> (forall a, keeps_directories (f a)) ->
  keeps_directories (bindIO m f).
Proof.
  intros Hm Hf fs r fs'. unfold bindIO.
  destruct (m fs) as [[a | e] fs1] eqn:E1.
  - intros H. eapply kept_trans; [exact (Hm _ _ _ E1) | exact (Hf a _ _ _ H)].
  - intros [= _ <-]. exact (Hm _ _ _ E1).
Qed.

Lemma keeps_foldIO {A St : Type} (body : St -> A -> IO St) (l : list A) :
  (forall s x, keeps_directories (body s x)) ->
  forall s, keeps_directories (foldIO body l s).
Proof.
  intros Hb. induction l as [| x l IH]; intros s; simpl.
  - apply keeps_ret.
  - apply keeps_bind; [apply Hb | exact IH].
Qed.

Lemma keeps_mkdir (p : string) : keeps_directories (mkdir p).
Proof.
  intros fs r fs'. unfold mkdir.
  destruct (String.eqb (norm p) ""); [intros [= _ <-]; apply kept_refl |].
  destruct (String.eqb (norm p) "/"); [intros [= _ <-]; apply kept_refl |].
  destruct (check_dirs fs (ancestors p)); [| intros [= _ <-]; apply kept_refl].
  destruct (fs !! norm p) eqn:Ep; intros [= _ <-].
  - apply kept_refl.
  - apply kept_insert. rewrite Ep. discriminate.
Qed.

Lemma keeps_ensure_dir (e : exn) (d : string) :
  keeps_directories (ensure_dir e d).
Proof.
  intros fs r fs'. unfold ensure_dir.
  destruct (fs !! d) as [[| m | j] |] eqn:Ep; intros [= _ <-];
    try apply kept_refl.
  apply kept_insert. rewrite Ep. discriminate.
Qed.

Lemma keeps_makedirs (p : string) : keeps_directories (makedirs p).
Proof.
  intros fs r fs'. unfold makedirs.
  destruct (String.eqb (norm p) ""); [intros [= _ <-]; apply kept_refl |].
  apply keeps_bind.
  - apply keeps_foldIO. intros s x. apply keeps_ensure_dir.
  - intros _. apply keeps_ensure_dir.
Qed.

(** Directories that exist keep a path walkable. *)
Lemma check_dirs_kept (fs fs' : FS) (ds : list string) :
  directories_kept fs fs' -> check_dirs fs ds = Ok tt ->
  check_dirs fs' ds = Ok tt.
Proof.
  intros Hk. induction ds as [| d ds IH]; simpl; [reflexivity |].
  destruct (fs !! d) as [[| m | j] |] eqn:Ed; try discriminate.
  rewrite (Hk d Ed). exact IH.
Qed.

Lemma mkdir_Ok (p : string) (fs fs' : FS) :
  mkdir p fs = (Ok tt, fs') ->
  norm p <> ""%string /\ check_dirs fs (ancestors p) = Ok tt /\
  fs !! norm p = None /\ fs' = <[norm p := Directory]> fs.
Proof.
  unfold mkdir.
  destruct (String.eqb_spec (norm p) ""); [intros H; discriminate H |].
  destruct (String.eqb (norm p) "/"); [intros H; discriminate H |].
  destruct (check_dirs fs (ancestors p)) as [[] |]; [| intros H; discriminate H].
  destruct (fs !! norm p); intros H; [discriminate H |].
  injection H as <-. auto.
Qed.

Lemma mkdir_exists (p : string) (fs : FS) (f : File) :
  norm p <> ""%string -> check_dirs fs (ancestors p) = Ok tt ->
  fs !! norm p = Some f -> mkdir p fs = (Raise FileExistsError, fs).
Proof.
  intros Hp Hc Hf. unfold mkdir.
  destruct (String.eqb_spec (norm p) ""); [contradiction |].
  destruct (String.eqb (norm p) "/"); [reflexivity |].
  rewrite Hc, Hf. reflexivity.
Qed.

(** The walk of [makedirs] down to the path: it adds directories only,
    and stops at the first regular file. *)
Lemma ensure_dirs_spec (ds : list string) (fs fs' : FS) (r : result unit) :
  foldIO (fun _ d => ensure_dir NotADirectoryError d) ds tt fs = (r, fs') ->
  (forall k f, fs' !! k = Some f -> f <> Directory -> fs !! k = Some f) /\
  (r = Ok tt \/
   r = Raise NotADirectoryError /\
   exists d f, In d ds /\ fs !! d = Some f /\ f <> Directory).
Proof.
  revert fs. induction ds as [| d ds IH]; intros fs; cbn [foldIO].
  - unfold retIO. intros [= <- <-]. auto.
  - unfold bindIO, ensure_dir.
    destruct (fs !! d) as [[| m | j] |] eqn:Ed.
    + intros H. apply IH in H as [H1 [H2 | (H2 & d' & f & Hin & Hf & Hn)]];
        (split; [exact H1 |]); [left; exact H2 |].
      right. split; [exact H2 |]. exists d', f. simpl. auto.
    + intros [= <- <-]. split; [auto |]. right. split; [reflexivity |].
      exists d, (ModelFile m). simpl. split_and!; [auto | exact Ed | discriminate].
    + intros [= <- <-]. split; [auto |]. right. split; [reflexivity |].
      exists d, (JsonFile j). simpl. split_and!; [auto | exact Ed | discriminate].
    + intros H.
      assert (Hback : forall k f, (<[d := Directory]> fs) !! k = Some f ->
                        f <> Directory -> fs !! k = Some f).
      { intros k f Hk Hn. destruct (decide (d = k)) as [<- | Hne].
        - rewrite lookup_insert_eq in Hk. congruence.
        - rewrite lookup_insert_ne in Hk by exact Hne. exact Hk. }
      apply IH in H as [H1 [H2 | (H2 & d' & f & Hin & Hf & Hn)]].
      * split; [| left; exact H2].
        intros k0 f0 Hk0 Hn0. apply Hback; auto.
      * split; [intros k0 f0 Hk0 Hn0; apply Hback; auto |].
        right. split; [exact H2 |]. exists d', f. simpl.
        split_and!; [auto | apply Hback; assumption | exact Hn].
Qed.

(** How [os.makedirs(path, exist_ok=True)] ends. *)
Lemma makedirs_spec (p : string) (fs fs' : FS) (r : result unit) :
  makedirs p fs = (r, fs') ->
  r = Ok tt /\ fs' !! norm p = Some Directory \/
  r = Raise FileNotFoundError /\ p = ""%string /\ fs' = fs \/
  (r = Raise FileExistsError /\
   exists f, fs !! norm p = Some f /\ f <> Directory) \/
  (r = Raise NotADirectoryError /\
   exists d f, In d (ancestors p) /\ fs !! d = Some f /\ f <> Directory).
Proof.
  unfold makedirs. destruct (String.eqb_spec (norm p) "") as [E0 | E0].
  - intros [= <- <-]. right. left. split_and!; try reflexivity.
    unfold norm in E0. destruct p as [| c p']; [reflexivity |].
    destruct (String.eqb (strip_slashes (String c p')) "") eqn:Es;
      [discriminate E0 |].
    rewrite E0 in Es. discriminate Es.
  - unfold bindIO.
    destruct (foldIO _ (ancestors p) tt fs) as [[[] | e] fs1] eqn:Ef.
    + apply ensure_dirs_spec in Ef as [Hback _]. unfold ensure_dir.
      destruct (fs1 !! norm p) as [[| m | j] |] eqn:Ep; intros [= <- <-].
      * left. auto.
      * right. right. left. split; [reflexivity |].
        exists (ModelFile m). split; [apply Hback; [exact Ep | discriminate]
                                     | discriminate].
      * right. right. left. split; [reflexivity |].
        exists (JsonFile j). split; [apply Hback; [exact Ep | discriminate]
                                    | discriminate].
      * left. split; [reflexivity | apply lookup_insert_eq].
    + intros [= <- <-].
      apply ensure_dirs_spec in Ef as [_ [Hr | (Hr & d & f & Hin & Hf & Hn)]];
        [discriminate Hr |].
      right. right. right. split; [exact Hr |]. eauto.
Qed.

Lemma keeps_write_file (p : string) (f : File) :
  keeps_directories (write_file p f).
Proof.
  intros fs r fs'. unfold write_file.
  destruct (fs !! p) as [[| m | j] |] eqn:Ep; intros [= _ <-];
    try apply kept_refl; apply kept_insert; rewrite Ep; discriminate.
Qed.

Lemma keeps_remove (p : string) : keeps_directories (remove p).
Proof.
  intros fs r fs'. unfold remove.
  destruct (fs !! p) as [[| m | j] |] eqn:Ep; intros [= _ <-];
    try apply kept_refl; apply kept_delete; rewrite Ep; discriminate.
Qed.

Lemma keeps_torch_load (p : string) : keeps_directories (torch_load p).
Proof.
  intros fs r fs'. unfold torch_load.
  destruct (fs !! p) as [[| m | j] |]; intros [= _ <-]; apply kept_refl.
Qed.

#[local] Hint Resolve keeps_ret keeps_lift keeps_mkdir keeps_makedirs
  keeps_ensure_dir
  keeps_write_file keeps_remove keeps_torch_load : keeps.

(** A computation built from the operations above with [bindIO]. *)
Ltac keeps_step :=
  first
    [ solve [auto with keeps]
    | apply keeps_bind; [| intros ?]
    | progress cbv zeta
    | match goal with
      | |- keeps_directories (if ?b then _ else _) => destruct b
      | |- keeps_directories (match ?v with _ => _ end) => destruct v
      end ].

Section Files.
Context {M : Modeling} {E : Env}.

Lemma keeps_test (args : Args.t) (new_dirs : option string)
    (dev_as_test : option bool) :
  keeps_directories (test args new_dirs dev_as_test).
Proof. unfold test, json_dump. repeat keeps_step. Qed.

Lemma keeps_valid_block (args : Args.t) (valid : list InputFeatures)
    (new_dirs : string) (epoch : nat) (st : TrainState) :
  keeps_directories (valid_block args valid new_dirs epoch st).
Proof.
  pose proof keeps_test as Ht.
  unfold valid_block, torch_save. repeat keeps_step.
Qed.

Lemma keeps_train_epoch (args : Args.t) (feats : list InputFeatures)
    (valid : option (list InputFeatures)) (st : TrainState) (epoch : nat) :
  keeps_directories (train_epoch args feats valid st epoch).
Proof.
  pose proof keeps_valid_block as Hv.
  unfold train_epoch. repeat keeps_step.
Qed.

Lemma keeps_train (args : Args.t) : keeps_directories (train args).
Proof.
  pose proof keeps_train_epoch as He.
  unfold train, json_dump, torch_save.
  repeat first [apply keeps_foldIO; intros ? ? | keeps_step].
Qed.

Lemma keeps_main (args : Args.t) : keeps_directories (main args).
Proof.
  pose proof keeps_train as Ht. pose proof keeps_test as Hs.
  unfold main. repeat keeps_step.
Qed.

(** X15: whatever phases run and however the run ends, [main] removes or
    replaces no directory. And when it is over the output directory
    exists, unless [os.makedirs] raised: [FileNotFoundError] on the empty
    path, with nothing changed; [FileExistsError] when a regular file has
    the name of the output directory; [NotADirectoryError] when a regular
    file is in the place of a directory above it. *)
Theorem main_keeps_directories (args : Args.t) (fs fs' : FS)
    (r : result unit) :
  main args fs = (r, fs') ->
  directories_kept fs fs' /\
  (fs' !! norm (Args.output_dir args) = Some Directory \/
   r = Raise FileNotFoundError /\ Args.output_dir args = ""%string /\
   fs' = fs \/
   (r = Raise FileExistsError /\
    exists f : File,
      fs !! norm (Args.output_dir args) = Some f /\ f <> Directory) \/
   (r = Raise NotADirectoryError /\
    exists (d : string) (f : File),
      In d (ancestors (Args.output_dir args)) /\
      fs !! d = Some f /\ f <> Directory)).
Proof.
  intros H. split; [exact (keeps_main args fs r fs' H) |].
  unfold main in H. unfold bindIO at 1 in H.
  destruct (makedirs (Args.output_dir args) fs) as [[[] | e] fs1] eqn:Emk.
  - left.
    apply makedirs_spec in Emk
      as [[_ Hd] | [(Hr & _) | [(Hr & _) | (Hr & _)]]]; try discriminate Hr.
    assert (Hk : keeps_directories
                   (bindIO (if Args.do_train args
                            then bindIO (train args) (fun _ => retIO tt)
                            else retIO tt)
                      (fun _ => if Args.do_eval args
                                then test args None None else retIO tt))).
    { pose proof keeps_train as Ht. pose proof keeps_test as Hs.
      repeat keeps_step. }
    exact (Hk fs1 r fs' H _ Hd).
  - injection H as <- <-. right.
    apply makedirs_spec in Emk
      as [[Hr _] | [(Hr & H0 & Hfs) | [(Hr & Hf) | (Hr & Hf)]]];
      [discriminate Hr | left | right; left | right; right]; auto.
Qed.

Lemma train_epoch_item (args : Args.t) (feats : list InputFeatures)
    (valid : option (list InputFeatures)) (epoch : nat)
    (st st' : TrainState) (fs fs' : FS) :
  train_epoch args feats valid st epoch fs = (Ok st', fs') ->
  exists (st1 : TrainState) (l : Tensor01) (x : Q),
    foldR (train_batch args)
      (DataLoader (Args.train_batch_size args) (RandomSampler epoch feats)) st
      = Ok st1 /\
    loss st1 = Some l /\ item l = Ok x.
Proof.
  unfold train_epoch. intros H.
  inv_bind H st1 fs1 Hloop. inv_bind H x fs2 Hitem.
  destruct (loss st1) as [l |] eqn:El; [| discriminate Hitem].
  exists st1, l, x. auto.
Qed.

Lemma epoch_directories (args : Args.t) (feats : list InputFeatures)
    (valid : option (list InputFeatures)) (n a : nat)
    (st st' : TrainState) (fs fs' : FS) :
  foldIO (train_epoch args feats valid) (seq a n) st fs = (Ok st', fs') ->
  forall k, a <= k < a + n ->
    exists d : string,
      path_join (Some (Args.output_dir args)) (pretty (k + 1)) = Ok d /\
      fs' !! d = Some Directory /\
      norm d = d /\ d <> ""%string /\ check_dirs fs' (ancestors d) = Ok tt.
Proof.
  revert a st fs. induction n as [| n IH]; intros a st fs H k Hk; [lia |].
  cbn [seq foldIO] in H.
  apply bindIO_Ok_inv in H as (s1 & fs1 & Hep & Hrest).
  destruct (decide (k = a)) as [-> | Hne].
  - pose proof Hep as Hep'.
    apply train_epoch_inv in Hep' as (st1 & d & fs2 & _ & _ & Hd & Hmk & Hv).
    pose proof (PathFacts.norm_join_pretty _ _ _ Hd) as Hnorm.
    apply mkdir_Ok in Hmk as (Hne & Hc & Hnone & ->). rewrite Hnorm in *.
    exists d. split; [exact Hd |].
    assert (Hk1 : directories_kept (<[d := Directory]> fs) fs1).
    { destruct valid as [v |].
      - exact (keeps_valid_block _ _ _ _ _ _ _ _ Hv).
      - destruct Hv as [_ ->]. apply kept_refl. }
    assert (Hk2 : directories_kept fs1 fs').
    { refine (keeps_foldIO _ _ _ _ _ _ _ Hrest).
      intros s x. apply keeps_train_epoch. }
    split_and!; try assumption.
    + apply Hk2, Hk1, lookup_insert_eq.
    + apply (check_dirs_kept fs1); [exact Hk2 |].
      apply (check_dirs_kept (<[d := Directory]> fs)); [exact Hk1 |].
      apply (check_dirs_kept fs); [| exact Hc].
      apply kept_insert. rewrite Hnone. discriminate.
  - apply (IH (S a) s1 fs1 Hrest). lia.
Qed.

(** X16: a run of [train] that ends leaves one directory per epoch in the
    output directory, named 1, 2, ... And as [os.mkdir] refuses a name
    that exists, a second run of [train] with the same arguments on the
    files the first one left raises [FileExistsError] at the end of its
    first epoch, before it wrote anything. *)
Theorem train_leaves_epoch_directories (args : Args.t) (st : TrainState)
    (fs fs' : FS) :
  train args fs = (Ok st, fs') ->
  (forall k, k < Args.num_train_epochs args ->
     exists d : string,
       path_join (Some (Args.output_dir args)) (pretty (k + 1)) = Ok d /\
       fs' !! d = Some Directory) /\
  (1 <= Args.num_train_epochs args ->
   train args fs' = (Raise FileExistsError, fs')).
Proof.
  intros H.
  apply train_inv_full in H
    as (tok & exs & t & valid & m0 & fs2 & p & Hexs & Ht & Hiff & Hm0 & Hloop
        & Hp & Hw & Htok & Hadam & Hdev & Hsampler).
  assert (Hdirs : forall k, k < Args.num_train_epochs args ->
            exists d : string,
              path_join (Some (Args.output_dir args)) (pretty (k + 1)) = Ok d /\
              fs' !! d = Some Directory /\
              norm d = d /\ d <> ""%string /\
              check_dirs fs' (ancestors d) = Ok tt).
  { intros k Hk.
    destruct (epoch_directories _ _ _ _ _ _ _ _ _ Hloop k ltac:(lia))
      as (d & Hd & Hfs & Hnorm & Hne & Hc).
    pose proof (keeps_write_file _ _ _ _ _ Hw) as Hkw.
    exists d. split_and!; try assumption.
    - exact (Hkw d Hfs).
    - exact (check_dirs_kept _ _ _ Hkw Hc). }
  split.
  { intros k Hk. destruct (Hdirs k Hk) as (d & Hd & Hfs & _). eauto. }
  intros HE.
  destruct (Hdirs 0 ltac:(lia)) as (d & Hd & Hfs & Hnorm & Hne & Hc).
  destruct (Args.num_train_epochs args) as [| n] eqn:En; [lia |].
  cbn [seq foldIO] in Hloop.
  apply bindIO_Ok_inv in Hloop as (s1 & fs1 & Hep & _).
  apply train_epoch_item in Hep as (st1 & l & x & Hfold & Hl & Hitem).
  assert (Hbs : DataLoader_init (Args.train_batch_size args) = Ok tt).
  { unfold num_train_steps in Ht. unfold DataLoader_init.
    destruct (Args.train_batch_size args =? 0); [discriminate Ht | reflexivity]. }
  unfold train. unfold bindIO at 1, lift at 1. rewrite Htok.
  unfold bindIO at 1, lift at 1. rewrite Hexs.
  unfold bindIO at 1, lift at 1. rewrite En, Ht.
  unfold bindIO at 1, lift at 1. rewrite Hsampler.
  unfold bindIO at 1, lift at 1. rewrite Hbs.
  unfold bindIO at 1.
  assert (Hvalid :
            (if Args.do_valid args
             then bindIO (lift (get_dev_examples (Args.data_dir args)))
                    (fun valid_examples =>
                       retIO (Some (convert_examples_to_features valid_examples
                                      get_labels (Args.max_seq_length args) tok)))
             else retIO None) fs' = (Ok valid, fs')).
  { destruct (Args.do_valid args).
    - destruct (proj1 Hiff eq_refl) as [v ->].
      destruct Hdev as (vex & Hvex & ->).
      unfold bindIO, lift. rewrite Hvex. reflexivity.
    - destruct valid as [v |]; [| reflexivity].
      assert (Hf : false = true) by (apply Hiff; eauto). discriminate Hf. }
  rewrite Hvalid.
  unfold bindIO at 1, lift at 1. rewrite Hm0.
  unfold bindIO at 1, lift at 1. rewrite Hadam.
  unfold bindIO at 1. cbn [seq foldIO].
  unfold bindIO at 1. unfold train_epoch at 1.
  unfold bindIO at 1, lift at 1. rewrite Hfold.
  unfold bindIO at 1, lift at 1. rewrite Hl, Hitem.
  unfold bindIO at 1, lift at 1. change (0 + 1) with 1 in *. rewrite Hd.
  unfold bindIO at 1.
  rewrite (mkdir_exists d fs' Directory); [reflexivity | | exact Hc |];
    rewrite Hnorm; assumption.
Qed.

End Files.

Lemma main_keeps_directories_witness :
  exists (r : result unit) (fs' : FS),
    main (M := Toy.modeling) (E := Toy.env Toy.five Toy.five Toy.five)
      (Toy.args 1 2 false false) {[ "logs" := Directory ]} = (r, fs') /\
    fs' !! "logs" = Some Directory.
Proof.
  destruct (main (M := Toy.modeling) (E := Toy.env Toy.five Toy.five Toy.five)
              (Toy.args 1 2 false false) {[ "logs" := Directory ]})
    as [r fs'] eqn:H.
  exists r, fs'. split; [reflexivity |].
  refine (proj1 (main_keeps_directories (M := Toy.modeling)
                   (E := Toy.env Toy.five Toy.five Toy.five)
                   (Toy.args 1 2 false false) _ fs' r H) "logs" _).
  reflexivity.
Defined.

Lemma train_leaves_epoch_directories_witness :
  exists (st : TrainState) (fs' : FS),
    train (M := Toy.modeling) (E := Toy.env Toy.five Toy.five Toy.five)
      (Toy.args 1 2 false false) Toy.fs_out = (Ok st, fs') /\
    train (M := Toy.modeling) (E := Toy.env Toy.five Toy.five Toy.five)
      (Toy.args 1 2 false false) fs' = (Raise FileExistsError, fs').
Proof.
  destruct (succeeded_inv _ StepsExtras.toy_five_succeeds) as (st & fs' & H).
  exists st, fs'. split; [exact H |].
  refine (proj2 (train_leaves_epoch_directories (M := Toy.modeling)
                   (E := Toy.env Toy.five Toy.five Toy.five)
                   (Toy.args 1 2 false false) st Toy.fs_out fs' H) _).
  simpl. lia.
Defined.

End FilesExtras.

(** ** The parameter groups during training *)

Module GroupExtras.
Import Tensor Modeling OS Data Env Eval Train TrainSpec.
Import ValidTheorems TrainFacts TrainInversion.

Section Groups.
Context {M : Modeling} {E : Env}.

(** The learning rate of the last optimizer step logged, [lr0] when there
    was none. *)
Let last_lr (lr0 : Q) (st : TrainState) : Q :=
  List.last (map snd (steps st)) lr0.

(** X17: the loop overwrites the learning rate of both groups at every
    step and changes nothing else in them: after [train] the groups are
    those the optimizer was built with from the pretrained model, same
    members and same weight decay, with the learning rate of the last
    step taken (the rate of the command line if no step was taken). *)
Theorem groups_keep_members (args : Args.t) (st : TrainState) (fs fs' : FS) :
  train args fs = (Ok st, fs') ->
  exists m0 : Model,
    from_pretrained (Args.bert_model args) (length get_labels) = Ok m0 /\
    param_groups (optimizer st) =
      param_groups
        (make_optimizer m0
           (List.last (map snd (steps st)) (Args.learning_rate args))
           (Args.warmup_proportion args) (t_total (optimizer st))).
Proof.
  intros H.
  apply (train_keeps
           (fun m0 s =>
              param_groups (optimizer s) =
              param_groups
                (make_optimizer m0 (last_lr (Args.learning_rate args) s)
                   (Args.warmup_proportion args) (t_total (optimizer s)))))
    in H; [exact H | ..].
  - intros m0 t. reflexivity.
  - intros m0 s b s' Hs Hb. unfold train_batch in Hb.
    apply bindR_Ok_inv in Hb as (l & _ & Hb).
    apply bindR_Ok_inv in Hb as ([] & _ & Hb).
    apply bindR_Ok_inv in Hb as (progress & _ & Hb). injection Hb as <-.
    unfold last_lr. cbn [optimizer steps param_groups t_total].
    rewrite List.map_app. cbn [map]. rewrite last_last.
    rewrite Hs. reflexivity.
  - intros m0 v nd ep s s' fs0 fs0' Hs Hvb.
    apply valid_block_inv in Hvb as (x & l & _ & ->). exact Hs.
Qed.

End Groups.

Lemma groups_keep_members_witness :
  exists (st : TrainState) (fs' : FS),
    train (M := Toy.modeling) (E := Toy.env Toy.five Toy.five Toy.five)
      (Toy.args 1 2 false false) Toy.fs_out = (Ok st, fs') /\
    param_groups (optimizer st) =
      param_groups
        (make_optimizer (E := Toy.env Toy.five Toy.five Toy.five) Toy.pretrained
           (List.last (map snd (steps st))
              (Args.learning_rate (Toy.args 1 2 false false)))
           (Args.warmup_proportion (Toy.args 1 2 false false))
           (t_total (optimizer st))).
Proof.
  destruct (succeeded_inv _ StepsExtras.toy_five_succeeds) as (st & fs' & H).
  exists st, fs'. split; [exact H |].
  destruct (groups_keep_members (M := Toy.modeling)
              (E := Toy.env Toy.five Toy.five Toy.five)
              (Toy.args 1 2 false false) st Toy.fs_out fs' H) as (m0 & Hm0 & Hg).
  injection Hm0 as <-. exact Hg.
Defined.

End GroupExtras.

(** ** The checkpoint a run with validation leaves *)

Module CheckpointExtras.
Import Tensor Modeling OS Data Env Eval Train TrainSpec.
Import ValidTheorems TrainFacts TrainInversion PathFacts.

Lemma foldIO_app {A St : Type} (body : St -> A -> IO St) (l1 l2 : list A)
    (s : St) (fs : FS) :
  foldIO body (l1 ++ l2) s fs = bindIO (foldIO body l1 s) (foldIO body l2) fs.
Proof.
  revert s fs. induction l1 as [| x l1 IH]; intros s fs; [reflexivity |].
  simpl. unfold bindIO.
  destruct (body s x fs) as [[s' | e] fs1]; [| reflexivity].
  rewrite IH. reflexivity.
Qed.

Section Checkpoint.
Context {M : Modeling} {E : Env}.

(** A call of [test] that returns has written the prediction file and
    nothing else. *)
Lemma test_Ok_frame (args : Args.t) (d : string) (dev_as_test : option bool)
    (fs fs' : FS) :
  test args (Some d) dev_as_test fs = (Ok tt, fs') ->
  exists (q : string) (j : Json),
    path_join (Some d) "predictions.json" = Ok q /\
    fs' = <[q := JsonFile j]> fs.
Proof.
  unfold test. intros H.
  inv_bind H feats fs1 Hf. inv_bind H u fs2 Hinit. inv_bind H p fs3 Hp.
  inv_bind H m fs4 Hload. inv_bind H full fs5 Hloop. inv_bind H q fs6 Hq.
  unfold torch_load in Hload.
  destruct (fs !! p) as [[| m' | j] |]; try discriminate Hload.
  injection Hload as <- <-.
  unfold json_dump, write_file in H.
  destruct (fs !! q) as [[| m'' | j] |];
    first [discriminate H | injection H as <-]; eauto.
Qed.

Lemma write_file_Ok (p : string) (f : File) (fs fs' : FS) :
  write_file p f fs = (Ok tt, fs') -> fs' = <[p := f]> fs.
Proof.
  unfold write_file. destruct (fs !! p) as [[| m | j] |]; intros H;
    first [discriminate H | injection H as <-]; reflexivity.
Qed.

Lemma remove_Ok (p : string) (fs fs' : FS) :
  remove p fs = (Ok tt, fs') -> fs' = delete p fs.
Proof.
  unfold remove. destruct (fs !! p) as [[| m | j] |]; intros H;
    first [discriminate H | injection H as <-]; reflexivity.
Qed.

Lemma valid_block_last (args : Args.t) (v : list InputFeatures)
    (nd : string) (ep : nat) (st st' : TrainState) (fs fs' : FS) :
  ep = Args.num_train_epochs args - 1 ->
  path_join (Some (Args.output_dir args)) (pretty (ep + 1)) = Ok nd ->
  valid_block args v nd ep st fs = (Ok st', fs') ->
  exists p : string,
    path_join (Some (Args.output_dir args)) "model.pt" = Ok p /\
    fs' !! p = Some (ModelFile (set_training (model st) false)).
Proof.
  intros Hep Hnd H. unfold valid_block in H. cbv zeta in H.
  inv_bind H r fs1 Hr. inv_bind H p1 fs2 Hp1. inv_bind H u1 fs3 Hs1.
  inv_bind H u2 fs4 Ht1. inv_bind H u3 fs5 Hlast. inv_bind H p2 fs6 Hp2.
  inv_bind H u4 fs7 Hrm. unfold retIO in H. injection H as _ <-.
  rewrite <- Hep, Nat.eqb_refl in Hlast.
  inv_bind Hlast p fs8 Hp. inv_bind Hlast u5 fs9 Hs2.
  destruct u3, u4, u5.
  apply test_Ok_frame in Hlast as (q & j & Hq & ->).
  apply write_file_Ok in Hs2 as ->. apply remove_Ok in Hrm as ->.
  exists p. split; [exact Hp |].
  destruct (path_join_length (Args.output_dir args)) as (k & Hk).
  destruct (path_join_length nd) as (k' & Hk').
  apply Hk in Hp; [| reflexivity]. apply Hk in Hq; [| reflexivity].
  apply Hk in Hnd; [| apply prefix_slash_pretty].
  apply Hk' in Hp2; [| reflexivity].
  pose proof (pretty_nat_length (ep + 1)) as Hlen.
  simpl in Hp, Hq, Hp2.
  rewrite lookup_delete_ne by (intros ->; lia).
  rewrite lookup_insert_ne by (intros ->; lia).
  apply lookup_insert_eq.
Qed.

(** X18: with validation and at least one epoch, when [train] ends the
    file model.pt of the output directory holds the model with its final
    parameters, saved in evaluation mode by the validation block of the
    last epoch: neither the evaluation that follows, nor the removal of the
    checkpoint of the epoch, nor the writing of valid.json touches it. *)
Theorem validated_run_saves_eval_model (args : Args.t) (st : TrainState)
    (fs fs' : FS) :
  train args fs = (Ok st, fs') ->
  Args.do_valid args = true -> 1 <= Args.num_train_epochs args ->
  exists p : string,
    path_join (Some (Args.output_dir args)) "model.pt" = Ok p /\
    fs' !! p = Some (ModelFile (set_training (model st) false)).
Proof.
  intros H Hv HE.
  apply train_inv_full in H
    as (tok & exs & t & valid & m0 & fs2 & pv & _ & _ & Hiff & _ & Hloop & Hpv
        & Hw & _).
  rewrite Hv in Hpv, Hw. destruct (proj1 Hiff Hv) as [v ->].
  destruct (Args.num_train_epochs args) as [| n] eqn:En; [lia |].
  rewrite seq_S, foldIO_app in Hloop.
  apply bindIO_Ok_inv in Hloop as (s1 & fs1 & _ & Hlast).
  cbn [foldIO] in Hlast.
  apply bindIO_Ok_inv in Hlast as (s2 & fs3 & Hep & Hret).
  unfold retIO in Hret. injection Hret as -> ->.
  apply train_epoch_inv in Hep as (st1 & nd & fs4 & _ & _ & Hnd & _ & Hvb).
  pose proof Hvb as Hvb'.
  apply valid_block_inv in Hvb' as (x & l & _ & ->).
  apply valid_block_last in Hvb as (p & Hp & Hfs);
    [| rewrite En; simpl; lia | exact Hnd].
  exists p. split; [exact Hp |].
  apply write_file_Ok in Hw as ->.
  destruct (path_join_length (Args.output_dir args)) as (k & Hk).
  pose proof (Hk "model.pt" p eq_refl Hp) as Lp.
  pose proof (Hk "valid.json" pv eq_refl Hpv) as Lv.
  simpl in Lp, Lv.
  rewrite lookup_insert_ne by (intros ->; lia). exact Hfs.
Qed.

End Checkpoint.

Lemma validated_run_saves_eval_model_witness :
  exists (st : TrainState) (fs' : FS),
    train (M := Toy.modeling) (E := Toy.env Toy.five Toy.five Toy.five)
      (Toy.args 2 2 true false) Toy.fs_out = (Ok st, fs') /\
    fs' !! "out/model.pt" = Some (ModelFile (set_training (model st) false)).
Proof.
  destruct (succeeded_inv _ ValidExtras.toy_valid_succeeds) as (st & fs' & H).
  exists st, fs'. split; [exact H |].
  destruct (validated_run_saves_eval_model (M := Toy.modeling)
              (E := Toy.env Toy.five Toy.five Toy.five)
              (Toy.args 2 2 true false) st Toy.fs_out fs' H eq_refl)
    as (p & Hp & Hf); [simpl; lia |].
  injection Hp as <-. exact Hf.
Defined.

End CheckpointExtras.
